(** * JARVIS agent substrate: a shallow embedding of the orchestrator and of
    the base agent runtime

    The development follows [jarvis/orchestrator/orchestrator.py],
    [jarvis/agents/base/base_agent.py] and
    [jarvis/agents/photo_agent/agent.py].

    - Python [str] is a list of code points, [bytes] a list of [Byte.byte].
    - [json.dumps], [json.loads], [str.encode] and [bytes.decode] are
      written out (module [Json], module [Utf8]) since the handlers of both
      programs start by decoding the message body.
    - [datetime] is a count of microseconds since 0001-01-01T00:00:00.
    - The broker, the wall clock and the loggers are the world the
      coroutines act on; they are threaded through a state-and-exception
      monad. *)

From Stdlib Require Import ZArith NArith List String Ascii Bool Lia.
From Stdlib.Strings Require Import Byte.
Import ListNotations.


Set Warnings "-register-all".

(** ** Python strings *)

Module PyStr.

Abbreviation codepoint := N (only parsing).
Abbreviation pystr := (list N) (only parsing).

(** A source literal; every literal used below is ASCII unless it is
    spelled with explicit code points. *)
Definition lit (s : string) : pystr :=
  map N_of_ascii (list_ascii_of_string s).

Fixpoint eqb (a b : pystr) : bool :=
  match a, b with
  | [], [] => true
  | x :: a', y :: b' => N.eqb x y && eqb a' b'
  | _, _ => false
  end.

(** [s.startswith(p)], returning what follows the prefix. *)
Fixpoint strip_prefix (p s : pystr) : option pystr :=
  match p, s with
  | [], _ => Some s
  | x :: p', y :: s' => if N.eqb x y then strip_prefix p' s' else None
  | _ :: _, [] => None
  end.

(** Decimal digits of a natural number, most significant first. *)
Fixpoint digits_fuel (fuel : nat) (n : N) (acc : pystr) : pystr :=
  match fuel with
  | O => acc
  | S fuel' =>
      let acc' := (48 + n mod 10)%N :: acc in
      if (n <? 10)%N then acc' else digits_fuel fuel' (n / 10)%N acc'
  end.

Definition digits (n : N) : pystr :=
  digits_fuel (S (N.to_nat (N.log2 n))) n [].

(** [int.__repr__] *)
Definition int_repr (z : Z) : pystr :=
  if (z <? 0)%Z then 45%N :: digits (Z.to_N (- z)) else digits (Z.to_N z).

(** Unicode scalar values: what a [str] decoded from UTF-8 holds. *)
Definition scalar (c : codepoint) : bool :=
  (N.ltb c 55296 || N.leb 57344 c) && N.ltb c 1114112.

Definition wf (s : pystr) : bool := forallb scalar s.

End PyStr.

Import PyStr.

Declare Scope py_scope.
Delimit Scope py_scope with py.
Notation "'py' s" := (lit s) (at level 5, s at level 0, only parsing) : py_scope.

(** ** Outcomes of a Python call: a value or a raised exception *)

Inductive exn : Type :=
| UnicodeDecodeError
| UnicodeEncodeError
| JSONDecodeError
| TypeError
| AttributeError
| RuntimeError
| AMQPConnectionError           (* aio_pika: connect() could not reach the broker *)
| ConnectionError
| ValueError                    (* aio_pika: a routing key over 255 bytes *)
| ChannelInvalidStateError      (* aio_pika: publish on a closed connection *)
| DeliveryError.                (* aio_pika: the broker did not take the message *)

Inductive outcome (A : Type) : Type :=
| Return (a : A)
| Raise (e : exn).

Arguments Return {A} a.
Arguments Raise {A} e.

Definition obind {A B} (o : outcome A) (k : A -> outcome B) : outcome B :=
  match o with
  | Return a => k a
  | Raise e => Raise e
  end.

(** ** Python floats, as text

    No program below computes with a float after building it: a float is
    built by [timedelta.total_seconds()] or read by [json.loads], and then
    only written out.  A float is therefore kept as the decimal text that
    [repr] gives it and that the JSON scanner reads. *)

Module PyFloat.

Inductive exp_sign : Type := NoSign | Plus | Minus.

Record decimal : Type := {
  negative : bool;
  int_part : N;
  frac_part : pystr;                       (* the digits after the point; [] for none *)
  exp_part : option (bool * exp_sign * pystr)  (* 'E' or 'e', sign, digits *)
}.

Inductive float_text : Type :=
| NaN
| Infinity
| NegInfinity
| Dec (d : decimal).

Definition is_digit (c : codepoint) : bool := (N.leb 48 c) && (N.leb c 57).

Definition frac_text (f : pystr) : pystr :=
  match f with [] => [] | c :: l => 46%N :: c :: l end.

Definition exp_text (e : option (bool * exp_sign * pystr)) : pystr :=
  match e with
  | None => []
  | Some (upper, sg, ds) =>
      ((if upper then 69%N else 101%N)
       :: match sg with NoSign => [] | Plus => [43%N] | Minus => [45%N] end
       ++ ds)%list
  end.

(** [repr] of a float held as [d]. *)
Definition dec_repr (d : decimal) : pystr :=
  ((if negative d then [45%N] else [])
   ++ digits (int_part d) ++ frac_text (frac_part d)
   ++ exp_text (exp_part d))%list.

Definition repr (f : float_text) : pystr :=
  match f with
  | NaN => lit "NaN"
  | Infinity => lit "Infinity"
  | NegInfinity => lit "-Infinity"
  | Dec d => dec_repr d
  end.

Definition exp_ok (e : option (bool * exp_sign * pystr)) : bool :=
  match e with
  | None => true
  | Some (_, _, ds) =>
      forallb is_digit ds && match ds with [] => false | _ :: _ => true end
  end.

(** The texts that are floats: digits where digits are due, and a
    fraction or an exponent (or the text would be an int).  [NaN],
    [Infinity] and [-Infinity] are floats as well: [json.dumps] writes
    them and [json.loads] reads them ([allow_nan] is on by default). *)
Definition dec_ok (d : decimal) : bool :=
  forallb is_digit (frac_part d) && exp_ok (exp_part d)
  && match frac_part d, exp_part d with
     | [], None => false
     | _, _ => true
     end.

Definition ok (f : float_text) : bool :=
  match f with Dec d => dec_ok d | _ => true end.

End PyFloat.

(** ** datetime *)

Module DateTime.

(** A naive [datetime]: microseconds since 0001-01-01T00:00:00. *)
Definition datetime := Z.

Local Open Scope Z_scope.

(** [(a - b).total_seconds() > 300]: the timedelta is a whole number of
    microseconds and [total_seconds] divides it by 10**6 with correct
    rounding, so the comparison with 300 is the comparison of the
    microseconds with 300 * 10**6. *)
Definition timedelta (a b : datetime) : Z := a - b.

Definition total_seconds_gt (td : Z) (secs : Z) : bool :=
  secs * 1000000 <? td.

Definition days_before_month (m : Z) : Z :=
  match m with
  | 1 => 0 | 2 => 31 | 3 => 59 | 4 => 90 | 5 => 120 | 6 => 151
  | 7 => 181 | 8 => 212 | 9 => 243 | 10 => 273 | 11 => 304 | 12 => 334
  | _ => -1
  end.

Definition days_in_month (m : Z) : Z :=
  match m with
  | 1 => 31 | 2 => 28 | 3 => 31 | 4 => 30 | 5 => 31 | 6 => 30
  | 7 => 31 | 8 => 31 | 9 => 30 | 10 => 31 | 11 => 30 | 12 => 31
  | _ => -1
  end.

(** [datetime._ord2ymd], on the ordinal minus one. *)
Definition ord2ymd (n0 : Z) : Z * Z * Z :=
  let n400 := n0 / 146097 in
  let n := n0 mod 146097 in
  let n100 := n / 36524 in
  let n := n mod 36524 in
  let n4 := n / 1461 in
  let n := n mod 1461 in
  let n1 := n / 365 in
  let n := n mod 365 in
  let year := n400 * 400 + 1 + n100 * 100 + n4 * 4 + n1 in
  if (n1 =? 4) || (n100 =? 4) then (year - 1, 12, 31)
  else
    let leapyear := (n1 =? 3) && (negb (n4 =? 24) || (n100 =? 3)) in
    let month := Z.shiftr (n + 50) 5 in
    let preceding :=
      days_before_month month
      + (if (2 <? month) && leapyear then 1 else 0) in
    if n <? preceding then
      let month' := month - 1 in
      let preceding' :=
        preceding - (days_in_month month'
                     + (if (month' =? 2) && leapyear then 1 else 0)) in
      (year, month', n - preceding' + 1)
    else (year, month, n - preceding + 1).

Definition digit (d : Z) : codepoint := Z.to_N (48 + d mod 10).

(** ["%0<w>d" % n] for [0 <= n]. *)
Fixpoint zero_padded (w : nat) (n : Z) : pystr :=
  match w with
  | O => []
  | S w' => zero_padded w' (n / 10) ++ [digit n]
  end.

Record fields : Type := {
  year : Z; month : Z; day : Z;
  hour : Z; minute : Z; second : Z; microsecond : Z
}.

Definition to_fields (t : datetime) : fields :=
  let days := t / 86400000000 in
  let us := t mod 86400000000 in
  let '(y, m, d) := ord2ymd days in
  {| year := y; month := m; day := d;
     hour := us / 3600000000;
     minute := (us / 60000000) mod 60;
     second := (us / 1000000) mod 60;
     microsecond := us mod 1000000 |}.

(** [datetime.isoformat()]:
    [YYYY-MM-DDTHH:MM:SS], then [.ffffff] when the microsecond is not 0. *)
Definition isoformat (t : datetime) : pystr :=
  let f := to_fields t in
  (zero_padded 4 (year f) ++ lit "-" ++ zero_padded 2 (month f) ++ lit "-"
   ++ zero_padded 2 (day f) ++ lit "T" ++ zero_padded 2 (hour f) ++ lit ":"
   ++ zero_padded 2 (minute f) ++ lit ":" ++ zero_padded 2 (second f)
   ++ (if microsecond f =? 0 then []
       else lit "." ++ zero_padded 6 (microsecond f)))%list.

(** [datetime.strftime('%Y-%m-%d')] (years of four digits). *)
Definition strftime_date (t : datetime) : pystr :=
  let f := to_fields t in
  (zero_padded 4 (year f) ++ lit "-" ++ zero_padded 2 (month f)
   ++ lit "-" ++ zero_padded 2 (day f))%list.

(** [datetime.strftime('%Y%m%d_%H%M%S')] (years of four digits). *)
Definition strftime_compact (t : datetime) : pystr :=
  let f := to_fields t in
  (zero_padded 4 (year f) ++ zero_padded 2 (month f)
   ++ zero_padded 2 (day f) ++ lit "_" ++ zero_padded 2 (hour f)
   ++ zero_padded 2 (minute f) ++ zero_padded 2 (second f))%list.

Fixpoint drop_zeros (rev_digits : pystr) : pystr :=
  match rev_digits with
  | c :: r => if N.eqb c 48 then drop_zeros r else rev_digits
  | [] => []
  end.

(** [td.total_seconds()] for a timedelta of [us] microseconds, as the
    text [repr] gives the float: the exact decimal [us / 10**6] while it
    has fewer than 16 significant digits ([|us| < 10**15], some 31
    years), in exponent form below [1e-04]. *)
Definition total_seconds (us : Z) : PyFloat.float_text :=
  let a := Z.abs us in
  let mk i f e :=
    PyFloat.Dec {| PyFloat.negative := us <? 0; PyFloat.int_part := Z.to_N i;
                   PyFloat.frac_part := f; PyFloat.exp_part := e |} in
  if (0 <? a) && (a <? 10) then
    mk a [] (Some (false, PyFloat.Minus, lit "06"))
  else if (0 <? a) && (a <? 100) then
    mk (a / 10) (if a mod 10 =? 0 then [] else [digit a])
       (Some (false, PyFloat.Minus, lit "05"))
  else
    let frac := rev (drop_zeros (rev (zero_padded 6 (a mod 1000000)))) in
    mk (a / 1000000) (match frac with [] => lit "0" | _ => frac end) None.

End DateTime.

(** ** Python dictionaries with [str] keys, in insertion order *)

Module Dict.

Definition dict (V : Type) : Type := list (pystr * V).

Fixpoint get {V} (d : dict V) (k : pystr) : option V :=
  match d with
  | [] => None
  | (k', v) :: d' => if PyStr.eqb k' k then Some v else get d' k
  end.

(** [k in d] *)
Definition mem {V} (d : dict V) (k : pystr) : bool :=
  match get d k with Some _ => true | None => false end.

(** [d[k] = v]: an existing key keeps its place, a new one goes last. *)
Fixpoint set {V} (d : dict V) (k : pystr) (v : V) : dict V :=
  match d with
  | [] => [(k, v)]
  | (k', v') :: d' =>
      if PyStr.eqb k' k then (k', v) :: d' else (k', v') :: set d' k v
  end.

(** In-place mutation of the object stored under [k]
    ([d[k][field] = ...]); nothing happens when [k] is absent. *)
Fixpoint alter {V} (f : V -> V) (d : dict V) (k : pystr) : dict V :=
  match d with
  | [] => []
  | (k', v') :: d' =>
      if PyStr.eqb k' k then (k', f v') :: d' else (k', v') :: alter f d' k
  end.

Definition keys {V} (d : dict V) : list pystr := map fst d.
Definition values {V} (d : dict V) : list V := map snd d.

(** No key twice: what every [dict] built by [set] satisfies. *)
Fixpoint distinct {V} (d : dict V) : bool :=
  match d with
  | [] => true
  | (k, _) :: d' => negb (mem d' k) && distinct d'
  end.

(** [dict(pairs)] *)
Definition of_pairs {V} (l : list (pystr * V)) : dict V :=
  fold_left (fun d kv => set d (fst kv) (snd kv)) l [].

End Dict.

(** ** str.encode() and bytes.decode(): UTF-8, errors='strict' *)

Module Utf8.

Local Open Scope N_scope.

Abbreviation bytes := (list byte) (only parsing).

Definition byte_of (n : N) : byte :=
  match Byte.of_N n with Some x => x | None => x00 end.

Definition encode_codepoint (c : codepoint) : outcome bytes :=
  if c <? 128 then Return [byte_of c]
  else if c <? 2048 then
    Return [byte_of (192 + c / 64); byte_of (128 + c mod 64)]
  else if c <? 65536 then
    if (55296 <=? c) && (c <? 57344) then Raise UnicodeEncodeError
    else Return [byte_of (224 + c / 4096);
                 byte_of (128 + (c / 64) mod 64);
                 byte_of (128 + c mod 64)]
  else if c <? 1114112 then
    Return [byte_of (240 + c / 262144);
            byte_of (128 + (c / 4096) mod 64);
            byte_of (128 + (c / 64) mod 64);
            byte_of (128 + c mod 64)]
  else Raise UnicodeEncodeError.

Fixpoint encode (s : pystr) : outcome bytes :=
  match s with
  | [] => Return []
  | c :: s' =>
      obind (encode_codepoint c) (fun bs =>
      obind (encode s') (fun rest => Return (bs ++ rest)%list))
  end.

Definition between (lo hi : N) (x : byte) : bool :=
  (lo <=? Byte.to_N x) && (Byte.to_N x <=? hi).

Definition low6 (x : byte) : N := Byte.to_N x - 128.

Definition push {A} (c : A) (o : outcome (list A)) : outcome (list A) :=
  obind o (fun s => Return (c :: s)).

(** The well-formed byte sequences of the Unicode standard (no overlong
    form, no surrogate, nothing above U+10FFFF); anything else raises. *)
Fixpoint decode (bs : bytes) : outcome pystr :=
  match bs with
  | [] => Return []
  | b0 :: r0 =>
    let n0 := Byte.to_N b0 in
    if n0 <? 128 then push n0 (decode r0)
    else if between 194 223 b0 then
      match r0 with
      | b1 :: r1 =>
          if between 128 191 b1
          then push ((n0 - 192) * 64 + low6 b1) (decode r1)
          else Raise UnicodeDecodeError
      | _ => Raise UnicodeDecodeError
      end
    else if between 224 239 b0 then
      match r0 with
      | b1 :: b2 :: r2 =>
          let lo1 := if n0 =? 224 then 160 else 128 in
          let hi1 := if n0 =? 237 then 159 else 191 in
          if between lo1 hi1 b1 && between 128 191 b2
          then push ((n0 - 224) * 4096 + low6 b1 * 64 + low6 b2) (decode r2)
          else Raise UnicodeDecodeError
      | _ => Raise UnicodeDecodeError
      end
    else if between 240 244 b0 then
      match r0 with
      | b1 :: b2 :: b3 :: r3 =>
          let lo1 := if n0 =? 240 then 144 else 128 in
          let hi1 := if n0 =? 244 then 143 else 191 in
          if between lo1 hi1 b1 && between 128 191 b2 && between 128 191 b3
          then push ((n0 - 240) * 262144 + low6 b1 * 4096
                     + low6 b2 * 64 + low6 b3) (decode r3)
          else Raise UnicodeDecodeError
      | _ => Raise UnicodeDecodeError
      end
    else Raise UnicodeDecodeError
  end.

End Utf8.

(** ** The json module: dumps and loads with their default arguments *)

Module Json.

Local Open Scope N_scope.

(** The Python values that travel in message dictionaries; [PDatetime]
    is there because the orchestrator stores [datetime] objects in its
    registry. *)
Inductive pyval : Type :=
| PNone
| PBool (b : bool)
| PInt (z : Z)
| PFloat (f : PyFloat.float_text)
| PStr (s : pystr)
| PList (l : list pyval)
| PDict (d : list (pystr * pyval))
| PDatetime (t : DateTime.datetime).

(** The values that [json.dumps] writes and [json.loads] rebuilds: text
    that is well-formed Unicode, floats that are floats, dictionaries
    without a repeated key, and nothing that [json.dumps] refuses.  The
    float NaN is one of them: it is written and read as NaN, but
    Python's [==] never holds between two NaN; see [nan_free]. *)
Fixpoint valid (v : pyval) : bool :=
  match v with
  | PNone | PBool _ | PInt _ => true
  | PFloat f => PyFloat.ok f
  | PStr s => wf s
  | PList l => forallb valid l
  | PDict d =>
      forallb (fun kv => wf (fst kv) && valid (snd kv)) d && Dict.distinct d
  | PDatetime _ => false
  end.

(** [v == w] holds in Python between two values built alike unless a
    NaN occurs in them ([float('nan') == float('nan')] is False, and a
    list or a dictionary holding one is not equal to its rebuilt copy). *)
Fixpoint nan_free (v : pyval) : bool :=
  match v with
  | PFloat PyFloat.NaN => false
  | PList l => forallb nan_free l
  | PDict d => forallb (fun kv => nan_free (snd kv)) d
  | _ => true
  end.

(** The number of values in a value, counting each element of a list or
    dictionary once more. *)
Fixpoint size (v : pyval) : nat :=
  match v with
  | PList l => S (fold_right (fun x n => S (size x + n)) O l)
  | PDict d => S (fold_right (fun kv n => S (size (snd kv) + n)) O d)
  | _ => 1
  end.

(** *** dumps *)

(** ["0123456789abcdef"[n]] *)
Definition hex_digit (n : N) : codepoint :=
  if n <? 10 then 48 + n else 87 + n.

Definition hex4 (c : N) : pystr :=
  [hex_digit (N.land (N.shiftr c 12) 15);
   hex_digit (N.land (N.shiftr c 8) 15);
   hex_digit (N.land (N.shiftr c 4) 15);
   hex_digit (N.land c 15)].

Definition high_surrogate (c : N) : N := 55296 - 64 + N.shiftr c 10.
Definition low_surrogate (c : N) : N := 56320 + N.land c 1023.

(** [ascii_escape_unichar] of the C encoder ([ensure_ascii=True]). *)
Definition escape_char (c : codepoint) : pystr :=
  if (32 <=? c) && (c <=? 126) && negb (c =? 92) && negb (c =? 34)
  then [c]
  else
    92 ::
    (if c =? 92 then [92]
     else if c =? 34 then [34]
     else if c =? 8 then [98]
     else if c =? 12 then [102]
     else if c =? 10 then [110]
     else if c =? 13 then [114]
     else if c =? 9 then [116]
     else if 65536 <=? c then
       117 :: hex4 (high_surrogate c) ++ 92 :: 117 :: hex4 (low_surrogate c)
     else 117 :: hex4 c)%list.

Definition encode_basestring_ascii (s : pystr) : pystr :=
  (34 :: flat_map escape_char s ++ [34])%list.

Definition map_outcome {A B} (f : A -> outcome B) : list A -> outcome (list B) :=
  fix go (l : list A) : outcome (list B) :=
    match l with
    | [] => Return []
    | x :: l' =>
        obind (f x) (fun y => obind (go l') (fun ys => Return (y :: ys)))
    end.

(** [sep.join(parts)] *)
Fixpoint join (sep : pystr) (parts : list pystr) : pystr :=
  match parts with
  | [] => []
  | [p] => p
  | p :: rest => (p ++ sep ++ join sep rest)%list
  end.

(** [json.dumps(v)]: separators [', '] and [': '], insertion order,
    [TypeError] for an object that is not JSON serializable. *)
Fixpoint dumps (v : pyval) : outcome pystr :=
  match v with
  | PNone => Return (lit "null")
  | PBool true => Return (lit "true")
  | PBool false => Return (lit "false")
  | PInt z => Return (int_repr z)
  | PFloat f => Return (PyFloat.repr f)
  | PStr s => Return (encode_basestring_ascii s)
  | PList l =>
      obind (map_outcome dumps l) (fun parts =>
      Return (91 :: join (lit ", ") parts ++ [93])%list)
  | PDict d =>
      obind (map_outcome
               (fun kv =>
                  obind (dumps (snd kv)) (fun t =>
                  Return (encode_basestring_ascii (fst kv) ++ lit ": " ++ t)%list))
               d) (fun parts =>
      Return (123 :: join (lit ", ") parts ++ [125])%list)
  | PDatetime _ => Raise TypeError
  end.

(** *** loads (the C scanner, [strict=True]) *)

Definition is_ws (c : codepoint) : bool :=
  (c =? 32) || (c =? 9) || (c =? 10) || (c =? 13).

Fixpoint skip_ws (s : pystr) : pystr :=
  match s with
  | c :: s' => if is_ws c then skip_ws s' else s
  | [] => []
  end.

Definition hex_val (c : codepoint) : option N :=
  if (48 <=? c) && (c <=? 57) then Some (c - 48)
  else if (97 <=? c) && (c <=? 102) then Some (c - 87)
  else if (65 <=? c) && (c <=? 70) then Some (c - 55)
  else None.

(** Four hex digits: [c <<= 4; c |= digit] for each. *)
Definition hex4_val (h1 h2 h3 h4 : codepoint) : option N :=
  match hex_val h1, hex_val h2, hex_val h3, hex_val h4 with
  | Some a, Some b, Some c, Some d =>
      Some (N.lor (N.shiftl (N.lor (N.shiftl (N.lor (N.shiftl a 4) b) 4) c) 4) d)
  | _, _, _, _ => None
  end.

Definition is_high_surrogate (c : N) : bool := (55296 <=? c) && (c <=? 56319).
Definition is_low_surrogate (c : N) : bool := (56320 <=? c) && (c <=? 57343).

Definition join_surrogates (hi lo : N) : N :=
  65536 + N.lor (N.shiftl (N.land hi 1023) 10) (N.land lo 1023).

Definition unescape (e : codepoint) : option codepoint :=
  if e =? 34 then Some 34
  else if e =? 92 then Some 92
  else if e =? 47 then Some 47
  else if e =? 98 then Some 8
  else if e =? 102 then Some 12
  else if e =? 110 then Some 10
  else if e =? 114 then Some 13
  else if e =? 116 then Some 9
  else None.

Definition cons_char (c : codepoint) (o : outcome (pystr * pystr))
  : outcome (pystr * pystr) :=
  obind o (fun p => Return (c :: fst p, snd p)).

(** [scanstring] from just after the opening quote: the string and the
    text after its closing quote. *)
Fixpoint scanstring (s : pystr) : outcome (pystr * pystr) :=
  match s with
  | [] => Raise JSONDecodeError
  | c :: s1 =>
    if c =? 34 then Return ([], s1)
    else if c =? 92 then
      match s1 with
      | [] => Raise JSONDecodeError
      | e :: s2 =>
        if e =? 117 then
          match s2 with
          | h1 :: h2 :: h3 :: h4 :: s3 =>
            match hex4_val h1 h2 h3 h4 with
            | None => Raise JSONDecodeError
            | Some u =>
              if is_high_surrogate u then
                match s3 with
                | b :: u' :: g1 :: g2 :: g3 :: g4 :: s4 =>
                  if (b =? 92) && (u' =? 117) then
                    match hex4_val g1 g2 g3 g4 with
                    | None => Raise JSONDecodeError
                    | Some u2 =>
                      if is_low_surrogate u2
                      then cons_char (join_surrogates u u2) (scanstring s4)
                      else cons_char u (scanstring s3)
                    end
                  else cons_char u (scanstring s3)
                | _ => cons_char u (scanstring s3)
                end
              else cons_char u (scanstring s3)
            end
          | _ => Raise JSONDecodeError
          end
        else
          match unescape e with
          | Some c' => cons_char c' (scanstring s2)
          | None => Raise JSONDecodeError
          end
      end
    else if c <=? 31 then Raise JSONDecodeError
    else cons_char c (scanstring s1)
  end.

Fixpoint span_digits (s : pystr) : pystr * pystr :=
  match s with
  | c :: s' =>
      if PyFloat.is_digit c
      then let '(ds, r) := span_digits s' in (c :: ds, r)
      else ([], s)
  | [] => ([], [])
  end.

(** [int(text)] for a run of decimal digits. *)
Definition digits_value (ds : pystr) : N :=
  fold_left (fun acc c => 10 * acc + (c - 48)) ds 0.

(** The pieces of [_match_number_unicode]. *)
Definition lex_sign (s : pystr) : bool * pystr :=
  match s with
  | c :: s' => if c =? 45 then (true, s') else (false, s)
  | [] => (false, s)
  end.

(** One digit 1-9 and the digits after it, or a single 0. *)
Definition lex_int (s : pystr) : option (pystr * pystr) :=
  match s with
  | [] => None
  | d :: s' =>
      if (49 <=? d) && (d <=? 57)
      then let '(ds, r) := span_digits s' in Some (d :: ds, r)
      else if d =? 48 then Some ([48], s')
      else None
  end.

(** A point followed by a digit starts a fraction. *)
Definition lex_frac (s : pystr) : pystr * pystr :=
  match s with
  | dot :: f :: r =>
      if (dot =? 46) && PyFloat.is_digit f
      then let '(fs, r') := span_digits r in (f :: fs, r')
      else ([], s)
  | _ => ([], s)
  end.

(** [e] or [E], a sign or none, and at least one digit; or nothing. *)
Definition lex_exp (s : pystr)
  : option (bool * PyFloat.exp_sign * pystr) * pystr :=
  match s with
  | e :: a =>
      if (e =? 101) || (e =? 69) then
        let '(sg, b) :=
          match a with
          | c :: a' =>
              if c =? 45 then (PyFloat.Minus, a')
              else if c =? 43 then (PyFloat.Plus, a')
              else (PyFloat.NoSign, a)
          | [] => (PyFloat.NoSign, a)
          end in
        let '(ds, r) := span_digits b in
        match ds with
        | [] => (None, s)
        | _ :: _ => (Some (e =? 69, sg, ds), r)
        end
      else (None, s)
  | [] => (None, s)
  end.

(** [_match_number_unicode]: None when no number starts here. *)
Definition match_number (s : pystr) : option (pyval * pystr) :=
  let '(neg, s1) := lex_sign s in
  match lex_int s1 with
  | None => None
  | Some (ip, r) =>
      let '(frac, r1) := lex_frac r in
      let '(ex, r2) := lex_exp r1 in
      match frac, ex with
      | [], None =>
          let n := Z.of_N (digits_value ip) in
          Some (PInt (if neg then (- n)%Z else n), r2)
      | _, _ =>
          Some (PFloat (PyFloat.Dec
                          {| PyFloat.negative := neg;
                             PyFloat.int_part := digits_value ip;
                             PyFloat.frac_part := frac;
                             PyFloat.exp_part := ex |}), r2)
      end
  end.

Definition keyword (kw : string) (v : pyval) (s : pystr)
  : option (pyval * pystr) :=
  match strip_prefix (lit kw) s with
  | Some r => Some (v, r)
  | None => None
  end.

Definition or_else {A} (a b : option A) : option A :=
  match a with Some _ => a | None => b end.

(** The constants and the numbers of [scan_once]. *)
Definition scan_atom (s : pystr) : outcome (pyval * pystr) :=
  match
    or_else (keyword "null" PNone s)
   (or_else (keyword "true" (PBool true) s)
   (or_else (keyword "false" (PBool false) s)
   (or_else (keyword "NaN" (PFloat PyFloat.NaN) s)
   (or_else (keyword "Infinity" (PFloat PyFloat.Infinity) s)
   (or_else (keyword "-Infinity" (PFloat PyFloat.NegInfinity) s)
            (match_number s))))))
  with
  | Some r => Return r
  | None => Raise JSONDecodeError
  end.

(** [scan_once] with [_parse_array] and [_parse_object].  [fuel] bounds
    the calls: a value costs one, and a list or a dictionary one more
    for each of its elements, so that a text never needs more than two
    for each of its characters, which is what [loads] gives. *)
Fixpoint scan_once (fuel : nat) (s : pystr) {struct fuel}
  : outcome (pyval * pystr) :=
  match fuel with
  | O => Raise RuntimeError
  | S fuel' =>
    match s with
    | [] => Raise JSONDecodeError
    | c :: s' =>
      if c =? 34 then
        obind (scanstring s') (fun p => Return (PStr (fst p), snd p))
      else if c =? 123 then
        match skip_ws s' with
        | c1 :: r1 =>
            if c1 =? 125 then Return (PDict [], r1)
            else obind (parse_members fuel' (c1 :: r1)) (fun p =>
                 Return (PDict (Dict.of_pairs (fst p)), snd p))
        | [] => Raise JSONDecodeError
        end
      else if c =? 91 then
        match skip_ws s' with
        | c1 :: r1 =>
            if c1 =? 93 then Return (PList [], r1)
            else obind (parse_items fuel' (c1 :: r1)) (fun p =>
                 Return (PList (fst p), snd p))
        | [] => Raise JSONDecodeError
        end
      else scan_atom s
    end
  end

with parse_items (fuel : nat) (s : pystr) {struct fuel}
  : outcome (list pyval * pystr) :=
  match fuel with
  | O => Raise RuntimeError
  | S fuel' =>
    obind (scan_once fuel' s) (fun p =>
      match skip_ws (snd p) with
      | c :: r =>
          if c =? 93 then Return ([fst p], r)
          else if c =? 44 then
            obind (parse_items fuel' (skip_ws r)) (fun q =>
            Return (fst p :: fst q, snd q))
          else Raise JSONDecodeError
      | [] => Raise JSONDecodeError
      end)
  end

with parse_members (fuel : nat) (s : pystr) {struct fuel}
  : outcome (list (pystr * pyval) * pystr) :=
  match fuel with
  | O => Raise RuntimeError
  | S fuel' =>
    match s with
    | q :: s1 =>
      if q =? 34 then
        obind (scanstring s1) (fun k =>
          match skip_ws (snd k) with
          | colon :: s2 =>
            if colon =? 58 then
              obind (scan_once fuel' (skip_ws s2)) (fun p =>
                match skip_ws (snd p) with
                | c :: r =>
                    if c =? 125 then Return ([(fst k, fst p)], r)
                    else if c =? 44 then
                      obind (parse_members fuel' (skip_ws r)) (fun m =>
                      Return ((fst k, fst p) :: fst m, snd m))
                    else Raise JSONDecodeError
                | [] => Raise JSONDecodeError
                end)
            else Raise JSONDecodeError
          | [] => Raise JSONDecodeError
          end)
      else Raise JSONDecodeError
    | [] => Raise JSONDecodeError
    end
  end.

(** [text.startswith('﻿')] *)
Definition has_bom (text : pystr) : bool :=
  match text with c :: _ => c =? 65279 | [] => false end.

(** [json.loads(text)] for a [str] argument. *)
Definition loads (text : pystr) : outcome pyval :=
  if has_bom text then Raise JSONDecodeError
  else
    obind (scan_once (S (2 * List.length text)) (skip_ws text)) (fun p =>
      match skip_ws (snd p) with
      | [] => Return (fst p)
      | _ :: _ => Raise JSONDecodeError
      end).

(** [json.dumps(v).encode()] and [json.loads(body.decode())] *)
Definition encode (v : pyval) : outcome Utf8.bytes :=
  obind (dumps v) Utf8.encode.

Definition decode (body : Utf8.bytes) : outcome pyval :=
  obind (Utf8.decode body) loads.

(** [v == 'literal'] *)
Definition is_str (v : pyval) (s : pystr) : bool :=
  match v with PStr x => PyStr.eqb x s | _ => false end.

(** [d.get(k, default)] on a value that may not be a dict. *)
Definition get (v : pyval) (k : pystr) (default : pyval) : outcome pyval :=
  match v with
  | PDict d =>
      Return (match Dict.get d k with Some x => x | None => default end)
  | _ => Raise AttributeError
  end.

End Json.

Import Json.

(** ** The world of a running process: clock, logger, broker connection *)

Inductive level : Type := DEBUG | INFO | WARNING | ERROR.

(** One constructor per logging call of the three source files; the
    f-string arguments are kept as data. *)
Inductive log_msg : Type :=
(* orchestrator.py *)
| OrchestratorInitialised
| SystemStarting
| SystemStarted
| SystemStartError (e : exn)
| ConnectingToBroker
| ConnectedToBroker
| BrokerConnectionError (e : exn)
| MainLoopStarting
| MainLoopError (e : exn)
| SignalReceived (signum : Z)
| MonitoringStarting
| AgentConnected (agent_source : pyval)
| AgentDisconnected (agent_source : pyval)
| EventReceived (event_type agent_source : pyval)
| MessageProcessingError (e : exn)
| AwaitingAgent (agent_name : pystr)
| AgentNotResponding (agent_name : pystr) (silence_us : Z)
| StatsPublishError (e : exn)
| EventPublishError (e : exn)
| DistributedTask (task_type : pyval)
| DistributedTaskError (e : exn)
| TaskSent (agent_name : pystr) (task_type : pyval)
| TaskSendError (agent_name : pystr) (e : exn)
| OrchestratorStopping
| OrchestratorStopped
(* base_agent.py *)
| AgentInitialised (agent_name : pystr)
| AgentStarting (agent_name : pystr)
| AgentStarted (agent_name : pystr)
| AgentConsuming (agent_name : pystr)
| MessageReceived (message_data : pyval)
| JsonDecodeFailed (e : exn)
| MessageHandlingFailed (e : exn)
| MessagePublished (event_type : pystr)
| MessageData (message_data : pyval)
| DirectMessageSent (target_agent : pystr)
| AgentStopping (agent_name : pystr)
| AgentStopped (agent_name : pystr)
| AgentBrokerConnected
| AgentBrokerConnectionError (e : exn)
(* photo_agent/agent.py *)
| ProcessingEvent (event_type : pyval)
| EventNotHandled (event_type : pyval)
| OrganizationDone (result : pyval)
| ProcessingDone (result : pyval)
| ClientFolderCreated (client_name : pyval)
| SessionFolderCreated (folder_name : pyval).

(** What [message.process()] does with a consumed message on exit. *)
Inductive settlement : Type := Ack | Reject.

Record Delivery : Type := {
  exchange_name : pystr;      (* 'jarvis.events', or '' for the default exchange *)
  routing_key : pystr;
  body : Utf8.bytes
}.

Record World : Type := {
  clock : nat -> DateTime.datetime;   (* the n-th reading of datetime.now() *)
  ticks : nat;
  reachable : bool;                   (* does connect(url) reach the broker *)
  is_closed : bool;                   (* connection.is_closed *)
  accepts : nat -> bool;              (* does the broker take the n-th publish *)
  publishes : nat;
  delivered : list Delivery;          (* messages the broker took, oldest first *)
  settled : list settlement;          (* consumed messages, oldest first *)
  logged : list (level * log_msg)     (* logger calls, oldest first *)
}.

Definition tick (w : World) : World :=
  {| clock := clock w; ticks := S (ticks w); reachable := reachable w;
     is_closed := is_closed w; accepts := accepts w; publishes := publishes w;
     delivered := delivered w; settled := settled w; logged := logged w |}.

Definition add_log (r : level * log_msg) (w : World) : World :=
  {| clock := clock w; ticks := ticks w; reachable := reachable w;
     is_closed := is_closed w; accepts := accepts w; publishes := publishes w;
     delivered := delivered w; settled := settled w;
     logged := logged w ++ [r] |}.

Definition set_closed (c : bool) (w : World) : World :=
  {| clock := clock w; ticks := ticks w; reachable := reachable w;
     is_closed := c; accepts := accepts w; publishes := publishes w;
     delivered := delivered w; settled := settled w; logged := logged w |}.

Definition add_settled (x : settlement) (w : World) : World :=
  {| clock := clock w; ticks := ticks w; reachable := reachable w;
     is_closed := is_closed w; accepts := accepts w; publishes := publishes w;
     delivered := delivered w; settled := settled w ++ [x];
     logged := logged w |}.

(** One publish attempt on an open connection. *)
Definition attempt (d : Delivery) (w : World) : World :=
  {| clock := clock w; ticks := ticks w; reachable := reachable w;
     is_closed := is_closed w; accepts := accepts w;
     publishes := S (publishes w);
     delivered := if accepts w (publishes w) then delivered w ++ [d]
                  else delivered w;
     settled := settled w; logged := logged w |}.

Class HasWorld (S : Type) : Type := {
  world : S -> World;
  with_world : World -> S -> S
}.

(** *** Coroutines: state passing with exceptions; the state reached when
    an exception is raised is kept, as in Python. *)

Module Co.

Definition M (S A : Type) : Type := S -> outcome A * S.

Definition ret {S A} (a : A) : M S A := fun s => (Return a, s).

Definition raise {S A} (e : exn) : M S A := fun s => (Raise e, s).

Definition bind {S A B} (m : M S A) (k : A -> M S B) : M S B :=
  fun s =>
    match m s with
    | (Return a, s') => k a s'
    | (Raise e, s') => (Raise e, s')
    end.

(** [try: m  except Exception as e: h e] *)
Definition try_except {S A} (m : M S A) (h : exn -> M S A) : M S A :=
  fun s =>
    match m s with
    | (Return a, s') => (Return a, s')
    | (Raise e, s') => h e s'
    end.

Definition lift {S A} (o : outcome A) : M S A := fun s => (o, s).
Definition gets {S A} (f : S -> A) : M S A := fun s => (Return (f s), s).
Definition modify {S} (f : S -> S) : M S unit := fun s => (Return tt, f s).

Fixpoint for_each {S A} (l : list A) (f : A -> M S unit) : M S unit :=
  match l with
  | [] => ret tt
  | x :: l' => bind (f x) (fun _ => for_each l' f)
  end.

Definition exec {S A} (m : M S A) (s : S) : S := snd (m s).
Definition result {S A} (m : M S A) (s : S) : outcome A := fst (m s).

End Co.

Import Co.

Declare Scope co_scope.
Delimit Scope co_scope with co.
Notation "x <- m ;; k" := (bind m (fun x => k))
  (at level 61, m at next level, right associativity) : co_scope.
Notation "m ;; k" := (bind m (fun _ => k))
  (at level 61, right associativity) : co_scope.
Local Open Scope co_scope.

(** A routing key is an AMQP short string: the library encodes it and
    raises [ValueError] when it is longer than 255 bytes. *)
Definition check_routing_key (rk : pystr) : outcome unit :=
  obind (Utf8.encode rk) (fun bs =>
    if (255 <? N.of_nat (List.length bs))%N then Raise ValueError
    else Return tt).

Section WorldOps.

Context {S : Type} `{HasWorld S}.

Definition on_world (f : World -> World) : M S unit :=
  modify (fun s => with_world (f (world s)) s).

(** [datetime.now()] *)
Definition now : M S DateTime.datetime :=
  t <- gets (fun s => clock (world s) (ticks (world s))) ;;
  on_world tick ;;
  ret t.

(** [self.logger.<level>(msg)] *)
Definition log (lv : level) (msg : log_msg) : M S unit :=
  on_world (add_log (lv, msg)).

(** [await <exchange>.publish(Message(body), routing_key=rk)]: raises on
    a closed connection, on a routing key the library refuses (nothing
    is sent then) and when the broker refuses the message. *)
Definition publish (ex rk : pystr) (b : Utf8.bytes) : M S unit :=
  w <- gets world ;;
  if is_closed w then raise ChannelInvalidStateError
  else
    lift (check_routing_key rk) ;;
    on_world (attempt {| exchange_name := ex; routing_key := rk; body := b |}) ;;
    if accepts w (publishes w) then ret tt else raise DeliveryError.

(** [await connect(url)] with the declarations that follow it. *)
Definition connect : M S unit :=
  w <- gets world ;;
  if reachable w then on_world (set_closed false)
  else raise AMQPConnectionError.

(** [await self.connection.close()] *)
Definition connection_close : M S unit := on_world (set_closed true).

Definition settle (x : settlement) : M S unit := on_world (add_settled x).

(** [async with message.process(): m] acknowledges the message when [m]
    returns; when [m] raises, the message is rejected and the exception
    goes on. *)
Definition process (m : M S unit) : M S unit :=
  fun s =>
    match m s with
    | (Return _, s') => settle Ack s'
    | (Raise e, s') => (Raise e, snd (settle Reject s'))
    end.

End WorldOps.

(** ** orchestrator.py *)

Module Orchestrator.

Inductive Status : Type := expected | online | offline | unresponsive.

Definition status_eqb (a b : Status) : bool :=
  match a, b with
  | expected, expected | online, online
  | offline, offline | unresponsive, unresponsive => true
  | _, _ => false
  end.

Definition status_str (s : Status) : pystr :=
  match s with
  | expected => lit "expected"
  | online => lit "online"
  | offline => lit "offline"
  | unresponsive => lit "unresponsive"
  end.

(** The dictionary stored in [self.agents] for each agent. *)
Record AgentInfo : Type := {
  status : Status;
  last_seen : option DateTime.datetime;
  messages_received : Z;
  errors : Z
}.

Definition set_status (x : Status) (a : AgentInfo) : AgentInfo :=
  {| status := x; last_seen := last_seen a;
     messages_received := messages_received a; errors := errors a |}.

Definition set_last_seen (t : option DateTime.datetime) (a : AgentInfo)
  : AgentInfo :=
  {| status := status a; last_seen := t;
     messages_received := messages_received a; errors := errors a |}.

Definition incr_messages_received (a : AgentInfo) : AgentInfo :=
  {| status := status a; last_seen := last_seen a;
     messages_received := (messages_received a + 1)%Z; errors := errors a |}.

Inductive SystemStatus : Type :=
  starting | running | error | stopping | stopped.

Definition system_status_str (s : SystemStatus) : pystr :=
  match s with
  | starting => lit "starting"
  | running => lit "running"
  | error => lit "error"
  | stopping => lit "stopping"
  | stopped => lit "stopped"
  end.

(** The attributes of a [JarvisOrchestrator]; an attribute holding a
    broker object is [true] once assigned ([None] before), and [env] is
    the world the process runs in. *)
Record JarvisOrchestrator : Type := {
  agents : Dict.dict AgentInfo;
  system_status : SystemStatus;
  start_time : DateTime.datetime;
  connection : bool;
  channel : bool;
  exchange : bool;
  management_queue : bool;
  shutdown_requested : bool;
  expected_agents : list pystr;
  env : World
}.

Definition set_agents (x : Dict.dict AgentInfo) (o : JarvisOrchestrator) :=
  {| agents := x; system_status := system_status o;
     start_time := start_time o; connection := connection o;
     channel := channel o; exchange := exchange o;
     management_queue := management_queue o;
     shutdown_requested := shutdown_requested o;
     expected_agents := expected_agents o; env := env o |}.

Definition set_system_status (x : SystemStatus) (o : JarvisOrchestrator) :=
  {| agents := agents o; system_status := x;
     start_time := start_time o; connection := connection o;
     channel := channel o; exchange := exchange o;
     management_queue := management_queue o;
     shutdown_requested := shutdown_requested o;
     expected_agents := expected_agents o; env := env o |}.

Definition set_connected (o : JarvisOrchestrator) :=
  {| agents := agents o; system_status := system_status o;
     start_time := start_time o; connection := true;
     channel := true; exchange := true;
     management_queue := true;
     shutdown_requested := shutdown_requested o;
     expected_agents := expected_agents o; env := env o |}.

Definition set_shutdown_requested (x : bool) (o : JarvisOrchestrator) :=
  {| agents := agents o; system_status := system_status o;
     start_time := start_time o; connection := connection o;
     channel := channel o; exchange := exchange o;
     management_queue := management_queue o;
     shutdown_requested := x;
     expected_agents := expected_agents o; env := env o |}.

Definition set_expected_agents (x : list pystr) (o : JarvisOrchestrator) :=
  {| agents := agents o; system_status := system_status o;
     start_time := start_time o; connection := connection o;
     channel := channel o; exchange := exchange o;
     management_queue := management_queue o;
     shutdown_requested := shutdown_requested o;
     expected_agents := x; env := env o |}.

Definition set_env (w : World) (o : JarvisOrchestrator) :=
  {| agents := agents o; system_status := system_status o;
     start_time := start_time o; connection := connection o;
     channel := channel o; exchange := exchange o;
     management_queue := management_queue o;
     shutdown_requested := shutdown_requested o;
     expected_agents := expected_agents o; env := w |}.

#[export] Instance orchestrator_world : HasWorld JarvisOrchestrator :=
  {| world := env; with_world := set_env |}.

Definition Task (A : Type) : Type := M JarvisOrchestrator A.

(** [JarvisOrchestrator()] in a given world. *)
Definition __init__ (w : World) : JarvisOrchestrator :=
  exec (log INFO OrchestratorInitialised)
    {| agents := []; system_status := starting;
       start_time := clock w (ticks w);
       connection := false; channel := false; exchange := false;
       management_queue := false; shutdown_requested := false;
       expected_agents :=
         [lit "photo-agent"; lit "marketing-agent"; lit "social-media-agent";
          lit "crm-agent"; lit "calendar-agent"; lit "finance-agent";
          lit "task-agent"];
       env := tick w |}.

Definition _connect_to_rabbitmq : Task unit :=
  try_except
    (log INFO ConnectingToBroker ;;
     connect ;;
     modify set_connected ;;
     log INFO ConnectedToBroker)
    (fun e => log ERROR (BrokerConnectionError e) ;; raise e).

Definition fresh_agent : AgentInfo :=
  {| status := expected; last_seen := None;
     messages_received := 0; errors := 0 |}.

Definition _start_agent_monitoring : Task unit :=
  log INFO MonitoringStarting ;;
  q <- gets management_queue ;;
  (if q then ret tt else raise AttributeError) ;;
  names <- gets expected_agents ;;
  for_each names (fun agent_name =>
    modify (fun o => set_agents (Dict.set (agents o) agent_name fresh_agent) o)).

(** [agent_source in self.agents]: lists and dicts are unhashable. *)
Definition contains (d : Dict.dict AgentInfo) (v : pyval) : outcome (option pystr) :=
  match v with
  | PStr k => Return (if Dict.mem d k then Some k else None)
  | PList _ | PDict _ => Raise TypeError
  | _ => Return None
  end.

Definition alter_agent (k : pystr) (f : AgentInfo -> AgentInfo) : Task unit :=
  modify (fun o => set_agents (Dict.alter f (agents o) k) o).

Definition _handle_agent_message (message_body : Utf8.bytes) : Task unit :=
  process
    (try_except
       (message_data <- lift (Json.decode message_body) ;;
        event_type <- lift (Json.get message_data (lit "event_type") (PStr [])) ;;
        agent_source <- lift (Json.get message_data (lit "agent_source") (PStr [])) ;;
        known <- (d <- gets agents ;; lift (contains d agent_source)) ;;
        match known with
        | Some k =>
            t <- now ;;
            alter_agent k (set_last_seen (Some t)) ;;
            alter_agent k incr_messages_received ;;
            if is_str event_type (lit "agent.started") then
              alter_agent k (set_status online) ;;
              log INFO (AgentConnected agent_source)
            else if is_str event_type (lit "agent.stopped") then
              alter_agent k (set_status offline) ;;
              log INFO (AgentDisconnected agent_source)
            else ret tt
        | None => ret tt
        end ;;
        if is_str event_type (lit "agent.started")
           || is_str event_type (lit "agent.stopped")
           || is_str event_type (lit "system.error")
        then log INFO (EventReceived event_type agent_source)
        else ret tt)
       (fun e => log ERROR (MessageProcessingError e))).

Definition _publish_system_event (event_type : pystr) (data : pyval)
  : Task unit :=
  try_except
    (ex <- gets exchange ;;
     if negb ex then ret tt
     else
       t <- now ;;
       let message_data :=
         PDict [(lit "event_type", PStr event_type);
                (lit "agent_source", PStr (lit "orchestrator"));
                (lit "timestamp", PStr (DateTime.isoformat t));
                (lit "data", data)] in
       message_body <- lift (Json.encode message_data) ;;
       publish (lit "jarvis.events") [] message_body)
    (fun e => log ERROR (EventPublishError e)).

(** One turn of the loop of [_check_agent_health]. *)
Definition check_agent (current_time : DateTime.datetime) (agent_name : pystr)
  : Task unit :=
  entry <- gets (fun o => Dict.get (agents o) agent_name) ;;
  match entry with
  | None => ret tt
  | Some agent_info =>
    match last_seen agent_info with
    | None =>
        if negb (status_eqb (status agent_info) expected) then
          alter_agent agent_name (set_status expected) ;;
          log WARNING (AwaitingAgent agent_name)
        else ret tt
    | Some seen =>
        let silence_time := DateTime.timedelta current_time seen in
        if DateTime.total_seconds_gt silence_time 300 then
          if negb (status_eqb (status agent_info) unresponsive) then
            alter_agent agent_name (set_status unresponsive) ;;
            log WARNING (AgentNotResponding agent_name silence_time) ;;
            _publish_system_event (lit "agent.unresponsive")
              (PDict [(lit "agent_name", PStr agent_name);
                      (lit "silence_duration",
                       PFloat (DateTime.total_seconds silence_time))])
          else ret tt
        else ret tt
    end
  end.

Definition _check_agent_health : Task unit :=
  current_time <- now ;;
  names <- gets (fun o => Dict.keys (agents o)) ;;
  for_each names (check_agent current_time).

Definition agent_info_value (a : AgentInfo) : pyval :=
  PDict [(lit "status", PStr (status_str (status a)));
         (lit "last_seen",
          match last_seen a with Some t => PDatetime t | None => PNone end);
         (lit "messages_received", PInt (messages_received a));
         (lit "errors", PInt (errors a))].

Definition count_status (x : Status) (d : Dict.dict AgentInfo) : Z :=
  Z.of_nat (List.length
              (filter (fun a => status_eqb (status a) x) (Dict.values d))).

Definition _publish_system_stats : Task unit :=
  try_except
    (t <- now ;;
     o <- gets (fun o => o) ;;
     let uptime := DateTime.timedelta t (start_time o) in
     stamp <- now ;;
     let stats :=
       PDict [(lit "system_status", PStr (system_status_str (system_status o)));
              (lit "uptime_seconds", PFloat (DateTime.total_seconds uptime));
              (lit "agents",
               PDict (map (fun kv => (fst kv, agent_info_value (snd kv)))
                          (agents o)));
              (lit "agents_online", PInt (count_status online (agents o)));
              (lit "agents_expected",
               PInt (Z.of_nat (List.length (expected_agents o))));
              (lit "timestamp", PStr (DateTime.isoformat stamp))] in
     _publish_system_event (lit "system.stats") stats)
    (fun e => log ERROR (StatsPublishError e)).

(** The body of the [while] of [_main_loop]. *)
Definition main_loop_turn : Task unit :=
  try_except
    (_check_agent_health ;; _publish_system_stats)
    (fun e => log ERROR (MainLoopError e)).

Definition _send_task_to_agent (agent_name : pystr) (task_data : pyval)
  : Task unit :=
  try_except
    (ch <- gets channel ;;
     if negb ch then ret tt
     else
       t <- now ;;
       let message_data :=
         PDict [(lit "type", PStr (lit "task_request"));
                (lit "from", PStr (lit "orchestrator"));
                (lit "to", PStr agent_name);
                (lit "timestamp", PStr (DateTime.isoformat t));
                (lit "task", task_data)] in
       message_body <- lift (Json.encode message_data) ;;
       publish [] (agent_name ++ lit ".queue") message_body ;;
       task_type <- lift (Json.get task_data (lit "type") (PStr (lit "unknown"))) ;;
       log DEBUG (TaskSent agent_name task_type))
    (fun e => log ERROR (TaskSendError agent_name e)).

(** The dictionary a workflow returns: ['status'] is ['initiated'] or
    ['error']; the ['message'] of an error is an f-string over the data
    kept here. *)
Inductive task_result : Type :=
| Initiated (workflow_id : option pystr) (message : pystr)
| UnknownTaskType (task_type : pyval)
| Failed (e : exn).

Definition result_status (r : task_result) : pystr :=
  match r with
  | Initiated _ _ => lit "initiated"
  | UnknownTaskType _ | Failed _ => lit "error"
  end.

Definition _execute_photo_workflow (task_data : pyval) : Task task_result :=
  t <- now ;;
  let workflow_id := (lit "workflow_" ++ DateTime.strftime_compact t)%list in
  path <- lift (Json.get task_data (lit "photo_path") (PStr (lit "/app/photos"))) ;;
  _send_task_to_agent (lit "photo-agent")
    (PDict [(lit "type", PStr (lit "organize_photos"));
            (lit "path", path);
            (lit "workflow_id", PStr workflow_id)]) ;;
  _send_task_to_agent (lit "marketing-agent")
    (PDict [(lit "type", PStr (lit "suggest_content"));
            (lit "context", PDict [(lit "photos_processed", PBool true)]);
            (lit "workflow_id", PStr workflow_id)]) ;;
  _send_task_to_agent (lit "social-media-agent")
    (PDict [(lit "type", PStr (lit "schedule_posts"));
            (lit "workflow_id", PStr workflow_id)]) ;;
  ret (Initiated (Some workflow_id) (lit "Workflow de fotos iniciado")).

Definition _execute_marketing_campaign (task_data : pyval) : Task task_result :=
  campaign_data <- lift (Json.get task_data (lit "campaign_data") (PDict [])) ;;
  _send_task_to_agent (lit "marketing-agent")
    (PDict [(lit "type", PStr (lit "create_campaign"));
            (lit "campaign_data", campaign_data)]) ;;
  _send_task_to_agent (lit "social-media-agent")
    (PDict [(lit "type", PStr (lit "prepare_campaign_posts"));
            (lit "campaign_data", campaign_data)]) ;;
  _send_task_to_agent (lit "crm-agent")
    (PDict [(lit "type", PStr (lit "segment_audience"));
            (lit "campaign_data", campaign_data)]) ;;
  ret (Initiated None (lit "Campanha de marketing iniciada")).

Definition _execute_client_onboarding (task_data : pyval) : Task task_result :=
  client_data <- lift (Json.get task_data (lit "client_data") (PDict [])) ;;
  _send_task_to_agent (lit "crm-agent")
    (PDict [(lit "type", PStr (lit "register_client"));
            (lit "client_data", client_data)]) ;;
  client_name <- lift (Json.get client_data (lit "name") (PStr [])) ;;
  _send_task_to_agent (lit "photo-agent")
    (PDict [(lit "type", PStr (lit "create_client_folder"));
            (lit "client_name", client_name)]) ;;
  _send_task_to_agent (lit "calendar-agent")
    (PDict [(lit "type", PStr (lit "schedule_consultation"));
            (lit "client_data", client_data)]) ;;
  ret (Initiated None (lit "Onboarding de cliente iniciado")).

Definition execute_distributed_task (task_data : pyval) : Task task_result :=
  try_except
    (task_type <- lift (Json.get task_data (lit "type") (PStr [])) ;;
     log INFO (DistributedTask task_type) ;;
     if is_str task_type (lit "complete_photo_workflow") then
       _execute_photo_workflow task_data
     else if is_str task_type (lit "marketing_campaign_launch") then
       _execute_marketing_campaign task_data
     else if is_str task_type (lit "client_onboarding") then
       _execute_client_onboarding task_data
     else ret (UnknownTaskType task_type))
    (fun e => log ERROR (DistributedTaskError e) ;; ret (Failed e)).

Definition _signal_handler (signum : Z) : Task unit :=
  log INFO (SignalReceived signum) ;;
  modify (set_shutdown_requested true).

Definition stop : Task unit :=
  log INFO OrchestratorStopping ;;
  modify (set_system_status stopping) ;;
  t <- now ;;
  _publish_system_event (lit "system.stopping")
    (PDict [(lit "stop_time", PStr (DateTime.isoformat t))]) ;;
  o <- gets (fun o => o) ;;
  (if connection o && negb (is_closed (env o)) then connection_close
   else ret tt) ;;
  modify (set_system_status stopped) ;;
  log INFO OrchestratorStopped.

(** [start] up to the main loop. *)
Definition start_up : Task unit :=
  log INFO SystemStarting ;;
  try_except
    (_connect_to_rabbitmq ;;
     _start_agent_monitoring ;;
     modify (set_system_status running) ;;
     log INFO SystemStarted ;;
     o <- gets (fun o => o) ;;
     _publish_system_event (lit "system.started")
       (PDict [(lit "start_time", PStr (DateTime.isoformat (start_time o)));
               (lit "expected_agents", PList (map PStr (expected_agents o)))]) ;;
     log INFO MainLoopStarting)
    (fun e =>
       log ERROR (SystemStartError e) ;;
       modify (set_system_status error) ;;
       raise e).

(** What happens to a running orchestrator: the main loop wakes up, the
    management queue hands a message over, or a single agent is looked
    at (a sweep interleaved with message handling at its [await]). *)
Inductive event : Type :=
| Sweep
| PublishStats
| Consume (message_body : Utf8.bytes)
| CheckOne (current_time : DateTime.datetime) (agent_name : pystr).

Definition step (ev : event) : Task unit :=
  match ev with
  | Sweep => _check_agent_health
  | PublishStats => _publish_system_stats
  | Consume b => _handle_agent_message b
  | CheckOne t a => check_agent t a
  end.

Definition run (evs : list event) (o : JarvisOrchestrator) : JarvisOrchestrator :=
  fold_left (fun o ev => exec (step ev) o) evs o.

(** [f"{uptime // 3600:.0f}h {(uptime % 3600) // 60:.0f}m"] for an
    uptime of [us] microseconds.  [uptime] is the float nearest to
    [us / 10**6]; its floor division by 3600 and by 60 is that of the
    microseconds while these are below [2**53] (a multiple of 60 seconds
    is a float, and no other whole number of microseconds rounds to it),
    and [.0f] writes a whole float as its integer. *)
Definition uptime_human (us : Z) : pystr :=
  (int_repr (us / 3600000000) ++ lit "h "
   ++ int_repr ((us mod 3600000000) / 60000000) ++ lit "m")%list.

Definition get_system_status : Task pyval :=
  t <- now ;;
  o <- gets (fun o => o) ;;
  let uptime := DateTime.timedelta t (start_time o) in
  stamp <- now ;;
  ret (PDict
         [(lit "system_status", PStr (system_status_str (system_status o)));
          (lit "start_time", PStr (DateTime.isoformat (start_time o)));
          (lit "uptime_seconds", PFloat (DateTime.total_seconds uptime));
          (lit "uptime_human", PStr (uptime_human uptime));
          (lit "agents",
           PDict (map (fun kv => (fst kv, agent_info_value (snd kv)))
                      (agents o)));
          (lit "agents_summary",
           PDict [(lit "total", PInt (Z.of_nat (List.length (expected_agents o))));
                  (lit "online", PInt (count_status online (agents o)));
                  (lit "offline", PInt (count_status offline (agents o)));
                  (lit "unresponsive",
                   PInt (count_status unresponsive (agents o)));
                  (lit "expected", PInt (count_status expected (agents o)))]);
          (lit "timestamp", PStr (DateTime.isoformat stamp))]).

End Orchestrator.

(** ** What the subscribers of the broker see *)

Module Subscriber.

(** [m.get(k, '')], None when [m] is no dictionary. *)
Definition field (m : pyval) (k : pystr) : pyval :=
  match Json.get m k (PStr []) with Return x => x | Raise _ => PNone end.

(** A broadcast that decodes to
    [{event_type: 'agent.unresponsive', data: {agent_name: <name>}}]. *)
Definition is_unresponsive_alarm (agent_name : pystr) (d : Delivery) : bool :=
  PyStr.eqb (exchange_name d) (lit "jarvis.events")
  && match Json.decode (body d) with
     | Return m =>
         is_str (field m (lit "event_type")) (lit "agent.unresponsive")
         && is_str (field (field m (lit "data")) (lit "agent_name")) agent_name
     | Raise _ => false
     end.

Definition alarms (agent_name : pystr) (w : World) : nat :=
  List.length (filter (is_unresponsive_alarm agent_name) (delivered w)).

(** A message body that decodes to
    [{event_type: 'agent.started', agent_source: <name>}]. *)
Definition started_from (agent_name : pystr) (message_body : Utf8.bytes) : bool :=
  match Json.decode message_body with
  | Return m =>
      is_str (field m (lit "event_type")) (lit "agent.started")
      && is_str (field m (lit "agent_source")) agent_name
  | Raise _ => false
  end.

(** A direct message in the queue of [agent_name] that decodes to
    [{type: 'task_request', from: 'orchestrator', to: <agent_name>}]. *)
Definition is_task_request_for (agent_name : pystr) (d : Delivery) : bool :=
  PyStr.eqb (exchange_name d) []
  && PyStr.eqb (routing_key d) (agent_name ++ lit ".queue")
  && match Json.decode (body d) with
     | Return m =>
         is_str (field m (lit "type")) (lit "task_request")
         && is_str (field m (lit "from")) (lit "orchestrator")
         && is_str (field m (lit "to")) agent_name
     | Raise _ => false
     end.

(** The connection is open and the broker takes whatever is published. *)
Definition broker_up (w : World) : Prop :=
  is_closed w = false /\ forall n, accepts w n = true.

End Subscriber.

(** ** agents/base/base_agent.py *)

Module BaseAgent.

(** The calls the runtime and the subclasses make on the two abstract
    methods, oldest first. *)
Inductive invocation : Type :=
| process_message_called (message : pyval)
| execute_task_called (task : pyval).

(** An agent object: the attributes [__init__] sets, the attributes
    [attrs] of the subclass, and the world of the process. *)
Record Agent (X : Type) : Type := {
  agent_name : pystr;
  connection : bool;
  channel : bool;
  exchange : bool;
  queue : bool;
  attrs : X;
  invoked : list invocation;
  env : World
}.

Arguments agent_name {X} _.
Arguments connection {X} _.
Arguments channel {X} _.
Arguments exchange {X} _.
Arguments queue {X} _.
Arguments attrs {X} _.
Arguments invoked {X} _.
Arguments env {X} _.

Section Runtime.

Context {X : Type}.

Definition set_env (w : World) (a : Agent X) : Agent X :=
  {| agent_name := agent_name a; connection := connection a;
     channel := channel a; exchange := exchange a; queue := queue a;
     attrs := attrs a; invoked := invoked a; env := w |}.

Definition set_connected (a : Agent X) : Agent X :=
  {| agent_name := agent_name a; connection := true;
     channel := true; exchange := true; queue := true;
     attrs := attrs a; invoked := invoked a; env := env a |}.

Definition set_attrs (x : X) (a : Agent X) : Agent X :=
  {| agent_name := agent_name a; connection := connection a;
     channel := channel a; exchange := exchange a; queue := queue a;
     attrs := x; invoked := invoked a; env := env a |}.

Definition add_invoked (i : invocation) (a : Agent X) : Agent X :=
  {| agent_name := agent_name a; connection := connection a;
     channel := channel a; exchange := exchange a; queue := queue a;
     attrs := attrs a; invoked := invoked a ++ [i]; env := env a |}.

#[export] Instance agent_world : HasWorld (Agent X) :=
  {| world := env; with_world := set_env |}.

Definition Task (A : Type) : Type := M (Agent X) A.

(** The dictionary [execute_task] returns; the ['message'] of the
    unknown-task error is an f-string over the task type. *)
Inductive reply : Type :=
| Reply (d : pyval)
| UnknownTaskReply (task_type : pyval).

(** The two abstract methods of [BaseAgent]. *)
Class Subclass : Type := {
  process_message : pyval -> Task unit;
  execute_task : pyval -> Task reply
}.

Definition __init__ (name : pystr) (x : X) (w : World) : Agent X :=
  exec (log INFO (AgentInitialised name))
    {| agent_name := name; connection := false; channel := false;
       exchange := false; queue := false; attrs := x; invoked := [];
       env := w |}.

Definition connect_to_rabbitmq : Task unit :=
  try_except
    (connect ;;
     modify set_connected ;;
     log INFO AgentBrokerConnected)
    (fun e => log ERROR (AgentBrokerConnectionError e) ;;
              raise ConnectionError).

Definition start_consuming : Task unit :=
  q <- gets queue ;;
  if negb q then raise RuntimeError
  else
    name <- gets agent_name ;;
    log INFO (AgentConsuming name).

Context {impl : Subclass}.

(** [await self.process_message(m)] and [await self.execute_task(t)] *)
Definition call_process_message (m : pyval) : Task unit :=
  modify (add_invoked (process_message_called m)) ;;
  process_message m.

Definition call_execute_task (t : pyval) : Task reply :=
  modify (add_invoked (execute_task_called t)) ;;
  execute_task t.

Definition _handle_message (message_body : Utf8.bytes) : Task unit :=
  process
    (try_except
       (message_data <- lift (Json.decode message_body) ;;
        log DEBUG (MessageReceived message_data) ;;
        call_process_message message_data)
       (fun e =>
          match e with
          | JSONDecodeError => log ERROR (JsonDecodeFailed e)
          | _ => log ERROR (MessageHandlingFailed e)
          end)).

Definition publish_message (event_type : pystr) (data : pyval) : Task unit :=
  ex <- gets exchange ;;
  if negb ex then raise RuntimeError
  else
    name <- gets agent_name ;;
    t <- now ;;
    let message_data :=
      PDict [(lit "event_type", PStr event_type);
             (lit "agent_source", PStr name);
             (lit "timestamp", PStr (DateTime.isoformat t));
             (lit "data", data)] in
    message_body <- lift (Json.encode message_data) ;;
    publish (lit "jarvis.events") [] message_body ;;
    log INFO (MessagePublished event_type) ;;
    log DEBUG (MessageData message_data).

Definition send_direct_message (target_agent : pystr) (data : pyval)
  : Task unit :=
  ch <- gets channel ;;
  if negb ch then raise RuntimeError
  else
    name <- gets agent_name ;;
    t <- now ;;
    let message_data :=
      PDict [(lit "type", PStr (lit "direct_message"));
             (lit "from", PStr name);
             (lit "to", PStr target_agent);
             (lit "timestamp", PStr (DateTime.isoformat t));
             (lit "data", data)] in
    message_body <- lift (Json.encode message_data) ;;
    publish [] (target_agent ++ lit ".queue") message_body ;;
    log INFO (DirectMessageSent target_agent).

Definition start : Task unit :=
  name <- gets agent_name ;;
  log INFO (AgentStarting name) ;;
  connect_to_rabbitmq ;;
  start_consuming ;;
  publish_message (lit "agent.started")
    (PDict [(lit "agent_name", PStr name);
            (lit "status", PStr (lit "online"))]) ;;
  log INFO (AgentStarted name).

Definition stop : Task unit :=
  name <- gets agent_name ;;
  log INFO (AgentStopping name) ;;
  ex <- gets exchange ;;
  (if ex then
     publish_message (lit "agent.stopped")
       (PDict [(lit "agent_name", PStr name);
               (lit "status", PStr (lit "offline"))])
   else ret tt) ;;
  a <- gets (fun a => a) ;;
  (if connection a && negb (is_closed (env a)) then connection_close
   else ret tt) ;;
  log INFO (AgentStopped name).

(** The queue hands the messages over one at a time; each callback
    runs on its own, whatever became of the one before. *)
Definition consume (bodies : list Utf8.bytes) (a : Agent X) : Agent X :=
  fold_left (fun a b => exec (_handle_message b) a) bodies a.

End Runtime.

Arguments Subclass X : clear implicits.

End BaseAgent.

(** ** tests/test_jarvis.py: MockAgent *)

Module MockAgent.

Import BaseAgent.

Record MockAttrs : Type := {
  processed_messages : list pyval;
  executed_tasks : list pyval
}.

#[export] Instance mock_agent : Subclass MockAttrs := {|
  process_message := fun message =>
    modify (fun a =>
      set_attrs {| processed_messages := processed_messages (attrs a) ++ [message];
                   executed_tasks := executed_tasks (attrs a) |} a);
  execute_task := fun task =>
    modify (fun a =>
      set_attrs {| processed_messages := processed_messages (attrs a);
                   executed_tasks := executed_tasks (attrs a) ++ [task] |} a) ;;
    task_type <- lift (Json.get task (lit "type") (PStr (lit "unknown"))) ;;
    ret (Reply (PDict [(lit "status", PStr (lit "success"));
                       (lit "task_type", task_type)]))
|}.

Definition __init__ (w : World) : Agent MockAttrs :=
  BaseAgent.__init__ (lit "test-agent")
    {| processed_messages := []; executed_tasks := [] |} w.

End MockAgent.

(** ** agents/photo_agent/agent.py *)

Module PhotoAgent.

Import BaseAgent.

Record PhotoAttrs : Type := {
  photos_processed : Z;
  photos_organized : Z;
  duplicates_found : Z;
  stats_errors : Z
}.

Definition stats_value (x : PhotoAttrs) : pyval :=
  PDict [(lit "photos_processed", PInt (photos_processed x));
         (lit "photos_organized", PInt (photos_organized x));
         (lit "duplicates_found", PInt (duplicates_found x));
         (lit "errors", PInt (stats_errors x))].

(** The photo library itself (file system, Pillow) is a collaborator of
    the agent: its operations are taken as given. *)
Class PhotoLibrary : Type := {
  organize_photos : pyval -> Task (X := PhotoAttrs) pyval;
  process_photos : pyval -> Task (X := PhotoAttrs) pyval;
  analyze_photo : pyval -> Task (X := PhotoAttrs) pyval;
  create_backup : pyval -> Task (X := PhotoAttrs) pyval;
  (* (self.photo_dir / "clients" / client_name).mkdir(...) *)
  make_client_folder : pyval -> Task (X := PhotoAttrs) unit;
  (* the session folder of (date, client_name, session_type): its name *)
  make_session_folder : pyval -> pyval -> pyval -> Task (X := PhotoAttrs) pyval;
  (* str(self.photo_dir) *)
  photo_dir : pystr
}.

Section Photo.

Context {library : PhotoLibrary}.

Definition _handle_photo_organization_task (data : pyval)
  : Task (X := PhotoAttrs) unit :=
  path <- lift (Json.get data (lit "path") (PStr photo_dir)) ;;
  result <- organize_photos path ;;
  log INFO (OrganizationDone result).

Definition _handle_photo_processing_task (data : pyval)
  : Task (X := PhotoAttrs) unit :=
  photos <- lift (Json.get data (lit "photos") (PList [])) ;;
  result <- process_photos photos ;;
  log INFO (ProcessingDone result).

Definition _handle_new_client_event (data : pyval)
  : Task (X := PhotoAttrs) unit :=
  client_name <- lift (Json.get data (lit "client_name") (PStr (lit "unknown"))) ;;
  make_client_folder client_name ;;
  log INFO (ClientFolderCreated client_name).

Definition _handle_session_scheduled (data : pyval)
  : Task (X := PhotoAttrs) unit :=
  session_type <- lift (Json.get data (lit "session_type") (PStr (lit "session"))) ;;
  client_name <- lift (Json.get data (lit "client_name") (PStr (lit "unknown"))) ;;
  t <- now ;;
  date <- lift (Json.get data (lit "date") (PStr (DateTime.strftime_date t))) ;;
  folder <- make_session_folder date client_name session_type ;;
  log INFO (SessionFolderCreated folder).

#[export] Instance photo_agent : Subclass PhotoAttrs := {|
  process_message := fun message =>
    event_type <- lift (Json.get message (lit "event_type") (PStr [])) ;;
    data <- lift (Json.get message (lit "data") (PDict [])) ;;
    log DEBUG (ProcessingEvent event_type) ;;
    if is_str event_type (lit "task.photo_organization") then
      _handle_photo_organization_task data
    else if is_str event_type (lit "task.photo_processing") then
      _handle_photo_processing_task data
    else if is_str event_type (lit "crm.new_client") then
      _handle_new_client_event data
    else if is_str event_type (lit "calendar.session_scheduled") then
      _handle_session_scheduled data
    else log DEBUG (EventNotHandled event_type);
  execute_task := fun task =>
    task_type <- lift (Json.get task (lit "type") (PStr [])) ;;
    if is_str task_type (lit "organize_photos") then
      path <- lift (Json.get task (lit "path") (PStr photo_dir)) ;;
      r <- organize_photos path ;; ret (Reply r)
    else if is_str task_type (lit "process_photos") then
      photos <- lift (Json.get task (lit "photos") (PList [])) ;;
      r <- process_photos photos ;; ret (Reply r)
    else if is_str task_type (lit "analyze_photo") then
      photo_path <- lift (Json.get task (lit "photo_path") (PStr [])) ;;
      r <- analyze_photo photo_path ;; ret (Reply r)
    else if is_str task_type (lit "create_backup") then
      source_path <- lift (Json.get task (lit "source_path") (PStr [])) ;;
      r <- create_backup source_path ;; ret (Reply r)
    else if is_str task_type (lit "get_stats") then
      x <- gets attrs ;;
      ret (Reply (PDict [(lit "status", PStr (lit "success"));
                         (lit "stats", stats_value x)]))
    else ret (UnknownTaskReply task_type)
|}.

Definition __init__ (w : World) : Agent PhotoAttrs :=
  BaseAgent.__init__ (lit "photo-agent")
    {| photos_processed := 0; photos_organized := 0;
       duplicates_found := 0; stats_errors := 0 |} w.

End Photo.

End PhotoAgent.


(** ** A world and the programs started in it, for the examples *)

Module Scenario.

(** 2024-01-01T12:00:00 *)
Definition noon : DateTime.datetime := (738885 * 86400000000 + 43200000000)%Z.

(** A reachable broker, not yet connected to. *)
Definition world (clock : nat -> DateTime.datetime) (accepts : nat -> bool)
  : World :=
  {| clock := clock; ticks := 0; reachable := true;
     is_closed := true; accepts := accepts; publishes := 0;
     delivered := []; settled := []; logged := [] |}.

(** A clock that advances a microsecond per reading. *)
Definition steady : nat -> DateTime.datetime := fun n => (noon + Z.of_nat n)%Z.

(** A clock that stands at noon for two readings and is 301 seconds
    later from then on. *)
Definition jumping : nat -> DateTime.datetime :=
  fun n => if Nat.ltb n 2 then noon else (noon + 301 * 1000000)%Z.

Definition always : nat -> bool := fun _ => true.

(** The second publish fails. *)
Definition second_fails : nat -> bool := fun n => negb (Nat.eqb n 1).

(** An orchestrator that connected and set up its registry. *)
Definition orchestrator (clock : nat -> DateTime.datetime) (accepts : nat -> bool)
  : Orchestrator.JarvisOrchestrator :=
  exec (Orchestrator._connect_to_rabbitmq ;; Orchestrator._start_agent_monitoring)
    (Orchestrator.__init__ (world clock accepts)).

(** [{'type': 'client_onboarding', 'client_data': {'name': 'Ana'}}] *)
Definition client_ana : list (pystr * pyval) := [(lit "name", PStr (lit "Ana"))].

Definition onboarding_ana : list (pystr * pyval) :=
  [(lit "type", PStr (lit "client_onboarding"));
   (lit "client_data", PDict client_ana)].

Definition body_of (v : pyval) : Utf8.bytes :=
  match Json.encode v with Return b => b | Raise _ => [] end.

(** The announcement [BaseAgent.start] publishes for [agent_name]. *)
Definition started (agent_name : pystr) : Utf8.bytes :=
  body_of (PDict [(lit "event_type", PStr (lit "agent.started"));
                  (lit "agent_source", PStr agent_name);
                  (lit "timestamp", PStr (DateTime.isoformat noon));
                  (lit "data", PDict [(lit "agent_name", PStr agent_name);
                                      (lit "status", PStr (lit "online"))])]).

(** A broadcast of some other type from [agent_name]. *)
Definition photos_organized (agent_name : pystr) : Utf8.bytes :=
  body_of (PDict [(lit "event_type", PStr (lit "photos.organized"));
                  (lit "agent_source", PStr agent_name);
                  (lit "timestamp", PStr (DateTime.isoformat noon));
                  (lit "data", PDict [(lit "organized_count", PInt 3);
                                      (lit "error_count", PInt 0);
                                      (lit "source_path", PStr (lit "/app/photos"))])]).

(** The [task_request] the orchestrator sends to [agent_name]. *)
Definition task_request_message (agent_name : pystr) : list (pystr * pyval) :=
  [(lit "type", PStr (lit "task_request"));
   (lit "from", PStr (lit "orchestrator"));
   (lit "to", PStr agent_name);
   (lit "timestamp", PStr (DateTime.isoformat noon));
   (lit "task", PDict [(lit "type", PStr (lit "organize_photos"));
                       (lit "path", PStr (lit "/app/photos"))])].

Definition task_request (agent_name : pystr) : Utf8.bytes :=
  body_of (PDict (task_request_message agent_name)).

(** Not JSON, and not UTF-8. *)
Definition truncated : Utf8.bytes :=
  map Utf8.byte_of ([123; 34]%N ++ lit "event_type").
Definition not_utf8 : Utf8.bytes := [xff; xfe].

(** The roster of two of the specification's scenario. *)
Definition two_agents (clock : nat -> DateTime.datetime) (accepts : nat -> bool)
  : Orchestrator.JarvisOrchestrator :=
  exec (Orchestrator._connect_to_rabbitmq ;; Orchestrator._start_agent_monitoring)
    (Orchestrator.set_expected_agents
       [lit "photo-agent"; lit "marketing-agent"]
       (Orchestrator.__init__ (world clock accepts))).

(** photo-agent announced itself at noon; the clock now reads 301
    seconds later. *)
Definition silent : Orchestrator.JarvisOrchestrator :=
  Orchestrator.run [Orchestrator.Consume (started (lit "photo-agent"))]
    (orchestrator jumping always).

(** The same after the sweep that marks photo-agent. *)
Definition marked : Orchestrator.JarvisOrchestrator :=
  exec Orchestrator._check_agent_health silent.

(** A photo library with nothing in it. *)
Definition empty_library : PhotoAgent.PhotoLibrary :=
  {| PhotoAgent.organize_photos := fun _ => ret PNone;
     PhotoAgent.process_photos := fun _ => ret PNone;
     PhotoAgent.analyze_photo := fun _ => ret PNone;
     PhotoAgent.create_backup := fun _ => ret PNone;
     PhotoAgent.make_client_folder := fun _ => ret tt;
     PhotoAgent.make_session_folder := fun _ _ _ => ret PNone;
     PhotoAgent.photo_dir := lit "/app/photos" |}.

Definition photo_agent : BaseAgent.Agent PhotoAgent.PhotoAttrs :=
  exec (BaseAgent.start (X := PhotoAgent.PhotoAttrs))
    (PhotoAgent.__init__ (world steady always)).

(** An envelope whose payload nests lists and dictionaries, with text
    outside ASCII and outside the basic plane. *)
Definition nested_envelope : pyval :=
  PDict [(lit "event_type", PStr (lit "photos.processed"));
         (lit "agent_source", PStr (lit "photo-agent"));
         (lit "timestamp", PStr (DateTime.isoformat noon));
         (lit "data",
          PDict [(lit "processed_count", PInt 2);
                 (lit "ratio", PFloat (DateTime.total_seconds 1500000));
                 (lit "results",
                  PList [PDict [(lit "photo_path",
                                 PStr (lit "/app/photos/caf" ++ [233; 128247]%N));
                                (lit "status", PStr (lit "success"));
                                (lit "tags", PList [PNone; PBool true; PInt (-7)])];
                         PList []; PDict []])])].

(** A [MockAgent] that was started. *)
Definition mock_agent : BaseAgent.Agent MockAgent.MockAttrs :=
  exec BaseAgent.start (MockAgent.__init__ (world steady always)).

(** The announcement [BaseAgent.stop] publishes for [agent_name]. *)
Definition stopped (agent_name : pystr) : Utf8.bytes :=
  body_of (PDict [(lit "event_type", PStr (lit "agent.stopped"));
                  (lit "agent_source", PStr agent_name);
                  (lit "timestamp", PStr (DateTime.isoformat noon));
                  (lit "data", PDict [(lit "agent_name", PStr agent_name);
                                      (lit "status", PStr (lit "offline"))])]).

(** A clock that stands at noon for two readings and is exactly 300
    seconds later from then on. *)
Definition at_threshold : nat -> DateTime.datetime :=
  fun n => if Nat.ltb n 2 then noon else (noon + 300 * 1000000)%Z.

(** photo-agent announced itself at noon; the clock now reads 300
    seconds later. *)
Definition quiet : Orchestrator.JarvisOrchestrator :=
  Orchestrator.run [Orchestrator.Consume (started (lit "photo-agent"))]
    (orchestrator at_threshold always).

(** A broker that cannot be reached. *)
Definition unreachable_world : World :=
  {| clock := steady; ticks := 0; reachable := false;
     is_closed := true; accepts := always; publishes := 0;
     delivered := []; settled := []; logged := [] |}.

(** A run of the orchestrator with messages of several kinds. *)
Definition busy_run : list Orchestrator.event :=
  [Orchestrator.Consume (started (lit "photo-agent")); Orchestrator.Sweep;
   Orchestrator.Consume (photos_organized (lit "photo-agent"));
   Orchestrator.Consume (started (lit "crm-agent"));
   Orchestrator.Consume truncated; Orchestrator.PublishStats;
   Orchestrator.Consume (stopped (lit "photo-agent"));
   Orchestrator.Consume (started (lit "someone-else"))].

Definition photo_workflow_task : list (pystr * pyval) :=
  [(lit "type", PStr (lit "complete_photo_workflow"));
   (lit "photo_path", PStr (lit "/app/photos/session_12"))].

Definition campaign_task : list (pystr * pyval) :=
  [(lit "type", PStr (lit "marketing_campaign_launch"));
   (lit "campaign_data",
    PDict [(lit "service_type", PStr (lit "ensaio_casal"));
           (lit "budget", PInt 450)])].

(** Onboarding with the client given as a name, not as a dictionary. *)
Definition onboarding_by_name : list (pystr * pyval) :=
  [(lit "type", PStr (lit "client_onboarding"));
   (lit "client_data", PStr (lit "Ana"))].

(** [crm.new_client] whose data is a list. *)
Definition new_client_as_list : list (pystr * pyval) :=
  [(lit "event_type", PStr (lit "crm.new_client"));
   (lit "agent_source", PStr (lit "crm-agent"));
   (lit "timestamp", PStr (DateTime.isoformat noon));
   (lit "data", PList [PStr (lit "Ana")])].

End Scenario.

(** * Proofs *)

Ltac Zify.zify_post_hook ::= Z.to_euclidean_division_equations.

Ltac Zify.zify_post_hook ::= Z.to_euclidean_division_equations.

(** ** Strings and decimal digits *)

Module PyStrFacts.

Lemma eqb_eq (a b : pystr) : PyStr.eqb a b = true <-> a = b.
Proof.
  revert b; induction a as [|x a IH]; intros [|y b]; simpl;
    try (split; congruence).
  rewrite andb_true_iff, N.eqb_eq, IH. split.
  - intros [-> ->]; reflexivity.
  - intros E; inversion E; auto.
Qed.

Lemma eqb_refl (a : pystr) : PyStr.eqb a a = true.
Proof. apply eqb_eq; reflexivity. Qed.

Lemma eqb_neq (a b : pystr) : PyStr.eqb a b = false <-> a <> b.
Proof.
  rewrite <- eqb_eq. destruct (PyStr.eqb a b); split; congruence.
Qed.

Lemma eqb_sym (a b : pystr) : PyStr.eqb a b = PyStr.eqb b a.
Proof.
  destruct (PyStr.eqb a b) eqn:E.
  - apply eqb_eq in E; subst; symmetry; apply eqb_refl.
  - symmetry; apply eqb_neq; apply eqb_neq in E; congruence.
Qed.

Local Open Scope N_scope.

Lemma log2_div10 (n : N) : 10 <= n -> N.log2 (n / 10) < N.log2 n.
Proof.
  intros Hn.
  assert (H2 : n / 10 <= N.div2 n).
  { rewrite N.div2_div. lia. }
  apply N.le_lt_trans with (N.log2 (N.div2 n)).
  - apply N.log2_le_mono; assumption.
  - rewrite N.div2_spec, N.log2_shiftr.
    assert (0 < N.log2 n).
    { apply N.log2_pos. lia. }
    lia.
Qed.

Lemma digits_fuel_acc (fuel : nat) :
  forall n acc, digits_fuel fuel n acc = (digits_fuel fuel n [] ++ acc)%list.
Proof.
  induction fuel as [|fuel IH]; intros n acc; simpl; [reflexivity|].
  destruct (n <? 10); [reflexivity|].
  rewrite IH, (IH _ [_]), <- app_assoc. reflexivity.
Qed.

Lemma digits_fuel_enough (f1 : nat) :
  forall f2 n acc,
    (N.to_nat (N.log2 n) < f1)%nat -> (N.to_nat (N.log2 n) < f2)%nat ->
    digits_fuel f1 n acc = digits_fuel f2 n acc.
Proof.
  induction f1 as [|f1 IH]; intros [|f2] n acc H1 H2; try lia.
  simpl. destruct (n <? 10) eqn:E; [reflexivity|].
  apply N.ltb_ge in E. pose proof (log2_div10 n E).
  apply IH; lia.
Qed.

Lemma digits_small (n : N) : n < 10 -> digits n = [48 + n].
Proof.
  intros H. unfold digits. simpl.
  rewrite (proj2 (N.ltb_lt n 10) H), N.mod_small by assumption.
  reflexivity.
Qed.

Lemma digits_step (n : N) :
  10 <= n -> digits n = (digits (n / 10) ++ [48 + n mod 10])%list.
Proof.
  intros H. unfold digits at 1. simpl.
  rewrite (proj2 (N.ltb_ge n 10) H).
  rewrite digits_fuel_acc. f_equal.
  apply digits_fuel_enough; pose proof (log2_div10 n H); lia.
Qed.

Lemma digits_value_app (a b : pystr) :
  Json.digits_value (a ++ b)
  = fold_left (fun acc c => 10 * acc + (c - 48)) b (Json.digits_value a).
Proof. unfold Json.digits_value. apply fold_left_app. Qed.

(** Reading the digits of [n] gives [n] back. *)
Lemma digits_value_digits (n : N) : Json.digits_value (digits n) = n.
Proof.
  induction n as [n IH] using (well_founded_induction N.lt_wf_0).
  destruct (N.lt_ge_cases n 10) as [H|H].
  - rewrite digits_small by assumption. unfold Json.digits_value.
    cbn [fold_left]. lia.
  - rewrite digits_step, digits_value_app by assumption.
    rewrite IH by lia. cbn [fold_left]. lia.
Qed.

Lemma digits_all (n : N) : forallb PyFloat.is_digit (digits n) = true.
Proof.
  induction n as [n IH] using (well_founded_induction N.lt_wf_0).
  destruct (N.lt_ge_cases n 10) as [H|H].
  - rewrite digits_small by assumption. cbn [forallb]. unfold PyFloat.is_digit.
    rewrite andb_true_r, andb_true_iff, !N.leb_le. lia.
  - rewrite digits_step, forallb_app, IH by (assumption || lia). cbn [forallb andb].
    unfold PyFloat.is_digit.
    rewrite andb_true_r, andb_true_iff, !N.leb_le. lia.
Qed.

(** The first digit is not 0 unless the number is. *)
Lemma digits_head (n : N) :
  0 < n -> exists d ds, digits n = d :: ds /\ 49 <= d <= 57.
Proof.
  induction n as [n IH] using (well_founded_induction N.lt_wf_0).
  intros Hpos. destruct (N.lt_ge_cases n 10) as [H|H].
  - rewrite digits_small by assumption. exists (48 + n), []. split; [reflexivity|lia].
  - destruct (IH (n / 10)) as (d & ds & E & Hd); try lia.
    rewrite digits_step, E by assumption.
    exists d, (ds ++ [48 + n mod 10])%list. split; [reflexivity|assumption].
Qed.

Lemma digits_zero : digits 0 = [48].
Proof. reflexivity. Qed.

End PyStrFacts.

(** ** JSON strings: what [encode_basestring_ascii] writes, [scanstring] reads *)

Module JsonStringFacts.

Import PyStrFacts.
Local Open Scope N_scope.

Lemma hex_val_digit (n : N) : n < 16 -> hex_val (hex_digit n) = Some n.
Proof.
  intros H. unfold hex_val, hex_digit.
  destruct (n <? 10) eqn:E.
  - apply N.ltb_lt in E.
    replace ((48 <=? 48 + n) && (48 + n <=? 57)) with true
      by (symmetry; rewrite andb_true_iff, !N.leb_le; lia).
    f_equal; lia.
  - apply N.ltb_ge in E.
    replace ((48 <=? 87 + n) && (87 + n <=? 57)) with false
      by (symmetry; rewrite andb_false_iff, !N.leb_gt; lia).
    replace ((97 <=? 87 + n) && (87 + n <=? 102)) with true
      by (symmetry; rewrite andb_true_iff, !N.leb_le; lia).
    f_equal; lia.
Qed.

(** A number is its low [k] bits under the rest. *)
Lemma split_low_bits (x k : N) :
  N.lor (N.shiftl (N.shiftr x k) k) (N.land x (N.ones k)) = x.
Proof.
  rewrite <- N.ldiff_ones_r. apply N.lor_ldiff_and.
Qed.

Lemma nibble_lt (x : N) : N.land x 15 < 16.
Proof.
  change 15 with (N.ones 4). rewrite N.land_ones. 
  apply N.mod_lt. discriminate.
Qed.

Lemma hex4_val_hex4 (c : N) :
  c < 65536 ->
  hex4_val (hex_digit (N.land (N.shiftr c 12) 15))
           (hex_digit (N.land (N.shiftr c 8) 15))
           (hex_digit (N.land (N.shiftr c 4) 15))
           (hex_digit (N.land c 15)) = Some c.
Proof.
  intros H. unfold hex4_val.
  rewrite !hex_val_digit by apply nibble_lt.
  f_equal.
  assert (E12 : N.land (N.shiftr c 12) 15 = N.shiftr c 12).
  { change 15 with (N.ones 4). rewrite N.land_ones, N.shiftr_div_pow2.
    apply N.mod_small. change (2 ^ 12) with 4096. change (2 ^ 4) with 16. lia. }
  rewrite E12.
  replace (N.shiftr c 12) with (N.shiftr (N.shiftr c 8) 4)
    by (rewrite N.shiftr_shiftr; reflexivity).
  change 15 with (N.ones 4). rewrite split_low_bits.
  replace (N.shiftr c 8) with (N.shiftr (N.shiftr c 4) 4)
    by (rewrite N.shiftr_shiftr; reflexivity).
  rewrite split_low_bits. apply split_low_bits.
Qed.

Lemma high_surrogate_range (c : N) :
  65536 <= c < 1114112 ->
  55296 <= high_surrogate c <= 56319.
Proof.
  intros H. unfold high_surrogate. rewrite N.shiftr_div_pow2.
  change (2 ^ 10) with 1024. lia.
Qed.

Lemma low_surrogate_range (c : N) : 56320 <= low_surrogate c <= 57343.
Proof.
  unfold low_surrogate. change 1023 with (N.ones 10).
  rewrite N.land_ones. change (2 ^ 10) with 1024. lia.
Qed.

Lemma join_surrogates_split (c : N) :
  65536 <= c < 1114112 ->
  join_surrogates (high_surrogate c) (low_surrogate c) = c.
Proof.
  intros H. unfold join_surrogates, high_surrogate, low_surrogate.
  change 1023 with (N.ones 10). rewrite !N.land_ones, N.shiftr_div_pow2.
  change (2 ^ 10) with 1024.
  replace ((55296 - 64 + c / 1024) mod 1024) with (N.shiftr (c - 65536) 10)
    by (rewrite N.shiftr_div_pow2; change (2 ^ 10) with 1024; lia).
  replace ((56320 + c mod 1024) mod 1024) with (N.land (c - 65536) (N.ones 10))
    by (rewrite N.land_ones; change (2 ^ 10) with 1024; lia).
  rewrite split_low_bits. lia.
Qed.


Lemma scanstring_quote (rest : pystr) : scanstring (34 :: rest) = Return ([], rest).
Proof. reflexivity. Qed.

Lemma scanstring_plain (c : codepoint) (rest : pystr) :
  c <> 34 -> c <> 92 -> 31 < c ->
  scanstring (c :: rest) = cons_char c (scanstring rest).
Proof.
  intros H1 H2 H3. cbn [scanstring].
  rewrite (proj2 (N.eqb_neq c 34) H1), (proj2 (N.eqb_neq c 92) H2).
  rewrite (proj2 (N.leb_gt c 31) H3). reflexivity.
Qed.

Lemma scanstring_escape (e c : codepoint) (rest : pystr) :
  e <> 117 -> unescape e = Some c ->
  scanstring (92 :: e :: rest) = cons_char c (scanstring rest).
Proof.
  intros H1 H2. cbn [scanstring].
  change (92 =? 34) with false. change (92 =? 92) with true. cbv iota.
  rewrite (proj2 (N.eqb_neq e 117) H1), H2. reflexivity.
Qed.

Lemma scanstring_u (h1 h2 h3 h4 u : codepoint) (rest : pystr) :
  hex4_val h1 h2 h3 h4 = Some u -> is_high_surrogate u = false ->
  scanstring (92 :: 117 :: h1 :: h2 :: h3 :: h4 :: rest)
  = cons_char u (scanstring rest).
Proof.
  intros H1 H2. cbn [scanstring].
  change (92 =? 34) with false. change (92 =? 92) with true.
  change (117 =? 117) with true. cbv iota.
  rewrite H1, H2. reflexivity.
Qed.

Lemma scanstring_pair (h1 h2 h3 h4 g1 g2 g3 g4 u u2 : codepoint) (rest : pystr) :
  hex4_val h1 h2 h3 h4 = Some u -> is_high_surrogate u = true ->
  hex4_val g1 g2 g3 g4 = Some u2 -> is_low_surrogate u2 = true ->
  scanstring (92 :: 117 :: h1 :: h2 :: h3 :: h4
              :: 92 :: 117 :: g1 :: g2 :: g3 :: g4 :: rest)
  = cons_char (join_surrogates u u2) (scanstring rest).
Proof.
  intros H1 H2 H3 H4. cbn [scanstring].
  change (92 =? 34) with false. change (92 =? 92) with true.
  change (117 =? 117) with true. cbv iota.
  rewrite H1, H2. cbn [andb]. rewrite H3, H4. reflexivity.
Qed.

(** One character: what [escape_char] writes for it is read back as it. *)
Lemma scanstring_escape_char (c : codepoint) (rest : pystr) :
  scalar c = true ->
  scanstring (escape_char c ++ rest) = cons_char c (scanstring rest).
Proof.
  intros Hc. unfold scalar in Hc.
  rewrite andb_true_iff, orb_true_iff, !N.ltb_lt, N.leb_le in Hc.
  destruct Hc as [Hs Hmax].
  unfold escape_char.
  destruct ((32 <=? c) && (c <=? 126) && negb (c =? 92) && negb (c =? 34)) eqn:P.
  - rewrite !andb_true_iff, !negb_true_iff, !N.leb_le, !N.eqb_neq in P.
    cbn [app]. apply scanstring_plain; lia.
  - destruct (c =? 92) eqn:E1;
      [apply N.eqb_eq in E1; subst; reflexivity|].
    destruct (c =? 34) eqn:E2;
      [apply N.eqb_eq in E2; subst; reflexivity|].
    destruct (c =? 8) eqn:E3;
      [apply N.eqb_eq in E3; subst; reflexivity|].
    destruct (c =? 12) eqn:E4;
      [apply N.eqb_eq in E4; subst; reflexivity|].
    destruct (c =? 10) eqn:E5;
      [apply N.eqb_eq in E5; subst; reflexivity|].
    destruct (c =? 13) eqn:E6;
      [apply N.eqb_eq in E6; subst; reflexivity|].
    destruct (c =? 9) eqn:E7;
      [apply N.eqb_eq in E7; subst; reflexivity|].
    destruct (65536 <=? c) eqn:E8.
    + apply N.leb_le in E8.
      pose proof (high_surrogate_range c ltac:(lia)) as Hh.
      pose proof (low_surrogate_range c) as Hl.
      unfold hex4. cbn [app].
      rewrite (scanstring_pair _ _ _ _ _ _ _ _
                 (high_surrogate c) (low_surrogate c)).
      * rewrite join_surrogates_split by lia. reflexivity.
      * apply hex4_val_hex4. lia.
      * unfold is_high_surrogate. rewrite andb_true_iff, !N.leb_le. lia.
      * apply hex4_val_hex4. lia.
      * unfold is_low_surrogate. rewrite andb_true_iff, !N.leb_le. lia.
    + apply N.leb_gt in E8. unfold hex4. cbn [app].
      apply scanstring_u.
      * apply hex4_val_hex4. lia.
      * unfold is_high_surrogate. rewrite andb_false_iff, !N.leb_gt. lia.
Qed.

Lemma scanstring_escaped (s rest : pystr) :
  wf s = true ->
  scanstring (flat_map escape_char s ++ 34 :: rest) = Return (s, rest).
Proof.
  induction s as [|c s IH]; intros Hs.
  - reflexivity.
  - cbn [wf forallb] in Hs. apply andb_true_iff in Hs. destruct Hs as [Hc Hs].
    cbn [flat_map]. rewrite <- app_assoc, scanstring_escape_char by assumption.
    fold (wf s) in Hs. rewrite IH by assumption. reflexivity.
Qed.

(** The text of a string opens with a quote and ends with the closing one. *)
Lemma scan_basestring (s rest : pystr) :
  wf s = true ->
  exists body, encode_basestring_ascii s = 34 :: body
    /\ scanstring (body ++ rest) = Return (s, rest).
Proof.
  intros Hs. exists (flat_map escape_char s ++ [34])%list. split.
  - reflexivity.
  - rewrite <- app_assoc. apply scanstring_escaped. assumption.
Qed.

Definition is_ascii (c : codepoint) : bool := c <? 128.

Lemma hex_digit_ascii (n : N) : n < 16 -> is_ascii (hex_digit n) = true.
Proof.
  intros H. unfold is_ascii, hex_digit. apply N.ltb_lt.
  destruct (n <? 10); lia.
Qed.

Lemma hex4_ascii (c : N) : forallb is_ascii (hex4 c) = true.
Proof.
  unfold hex4. cbn [forallb].
  rewrite !hex_digit_ascii by apply nibble_lt. reflexivity.
Qed.

Lemma escape_char_ascii (c : codepoint) : forallb is_ascii (escape_char c) = true.
Proof.
  unfold escape_char.
  destruct ((32 <=? c) && (c <=? 126) && negb (c =? 92) && negb (c =? 34)) eqn:P.
  - rewrite !andb_true_iff, !N.leb_le in P. cbn [forallb].
    unfold is_ascii. rewrite andb_true_r. apply N.ltb_lt. lia.
  - repeat match goal with
           | |- context [if ?b then _ else _] => destruct b
           end;
      cbn [forallb app]; rewrite ?forallb_app; cbn [forallb];
      rewrite ?hex4_ascii; reflexivity.
Qed.

Lemma encode_basestring_ascii_ascii (s : pystr) :
  forallb is_ascii (encode_basestring_ascii s) = true.
Proof.
  unfold encode_basestring_ascii. cbn [forallb]. rewrite forallb_app.
  cbn [forallb]. rewrite andb_true_r. change (is_ascii 34) with true. cbn [andb].
  induction s as [|c s IH]; [reflexivity|].
  cbn [flat_map]. rewrite forallb_app, escape_char_ascii, IH. reflexivity.
Qed.

End JsonStringFacts.

(** ** JSON numbers *)

Module JsonNumberFacts.

Import PyStrFacts PyFloat.
Local Open Scope N_scope.

(** What may follow a number without being read as part of it. *)
Definition no_digit_head (rest : pystr) : bool :=
  match rest with [] => true | c :: _ => negb (is_digit c) end.

Definition stops (rest : pystr) : bool :=
  match rest with
  | [] => true
  | c :: _ => negb (is_digit c) && negb (c =? 46) && negb (c =? 101) && negb (c =? 69)
  end.

Lemma stops_no_digit (rest : pystr) : stops rest = true -> no_digit_head rest = true.
Proof.
  destruct rest as [|c r]; [reflexivity|]. cbn.
  rewrite !andb_true_iff. tauto.
Qed.

Lemma span_digits_app (ds rest : pystr) :
  forallb is_digit ds = true -> no_digit_head rest = true ->
  span_digits (ds ++ rest) = (ds, rest).
Proof.
  intros Hds Hr. induction ds as [|d ds IH].
  - destruct rest as [|c r]; [reflexivity|].
    cbn in Hr. apply negb_true_iff in Hr. cbn [app span_digits]. rewrite Hr.
    reflexivity.
  - cbn [forallb] in Hds. apply andb_true_iff in Hds. destruct Hds as [Hd Hds].
    cbn [app span_digits]. rewrite Hd, IH by assumption. reflexivity.
Qed.

Lemma lex_int_digits (n : N) (rest : pystr) :
  no_digit_head rest = true ->
  lex_int (digits n ++ rest) = Some (digits n, rest).
Proof.
  intros Hr. destruct (N.eq_dec n 0) as [->|Hn].
  - reflexivity.
  - destruct (digits_head n ltac:(lia)) as (d & ds & E & Hd).
    pose proof (digits_all n) as Hall. rewrite E in *.
    cbn [forallb] in Hall. apply andb_true_iff in Hall.
    cbn [app lex_int].
    replace ((49 <=? d) && (d <=? 57)) with true
      by (symmetry; rewrite andb_true_iff, !N.leb_le; lia).
    rewrite span_digits_app by tauto. reflexivity.
Qed.

Lemma lex_frac_none (rest : pystr) :
  stops rest = true -> lex_frac rest = ([], rest).
Proof.
  destruct rest as [|c [|f r]]; try reflexivity; cbn [stops lex_frac];
    rewrite !andb_true_iff, !negb_true_iff; intros [[[_ H] _] _];
    rewrite H; reflexivity.
Qed.

Lemma lex_exp_none (rest : pystr) :
  stops rest = true -> lex_exp rest = (None, rest).
Proof.
  destruct rest as [|c r]; try reflexivity; cbn [stops lex_exp].
  rewrite !andb_true_iff, !negb_true_iff; intros [[[_ _] H1] H2].
  rewrite H1, H2. reflexivity.
Qed.

Lemma match_number_nat (n : N) (rest : pystr) :
  stops rest = true ->
  match_number (digits n ++ rest) = Some (PInt (Z.of_N n), rest).
Proof.
  intros Hr. unfold match_number.
  assert (Hs : lex_sign (digits n ++ rest) = (false, (digits n ++ rest)%list)).
  { destruct (N.eq_dec n 0) as [->|Hn]; [reflexivity|].
    destruct (digits_head n ltac:(lia)) as (d & ds & E & Hd). rewrite E.
    cbn [app lex_sign].
    replace (d =? 45) with false by (symmetry; apply N.eqb_neq; lia).
    reflexivity. }
  rewrite Hs, lex_int_digits by (apply stops_no_digit; assumption).
  rewrite lex_frac_none, lex_exp_none by assumption.
  rewrite digits_value_digits. reflexivity.
Qed.

Lemma match_number_int (z : Z) (rest : pystr) :
  stops rest = true ->
  match_number (int_repr z ++ rest) = Some (PInt z, rest).
Proof.
  intros Hr. unfold int_repr. destruct (z <? 0)%Z eqn:E.
  - apply Z.ltb_lt in E. unfold match_number. cbn [app lex_sign].
    change (45 =? 45) with true. cbv iota.
    rewrite lex_int_digits by (apply stops_no_digit; assumption).
    rewrite lex_frac_none, lex_exp_none by assumption.
    rewrite digits_value_digits. do 2 f_equal. f_equal. lia.
  - apply Z.ltb_ge in E. rewrite match_number_nat by assumption.
    do 3 f_equal. lia.
Qed.


Lemma digits_cons (n : N) :
  exists d ds, digits n = d :: ds /\ is_digit d = true.
Proof.
  pose proof (digits_all n) as H.
  destruct (N.eq_dec n 0) as [->|Hn].
  - exists 48, []. split; reflexivity.
  - destruct (digits_head n ltac:(lia)) as (d & ds & E & _).
    rewrite E in H. cbn [forallb] in H. apply andb_true_iff in H.
    exists d, ds. tauto.
Qed.

Lemma is_digit_range (c : codepoint) : is_digit c = true <-> 48 <= c <= 57.
Proof.
  unfold PyFloat.is_digit. rewrite andb_true_iff, !N.leb_le. tauto.
Qed.

Lemma lex_sign_digit (c : codepoint) (r : pystr) :
  is_digit c = true -> lex_sign (c :: r) = (false, c :: r).
Proof.
  intros H. apply is_digit_range in H. cbn [lex_sign].
  replace (c =? 45) with false by (symmetry; apply N.eqb_neq; lia).
  reflexivity.
Qed.

Lemma lex_frac_not_dot (c : codepoint) (r : pystr) :
  c <> 46 -> lex_frac (c :: r) = ([], c :: r).
Proof.
  intros H. apply N.eqb_neq in H. destruct r; cbn [lex_frac]; rewrite ?H; reflexivity.
Qed.

Lemma lex_exp_text (e : option (bool * PyFloat.exp_sign * pystr)) (rest : pystr) :
  exp_ok e = true -> stops rest = true ->
  lex_exp (exp_text e ++ rest) = (e, rest).
Proof.
  intros He Hr. destruct e as [[[upper sg] ds]|].
  - cbn [exp_ok] in He. apply andb_true_iff in He. destruct He as [Hds Hne].
    destruct ds as [|d0 ds']; [discriminate|].
    assert (Hd0 : 48 <= d0 <= 57).
    { cbn [forallb] in Hds. apply andb_true_iff in Hds.
      apply is_digit_range. tauto. }
    pose proof (stops_no_digit rest Hr) as Hnd.
    cbn [exp_text]. rewrite <- app_comm_cons. cbn [lex_exp].
    replace (((if upper then 69 else 101) =? 101)
             || ((if upper then 69 else 101) =? 69)) with true
      by (destruct upper; reflexivity).
    destruct sg; cbn [app].
    + replace (d0 =? 45) with false by (symmetry; apply N.eqb_neq; lia).
      replace (d0 =? 43) with false by (symmetry; apply N.eqb_neq; lia).
      change (d0 :: ds' ++ rest)%list with ((d0 :: ds') ++ rest)%list.
      rewrite (span_digits_app (d0 :: ds') rest Hds Hnd).
      destruct upper; reflexivity.
    + change (43 =? 45) with false. change (43 =? 43) with true. cbv iota.
      change (d0 :: ds' ++ rest)%list with ((d0 :: ds') ++ rest)%list.
      rewrite (span_digits_app (d0 :: ds') rest Hds Hnd).
      destruct upper; reflexivity.
    + change (45 =? 45) with true. cbv iota.
      change (d0 :: ds' ++ rest)%list with ((d0 :: ds') ++ rest)%list.
      rewrite (span_digits_app (d0 :: ds') rest Hds Hnd).
      destruct upper; reflexivity.
  - apply lex_exp_none. assumption.
Qed.

Lemma exp_text_no_digit (e : option (bool * PyFloat.exp_sign * pystr)) (rest : pystr) :
  stops rest = true -> no_digit_head (exp_text e ++ rest) = true.
Proof.
  intros Hr. destruct e as [[[upper sg] ds]|].
  - destruct upper; reflexivity.
  - apply stops_no_digit. assumption.
Qed.

(** After the sign: integer digits, fraction, exponent. *)
Lemma lex_unsigned (i : N) (frac : pystr)
      (e : option (bool * PyFloat.exp_sign * pystr)) (rest : pystr) :
  forallb is_digit frac = true -> exp_ok e = true ->
  (match frac, e with [], None => false | _, _ => true end) = true ->
  stops rest = true ->
  let tail := (frac_text frac ++ exp_text e ++ rest)%list in
  lex_int (digits i ++ tail) = Some (digits i, tail)
  /\ lex_frac tail = (frac, (exp_text e ++ rest)%list)
  /\ lex_exp (exp_text e ++ rest) = (e, rest).
Proof.
  intros Hf He Hfe Hr tail.
  pose proof (exp_text_no_digit e rest Hr) as Hnd.
  split; [|split].
  - apply lex_int_digits. subst tail. destruct frac as [|f fs]; [|reflexivity].
    assumption.
  - subst tail. destruct frac as [|f fs].
    + destruct e as [[[upper sg] ds]|]; [|discriminate].
      cbn [app exp_text]. apply lex_frac_not_dot. destruct upper; discriminate.
    + cbn [forallb] in Hf. apply andb_true_iff in Hf. destruct Hf as [Hf1 Hfs].
      cbn [frac_text app lex_frac]. change (46 =? 46) with true. rewrite Hf1. cbn [andb].
      rewrite span_digits_app by assumption. reflexivity.
  - apply lex_exp_text; assumption.
Qed.

Lemma match_number_dec (d : PyFloat.decimal) (rest : pystr) :
  PyFloat.dec_ok d = true -> stops rest = true ->
  match_number (PyFloat.dec_repr d ++ rest)
  = Some (PFloat (PyFloat.Dec d), rest).
Proof.
  intros Hd Hr. unfold dec_ok in Hd. rewrite !andb_true_iff in Hd.
  destruct Hd as [[Hf He] Hfe].
  destruct d as [neg i frac e]. unfold dec_repr.
  cbn [negative int_part frac_part exp_part] in *.
  destruct (lex_unsigned i frac e rest Hf He Hfe Hr) as (H1 & H2 & H3).
  unfold match_number.
  assert (Hs : lex_sign (((if neg then [45] else []) ++ digits i
                 ++ frac_text frac ++ exp_text e) ++ rest)
               = (neg, (digits i ++ frac_text frac ++ exp_text e ++ rest)%list)).
  { rewrite <- !app_assoc. destruct neg.
    - reflexivity.
    - cbn [app]. destruct (digits_cons i) as (c & cs & E & Hc). rewrite E.
      cbn [app]. apply lex_sign_digit. assumption. }
  rewrite Hs, H1, H2, H3, digits_value_digits.
  destruct frac as [|f fs]; [destruct e; [reflexivity|discriminate]|reflexivity].
Qed.

(** A text that opens as a number is no constant. *)
Definition number_start (s : pystr) : bool :=
  match s with
  | c :: r =>
      is_digit c
      || ((c =? 45) && match r with d :: _ => is_digit d | [] => false end)
  | [] => false
  end.

Lemma keyword_head (kw : string) (v : pyval) (c : codepoint) (r : pystr) :
  match lit kw with k :: _ => k <> c | [] => False end ->
  keyword kw v (c :: r) = None.
Proof.
  unfold keyword. destruct (lit kw) as [|k p]; [tauto|]. intros H.
  cbn [strip_prefix]. rewrite (proj2 (N.eqb_neq k c) H). reflexivity.
Qed.

Lemma scan_atom_number (s : pystr) :
  number_start s = true ->
  scan_atom s = match match_number s with
                | Some r => Return r
                | None => Raise JSONDecodeError
                end.
Proof.
  intros H. unfold scan_atom.
  destruct s as [|c r]; [discriminate|]. cbn [number_start] in H.
  assert (Hc : 48 <= c <= 57 \/ c = 45 /\ exists d r', r = d :: r' /\ 48 <= d <= 57).
  { apply orb_true_iff in H. destruct H as [H|H].
    - left. apply is_digit_range. assumption.
    - right. apply andb_true_iff in H. destruct H as [Hc Hd].
      apply N.eqb_eq in Hc. split; [assumption|].
      destruct r as [|d r']; [discriminate|]. exists d, r'.
      split; [reflexivity|]. apply is_digit_range. assumption. }
  rewrite !keyword_head by (cbn; destruct Hc as [?|[? ?]]; lia).
  assert (Hi : keyword "-Infinity" (PFloat NegInfinity) (c :: r) = None).
  { destruct Hc as [Hc|[-> (d & r' & -> & Hd)]].
    - apply keyword_head. cbn. lia.
    - unfold keyword. change (lit "-Infinity") with (45 :: lit "Infinity").
      cbn [strip_prefix]. change (45 =? 45) with true. cbv iota.
      change (lit "Infinity") with (73 :: lit "nfinity"). cbn [strip_prefix].
      replace (73 =? d) with false by (symmetry; apply N.eqb_neq; lia).
      reflexivity. }
  rewrite Hi. reflexivity.
Qed.

Lemma scan_atom_int (z : Z) (rest : pystr) :
  stops rest = true ->
  scan_atom (int_repr z ++ rest) = Return (PInt z, rest).
Proof.
  intros Hr. rewrite scan_atom_number.
  - rewrite match_number_int by assumption. reflexivity.
  - unfold int_repr. destruct (z <? 0)%Z.
    + destruct (digits_cons (Z.to_N (- z))) as (d & ds & E & Hd). rewrite E.
      cbn [app number_start]. rewrite Hd. change (45 =? 45) with true.
      apply orb_true_r.
    + destruct (digits_cons (Z.to_N z)) as (d & ds & E & Hd). rewrite E.
      cbn [app number_start]. rewrite Hd. reflexivity.
Qed.

Lemma scan_atom_float (f : float_text) (rest : pystr) :
  PyFloat.ok f = true -> stops rest = true ->
  scan_atom (PyFloat.repr f ++ rest) = Return (PFloat f, rest).
Proof.
  intros Hf Hr. destruct f as [| | |d]; try reflexivity.
  cbn [PyFloat.ok PyFloat.repr] in *.
  rewrite scan_atom_number.
  - rewrite match_number_dec by assumption. reflexivity.
  - unfold dec_repr. destruct (digits_cons (int_part d)) as (c & cs & E & Hc).
    rewrite E. destruct (negative d); cbn [app number_start]; rewrite Hc.
    + change (45 =? 45) with true. apply orb_true_r.
    + reflexivity.
Qed.

End JsonNumberFacts.

(** ** json.loads after json.dumps *)

Module JsonRoundTrip.

Import PyStrFacts JsonStringFacts JsonNumberFacts.
Local Open Scope N_scope.

(** Induction on values, through the lists and dictionaries in them. *)
Section pyval_induction.

Variable P : pyval -> Prop.
Hypothesis HNone : P PNone.
Hypothesis HBool : forall b, P (PBool b).
Hypothesis HInt : forall z, P (PInt z).
Hypothesis HFloat : forall f, P (PFloat f).
Hypothesis HStr : forall s, P (PStr s).
Hypothesis HList : forall l, Forall P l -> P (PList l).
Hypothesis HDict : forall d, Forall (fun kv => P (snd kv)) d -> P (PDict d).
Hypothesis HDatetime : forall t, P (PDatetime t).

Fixpoint pyval_nested_ind (v : pyval) : P v :=
  match v with
  | PNone => HNone
  | PBool b => HBool b
  | PInt z => HInt z
  | PFloat f => HFloat f
  | PStr s => HStr s
  | PList l =>
      HList l
        ((fix go (l : list pyval) : Forall P l :=
            match l with
            | [] => Forall_nil P
            | x :: l' => Forall_cons x (pyval_nested_ind x) (go l')
            end) l)
  | PDict d =>
      HDict d
        ((fix go (d : list (list N * pyval))
            : Forall (fun kv => P (snd kv)) d :=
            match d with
            | [] => Forall_nil _
            | kv :: d' =>
                Forall_cons (P := fun kv => P (snd kv)) kv
                  (pyval_nested_ind (snd kv)) (go d')
            end) d)
  | PDatetime t => HDatetime t
  end.

End pyval_induction.

(** The first character of the text of a value: no white space, no
    closing bracket. *)
Definition starts_value (text : pystr) : bool :=
  match text with
  | c :: _ => negb (is_ws c) && negb (c =? 93) && negb (c =? 125)
  | [] => false
  end.

Lemma skip_ws_value (text rest : pystr) :
  starts_value text = true -> skip_ws (text ++ rest) = (text ++ rest)%list.
Proof.
  destruct text as [|c r]; [discriminate|]. cbn [starts_value app skip_ws].
  rewrite !andb_true_iff, !negb_true_iff. intros [[H _] _]. rewrite H.
  reflexivity.
Qed.

(** What the scanner makes of the text of [v], whatever follows. *)
Definition reads_back (v : pyval) (text : pystr) : Prop :=
  forallb is_ascii text = true
  /\ starts_value text = true
  /\ (size v <= List.length text)%nat
  /\ forall fuel rest,
       (size v <= fuel)%nat -> stops rest = true ->
       scan_once fuel (text ++ rest) = Return (v, rest).

Lemma scan_once_atom (fuel : nat) (c : N) (s : pystr) :
  c <> 34 -> c <> 123 -> c <> 91 ->
  scan_once (S fuel) (c :: s) = scan_atom (c :: s).
Proof.
  intros H1 H2 H3. cbn [scan_once].
  rewrite (proj2 (N.eqb_neq c 34) H1), (proj2 (N.eqb_neq c 123) H2),
    (proj2 (N.eqb_neq c 91) H3).
  reflexivity.
Qed.

Lemma reads_back_none : reads_back PNone (lit "null").
Proof.
  repeat split; try reflexivity; cbn; try lia.
  intros [|fuel] rest Hf _; [cbn in Hf; lia|]. reflexivity.
Qed.

Lemma reads_back_bool (b : bool) :
  reads_back (PBool b) (if b then lit "true" else lit "false").
Proof.
  destruct b; (repeat split; try reflexivity; cbn; try lia);
    intros [|fuel] rest Hf _; try (cbn in Hf; lia); reflexivity.
Qed.

Lemma int_repr_ascii (z : Z) : forallb is_ascii (int_repr z) = true.
Proof.
  assert (H : forall n, forallb is_ascii (digits n) = true).
  { intros n. pose proof (digits_all n) as H.
    rewrite forallb_forall in *. intros c Hc. specialize (H c Hc).
    apply is_digit_range in H. apply N.ltb_lt. lia. }
  unfold int_repr. destruct (z <? 0)%Z; cbn [forallb]; rewrite H; reflexivity.
Qed.

Lemma number_start_value (text : pystr) :
  number_start text = true -> starts_value text = true.
Proof.
  destruct text as [|c r]; [discriminate|]. cbn [number_start starts_value].
  intros H.
  assert (Hc : 48 <= c <= 57 \/ c = 45).
  { apply orb_true_iff in H. destruct H as [H|H].
    - left. apply is_digit_range. assumption.
    - right. apply andb_true_iff in H. destruct H as [H _].
      apply N.eqb_eq. assumption. }
  unfold is_ws. rewrite !andb_true_iff, !negb_true_iff, !orb_false_iff, !N.eqb_neq.
  lia.
Qed.

Lemma int_repr_start (z : Z) : number_start (int_repr z) = true.
Proof.
  unfold int_repr. destruct (z <? 0)%Z.
  - destruct (digits_cons (Z.to_N (- z))) as (d & ds & E & Hd). rewrite E.
    cbn [number_start]. rewrite Hd. apply orb_true_r.
  - destruct (digits_cons (Z.to_N z)) as (d & ds & E & Hd). rewrite E.
    cbn [number_start]. rewrite Hd. reflexivity.
Qed.

Lemma number_scan_once (fuel : nat) (text rest : pystr) :
  number_start text = true ->
  scan_once (S fuel) (text ++ rest) = scan_atom (text ++ rest).
Proof.
  destruct text as [|c r]; [discriminate|]. cbn [number_start app]. intros H.
  apply scan_once_atom.
  - intros ->. discriminate.
  - intros ->. discriminate.
  - intros ->. discriminate.
Qed.

Lemma reads_back_int (z : Z) : reads_back (PInt z) (int_repr z).
Proof.
  pose proof (int_repr_start z) as Hs.
  split; [apply int_repr_ascii|]. split; [apply number_start_value, Hs|].
  split.
  - destruct (int_repr z); [discriminate|]. cbn. lia.
  - intros [|fuel] rest Hf Hr; [cbn in Hf; lia|].
    rewrite number_scan_once by assumption. apply scan_atom_int. assumption.
Qed.


Lemma repr_ascii (f : PyFloat.float_text) :
  PyFloat.ok f = true -> forallb is_ascii (PyFloat.repr f) = true.
Proof.
  assert (Hd : forall ds, forallb PyFloat.is_digit ds = true ->
                          forallb is_ascii ds = true).
  { intros ds H. rewrite forallb_forall in *. intros c Hc.
    specialize (H c Hc). apply is_digit_range in H. apply N.ltb_lt. lia. }
  destruct f as [| | |d]; try reflexivity.
  cbn [PyFloat.ok PyFloat.repr]. unfold PyFloat.dec_ok.
  rewrite !andb_true_iff. intros [[Hf He] _].
  unfold PyFloat.dec_repr. rewrite !forallb_app.
  rewrite (Hd _ (digits_all _)).
  replace (forallb is_ascii (if PyFloat.negative d then [45] else [])) with true
    by (destruct (PyFloat.negative d); reflexivity).
  replace (forallb is_ascii (PyFloat.frac_text (PyFloat.frac_part d))) with true.
  2:{ symmetry. destruct (PyFloat.frac_part d) as [|c l]; [reflexivity|].
      cbn [PyFloat.frac_text]. change (forallb is_ascii (46 :: c :: l))
        with (forallb is_ascii (c :: l)). apply Hd. assumption. }
  destruct (PyFloat.exp_part d) as [[[upper sg] ds]|]; [|reflexivity].
  cbn [PyFloat.exp_ok] in He. apply andb_true_iff in He. destruct He as [He _].
  cbn [PyFloat.exp_text forallb andb]. rewrite forallb_app, (Hd _ He).
  destruct upper, sg; reflexivity.
Qed.

Lemma reads_back_float (f : PyFloat.float_text) :
  PyFloat.ok f = true -> reads_back (PFloat f) (PyFloat.repr f).
Proof.
  intros Hf. split; [apply repr_ascii; assumption|].
  assert (Hs : starts_value (PyFloat.repr f) = true
               /\ forall fuel rest,
                    scan_once (S fuel) (PyFloat.repr f ++ rest)
                    = scan_atom (PyFloat.repr f ++ rest)).
  { destruct f as [| | |d]; try (split; [reflexivity|];
      intros; apply scan_once_atom; discriminate).
    assert (Hn : number_start (PyFloat.dec_repr d) = true).
    { unfold PyFloat.dec_repr.
      destruct (digits_cons (PyFloat.int_part d)) as (c & cs & E & Hc).
      rewrite E. destruct (PyFloat.negative d); cbn [app number_start]; rewrite Hc.
      - apply orb_true_r.
      - reflexivity. }
    split; [apply number_start_value; assumption|].
    intros. apply number_scan_once. assumption. }
  destruct Hs as [Hs Hscan]. split; [assumption|]. split.
  - destruct (PyFloat.repr f); [discriminate|]. cbn. lia.
  - intros [|fuel] rest Hfu Hr; [cbn in Hfu; lia|].
    rewrite Hscan. apply scan_atom_float; assumption.
Qed.

Lemma reads_back_str (s : pystr) :
  wf s = true -> reads_back (PStr s) (encode_basestring_ascii s).
Proof.
  intros Hs. split; [apply encode_basestring_ascii_ascii|].
  split; [reflexivity|]. split; [cbn; lia|].
  intros [|fuel] rest Hf _; [cbn in Hf; lia|].
  unfold encode_basestring_ascii. cbn [app scan_once].
  change (34 =? 34) with true. cbv iota.
  rewrite <- app_assoc. cbn [app].
  rewrite scanstring_escaped by assumption. reflexivity.
Qed.

(** *** Lists *)

Definition items_size (l : list pyval) : nat :=
  fold_right (fun x n => S (size x + n)) O l.

Definition sep : pystr := [44; 32].

Lemma join_cons2 (t u : pystr) (ts : list pystr) :
  join sep (t :: u :: ts) = (t ++ sep ++ join sep (u :: ts))%list.
Proof. reflexivity. Qed.

Lemma join_starts (t : pystr) (ts : list pystr) :
  starts_value t = true -> starts_value (join sep (t :: ts)) = true.
Proof.
  intros H. destruct ts as [|u ts]; [assumption|]. rewrite join_cons2.
  destruct t; [discriminate|]. assumption.
Qed.

Lemma stops_comma (r : pystr) : stops (44 :: r) = true.
Proof. reflexivity. Qed.

Lemma parse_items_join (l : list pyval) (texts : list pystr) :
  Forall2 reads_back l texts -> l <> [] ->
  forall fuel rest, (items_size l <= fuel)%nat ->
    parse_items fuel (join sep texts ++ 93 :: rest) = Return (l, rest).
Proof.
  induction 1 as [|x t l' ts Hx Hl IH]; [congruence|]. intros _ fuel rest Hf.
  destruct Hx as (_ & _ & _ & Hscan).
  cbn [items_size fold_right] in Hf. fold (items_size l') in Hf.
  destruct fuel as [|fuel]; [lia|]. cbn [parse_items].
  destruct Hl as [|y u l'' ts' Hy Hl'].
  - cbn [join]. rewrite Hscan by (reflexivity || lia). reflexivity.
  - rewrite join_cons2, <- !app_assoc.
    rewrite Hscan by (reflexivity || lia).
    cbn [obind fst snd sep app skip_ws].
    change (is_ws 44) with false. cbv iota.
    change (44 =? 93) with false. change (44 =? 44) with true. cbv iota.
    cbn [skip_ws]. change (is_ws 32) with true. cbv iota.
    rewrite skip_ws_value.
    2:{ apply join_starts. destruct Hy as (_ & Hy & _). assumption. }
    rewrite IH by (congruence || lia). reflexivity.
Qed.

Lemma join_ascii (texts : list pystr) :
  Forall (fun t => forallb is_ascii t = true) texts ->
  forallb is_ascii (join sep texts) = true.
Proof.
  induction 1 as [|t ts Ht Hts IH]; [reflexivity|].
  destruct ts as [|u ts]; [assumption|].
  rewrite join_cons2, !forallb_app, Ht, IH. reflexivity.
Qed.

Lemma join_length (l : list pyval) (texts : list pystr) :
  Forall2 (fun v t => (size v <= List.length t)%nat) l texts -> l <> [] ->
  (items_size l <= S (List.length (join sep texts)))%nat.
Proof.
  induction 1 as [|x t l' ts Hx Hl IH]; [congruence|]. intros _.
  cbn [items_size fold_right]. fold (items_size l').
  destruct Hl as [|y u l'' ts' Hy Hl'].
  - cbn. lia.
  - rewrite join_cons2, !length_app. cbn [sep List.length].
    specialize (IH ltac:(congruence)). lia.
Qed.

Lemma map_outcome_texts {A} (f : A -> outcome pystr) (R : A -> pystr -> Prop)
      (l : list A) :
  Forall (fun x => exists t, f x = Return t /\ R x t) l ->
  exists texts, map_outcome f l = Return texts /\ Forall2 R l texts.
Proof.
  induction 1 as [|x l (t & Ht & Hx) Hl (texts & Hm & Hall)].
  - exists []. split; [reflexivity|constructor].
  - exists (t :: texts). split.
    + cbn [map_outcome]. cbn [map_outcome] in Hm. rewrite Ht. cbn [obind].
      rewrite Hm. reflexivity.
    + constructor; assumption.
Qed.

Lemma Forall2_weaken {A B} (R Q : A -> B -> Prop) (l : list A) (m : list B) :
  (forall a b, R a b -> Q a b) -> Forall2 R l m -> Forall2 Q l m.
Proof. intros H. induction 1; constructor; auto. Qed.

Lemma Forall2_right {A B} (R : A -> B -> Prop) (Q : B -> Prop)
      (l : list A) (m : list B) :
  (forall a b, R a b -> Q b) -> Forall2 R l m -> Forall Q m.
Proof. intros H. induction 1; constructor; eauto. Qed.

Lemma reads_back_list (l : list pyval) (texts : list pystr) :
  Forall2 reads_back l texts ->
  reads_back (PList l) (91 :: join sep texts ++ [93]).
Proof.
  intros H. split; [|split; [reflexivity|split]].
  - cbn [forallb]. rewrite forallb_app, join_ascii; [reflexivity|].
    eapply Forall2_right; [|exact H]. intros a b (Hb & _). exact Hb.
  - destruct l as [|x l'].
    + cbn. lia.
    + assert (Hl : (items_size (x :: l') <= S (List.length (join sep texts)))%nat).
      { apply join_length; [|congruence].
        eapply Forall2_weaken; [|exact H]. intros a b (_ & _ & Hb & _). exact Hb. }
      cbn [size]. fold (items_size (x :: l')).
      cbn [List.length]. rewrite length_app. cbn [List.length]. lia.
  - intros [|fuel] rest Hf _; [cbn in Hf; lia|].
    cbn [size] in Hf. fold (items_size l) in Hf.
    cbn [app scan_once]. change (91 =? 34) with false.
    change (91 =? 123) with false. change (91 =? 91) with true. cbv iota.
    rewrite <- app_assoc. cbn [app].
    destruct H as [|x t l' ts Hx Hl].
    + reflexivity.
    + assert (Hst : starts_value (join sep (t :: ts)) = true).
      { apply join_starts. destruct Hx as (_ & Hx & _). assumption. }
      rewrite skip_ws_value by assumption.
      pose proof (parse_items_join (x :: l') (t :: ts)
                    (Forall2_cons x t Hx Hl) ltac:(congruence)
                    fuel rest ltac:(lia)) as Hp.
      destruct (join sep (t :: ts)) as [|c1 r1] eqn:E; [discriminate|].
      cbn [app]. cbn [app] in Hp.
      cbn [starts_value] in Hst. rewrite !andb_true_iff, !negb_true_iff in Hst.
      destruct Hst as [[_ H93] _]. rewrite H93, Hp. reflexivity.
Qed.


(** *** Dictionaries *)

Definition members_size (d : list (pystr * pyval)) : nat :=
  fold_right (fun kv n => S (size (snd kv) + n)) O d.

(** The text of one member: the key, [': '], the value. *)
Definition member_reads (kv : pystr * pyval) (text : pystr) : Prop :=
  exists t, text = (encode_basestring_ascii (fst kv) ++ [58; 32] ++ t)%list
            /\ wf (fst kv) = true /\ reads_back (snd kv) t.

Lemma member_starts (kv : pystr * pyval) (text : pystr) :
  member_reads kv text -> exists r, text = 34 :: r.
Proof. intros (t & -> & _). eexists. reflexivity. Qed.

Lemma join_member_starts (kv : pystr * pyval) (t : pystr) (ts : list pystr) :
  member_reads kv t -> exists r, join sep (t :: ts) = 34 :: r.
Proof.
  intros H. destruct (member_starts kv t H) as [r ->].
  destruct ts as [|u ts]; [eexists; reflexivity|].
  rewrite join_cons2. eexists. reflexivity.
Qed.

Lemma parse_members_join (d : list (pystr * pyval)) (texts : list pystr) :
  Forall2 member_reads d texts -> d <> [] ->
  forall fuel rest, (members_size d <= fuel)%nat ->
    parse_members fuel (join sep texts ++ 125 :: rest) = Return (d, rest).
Proof.
  induction 1 as [|[k v] t d' ts Hx Hl IH]; [congruence|]. intros _ fuel rest Hf.
  destruct Hx as (tv & -> & Hk & (_ & Hstart & _ & Hscan)).
  cbn [fst snd] in *.
  cbn [members_size fold_right snd] in Hf. fold (members_size d') in Hf.
  destruct fuel as [|fuel]; [lia|].
  assert (Hone : forall tail, stops tail = true ->
            exists c r, tail = c :: r /\ is_ws c = false ->
            True).
  { intros. exists 0, []. trivial. }
  clear Hone.
  assert (Hmember : forall tail,
            stops tail = true ->
            parse_members (S fuel)
              ((encode_basestring_ascii k ++ [58; 32] ++ tv) ++ tail)
            = match skip_ws tail with
              | [] => Raise JSONDecodeError
              | c :: r =>
                  if c =? 125 then Return ([(k, v)], r)
                  else if c =? 44 then
                    obind (parse_members fuel (skip_ws r)) (fun m =>
                    Return ((k, v) :: fst m, snd m))
                  else Raise JSONDecodeError
              end).
  { intros tail Ht. unfold encode_basestring_ascii.
    rewrite <- !app_assoc. cbn [app parse_members].
    change (34 =? 34) with true. cbv iota.
    rewrite <- app_assoc. cbn [app].
    rewrite scanstring_escaped by assumption.
    cbn [obind fst snd skip_ws]. change (is_ws 58) with false. cbv iota.
    change (58 =? 58) with true. cbv iota.
    cbn [skip_ws]. change (is_ws 32) with true. cbv iota.
    rewrite skip_ws_value by assumption.
    rewrite Hscan by (assumption || lia). reflexivity. }
  destruct Hl as [|y u d'' ts' Hy Hl'].
  - cbn [join]. rewrite (Hmember (125 :: rest) eq_refl). reflexivity.
  - rewrite join_cons2.
    replace (((encode_basestring_ascii k ++ [58; 32] ++ tv)
              ++ sep ++ join sep (u :: ts')) ++ 125 :: rest)%list
      with ((encode_basestring_ascii k ++ [58; 32] ++ tv)
            ++ sep ++ join sep (u :: ts') ++ 125 :: rest)%list
      by (rewrite <- !app_assoc; reflexivity).
    rewrite Hmember by reflexivity.
    cbn [sep app skip_ws]. change (is_ws 44) with false. cbv iota.
    change (44 =? 125) with false. change (44 =? 44) with true. cbv iota.
    cbn [skip_ws]. change (is_ws 32) with true. cbv iota.
    destruct (join_member_starts y u ts' Hy) as [r Er].
    specialize (IH ltac:(congruence) fuel rest ltac:(lia)).
    rewrite Er in *. cbn [app skip_ws]. change (is_ws 34) with false. cbv iota.
    cbn [app] in IH. rewrite IH. reflexivity.
Qed.

Lemma members_length (d : list (pystr * pyval)) (texts : list pystr) :
  Forall2 (fun kv t => (size (snd kv) <= List.length t)%nat) d texts -> d <> [] ->
  (members_size d <= S (List.length (join sep texts)))%nat.
Proof.
  induction 1 as [|x t l' ts Hx Hl IH]; [congruence|]. intros _.
  cbn [members_size fold_right]. fold (members_size l').
  destruct Hl as [|y u l'' ts' Hy Hl'].
  - cbn. lia.
  - rewrite join_cons2, !length_app. cbn [sep List.length].
    specialize (IH ltac:(congruence)). lia.
Qed.

(** Building a dictionary from pairs with distinct keys gives the pairs. *)
Lemma get_app_absent {V} (a b : Dict.dict V) (k : pystr) :
  Dict.get a k = None -> Dict.get (a ++ b) k = Dict.get b k.
Proof.
  induction a as [|[k' v'] a IH]; [reflexivity|]. cbn [Dict.get app].
  destruct (PyStr.eqb k' k); [discriminate|]. assumption.
Qed.

Lemma mem_false {V} (d : Dict.dict V) (k : pystr) :
  Dict.mem d k = false <-> Dict.get d k = None.
Proof. unfold Dict.mem. destruct (Dict.get d k); split; congruence. Qed.

Lemma set_absent {V} (d : Dict.dict V) (k : pystr) (v : V) :
  Dict.get d k = None -> Dict.set d k v = (d ++ [(k, v)])%list.
Proof.
  induction d as [|[k' v'] d IH]; [reflexivity|]. cbn [Dict.get Dict.set app].
  destruct (PyStr.eqb k' k); [discriminate|]. intros H. rewrite IH by assumption.
  reflexivity.
Qed.

Lemma of_pairs_distinct_acc {V} (l acc : Dict.dict V) :
  Dict.distinct l = true ->
  (forall kv, In kv l -> Dict.get acc (fst kv) = None) ->
  fold_left (fun d kv => Dict.set d (fst kv) (snd kv)) l acc = (acc ++ l)%list.
Proof.
  revert acc. induction l as [|[k v] l IH]; intros acc Hd Hacc.
  - cbn. rewrite app_nil_r. reflexivity.
  - cbn [Dict.distinct] in Hd. apply andb_true_iff in Hd. destruct Hd as [Hk Hd].
    apply negb_true_iff, mem_false in Hk.
    cbn [fold_left fst snd].
    rewrite set_absent by (apply (Hacc (k, v)); left; reflexivity).
    rewrite IH; [rewrite <- app_assoc; reflexivity|assumption|].
    intros [k' v'] Hin. cbn [fst].
    rewrite get_app_absent by (apply (Hacc (k', v')); right; assumption).
    cbn [Dict.get]. destruct (PyStr.eqb k k') eqn:E; [|reflexivity].
    apply eqb_eq in E. subst k'. exfalso.
    clear -Hk Hin. induction l as [|[k2 v2] l IHl]; [contradiction|].
    cbn [Dict.get] in Hk. destruct (PyStr.eqb k2 k) eqn:E2; [discriminate|].
    destruct Hin as [Hin|Hin].
    + inversion Hin; subst. rewrite eqb_refl in E2. discriminate.
    + auto.
Qed.

Lemma of_pairs_distinct {V} (l : Dict.dict V) :
  Dict.distinct l = true -> Dict.of_pairs l = l.
Proof.
  intros H. unfold Dict.of_pairs. rewrite of_pairs_distinct_acc; auto.
Qed.

Lemma member_ascii (kv : pystr * pyval) (t : pystr) :
  member_reads kv t -> forallb is_ascii t = true.
Proof.
  intros (tv & -> & _ & (Ha & _)).
  rewrite !forallb_app, encode_basestring_ascii_ascii, Ha. reflexivity.
Qed.

Lemma reads_back_dict (d : list (pystr * pyval)) (texts : list pystr) :
  Dict.distinct d = true ->
  Forall2 member_reads d texts ->
  reads_back (PDict d) (123 :: join sep texts ++ [125]).
Proof.
  intros Hd H. split; [|split; [reflexivity|split]].
  - cbn [forallb]. rewrite forallb_app, join_ascii; [reflexivity|].
    eapply Forall2_right; [|exact H]. intros a b. apply member_ascii.
  - destruct d as [|x d'].
    + cbn. lia.
    + assert (Hl : (members_size (x :: d') <= S (List.length (join sep texts)))%nat).
      { apply members_length; [|congruence].
        eapply Forall2_weaken; [|exact H].
        intros a b (tv & -> & _ & (_ & _ & Hb & _)).
        rewrite !length_app. lia. }
      cbn [size]. fold (members_size (x :: d')).
      cbn [List.length]. rewrite length_app. cbn [List.length]. lia.
  - intros [|fuel] rest Hf _; [cbn in Hf; lia|].
    cbn [size] in Hf. fold (members_size d) in Hf.
    cbn [app scan_once]. change (123 =? 34) with false.
    change (123 =? 123) with true. cbv iota.
    rewrite <- app_assoc. cbn [app].
    destruct H as [|x t d' ts Hx Hl].
    + reflexivity.
    + pose proof (parse_members_join (x :: d') (t :: ts)
                    (Forall2_cons x t Hx Hl) ltac:(congruence)
                    fuel rest ltac:(lia)) as Hp.
      destruct (join_member_starts x t ts Hx) as [r Er].
      rewrite Er in *. cbn [app skip_ws]. change (is_ws 34) with false.
      cbv iota. change (34 =? 125) with false. cbv iota.
      cbn [app] in Hp. rewrite Hp. cbn [obind fst snd].
      rewrite of_pairs_distinct by assumption. reflexivity.
Qed.

(** *** Every valid value *)

Theorem dumps_reads_back (v : pyval) :
  valid v = true -> exists text, dumps v = Return text /\ reads_back v text.
Proof.
  induction v as [ |b|z|f|s|l IH|d IH|t] using pyval_nested_ind; intros Hv.
  - exists (lit "null"). split; [reflexivity|apply reads_back_none].
  - exists (if b then lit "true" else lit "false").
    split; [destruct b; reflexivity|apply reads_back_bool].
  - exists (int_repr z). split; [reflexivity|apply reads_back_int].
  - exists (PyFloat.repr f). split; [reflexivity|apply reads_back_float; exact Hv].
  - exists (encode_basestring_ascii s).
    split; [reflexivity|apply reads_back_str; exact Hv].
  - cbn [valid] in Hv.
    destruct (map_outcome_texts dumps reads_back l) as (texts & Hm & Hall).
    { rewrite forallb_forall in Hv. rewrite Forall_forall in *.
      intros x Hx. apply IH; auto. }
    exists (91 :: join sep texts ++ [93])%list. split.
    + cbn [dumps]. rewrite Hm. reflexivity.
    + apply reads_back_list. assumption.
  - cbn [valid] in Hv. apply andb_true_iff in Hv. destruct Hv as [Hv Hd].
    destruct (map_outcome_texts
                (fun kv => obind (dumps (snd kv)) (fun t =>
                   Return (encode_basestring_ascii (fst kv) ++ lit ": " ++ t)%list))
                member_reads d) as (texts & Hm & Hall).
    { rewrite forallb_forall in Hv. rewrite Forall_forall in *.
      intros x Hx. specialize (Hv x Hx). apply andb_true_iff in Hv.
      destruct Hv as [Hk Hx']. destruct (IH x Hx Hx') as (t & Ht & Hr).
      exists (encode_basestring_ascii (fst x) ++ lit ": " ++ t)%list.
      split; [rewrite Ht; reflexivity|]. exists t. auto. }
    exists (123 :: join sep texts ++ [125])%list. split.
    + cbn [dumps]. rewrite Hm. reflexivity.
    + apply reads_back_dict; assumption.
  - discriminate.
Qed.

Lemma has_bom_ascii (text : pystr) :
  forallb is_ascii text = true -> has_bom text = false.
Proof.
  destruct text as [|c r]; [reflexivity|]. cbn [forallb has_bom].
  rewrite andb_true_iff. unfold is_ascii. rewrite N.ltb_lt. intros [H _].
  apply N.eqb_neq. lia.
Qed.

Theorem loads_dumps (v : pyval) :
  valid v = true ->
  exists text, dumps v = Return text
               /\ forallb is_ascii text = true
               /\ loads text = Return v.
Proof.
  intros Hv. destruct (dumps_reads_back v Hv) as (text & Hd & Ha & Hs & Hl & Hscan).
  exists text. split; [assumption|]. split; [assumption|].
  unfold loads. rewrite has_bom_ascii by assumption.
  specialize (Hscan (S (2 * List.length text)) [] ltac:(lia) eq_refl).
  rewrite app_nil_r in Hscan.
  pose proof (skip_ws_value text [] Hs) as Hw. rewrite app_nil_r in Hw.
  rewrite Hw, Hscan. reflexivity.
Qed.

End JsonRoundTrip.

(** ** The message body: UTF-8 around the JSON text *)

Module CodecFacts.

Import JsonStringFacts JsonRoundTrip.
Local Open Scope N_scope.

Lemma to_N_byte_of (c : N) : c < 256 -> Byte.to_N (Utf8.byte_of c) = c.
Proof.
  intros H. unfold Utf8.byte_of. destruct (Byte.of_N c) as [x|] eqn:E.
  - apply Byte.to_of_N. assumption.
  - apply Byte.of_N_None_iff in E. lia.
Qed.

Lemma encode_ascii (text : pystr) :
  forallb is_ascii text = true ->
  Utf8.encode text = Return (map Utf8.byte_of text).
Proof.
  induction text as [|c r IH]; [reflexivity|]. cbn [forallb].
  rewrite andb_true_iff. intros [Hc Hr]. cbn [Utf8.encode map].
  unfold Utf8.encode_codepoint. unfold is_ascii in Hc. rewrite Hc.
  cbn [obind]. rewrite IH by assumption. reflexivity.
Qed.

Lemma decode_ascii (text : pystr) :
  forallb is_ascii text = true ->
  Utf8.decode (map Utf8.byte_of text) = Return text.
Proof.
  induction text as [|c r IH]; [reflexivity|]. cbn [forallb].
  rewrite andb_true_iff. intros [Hc Hr]. cbn [Utf8.decode map].
  unfold is_ascii in Hc. pose proof Hc as Hc'. apply N.ltb_lt in Hc'.
  rewrite to_N_byte_of by lia. rewrite Hc, IH by assumption. reflexivity.
Qed.

(** Decoding what was encoded gives the value back. *)
Lemma decode_encode (v : pyval) :
  valid v = true ->
  exists message_body,
    Json.encode v = Return message_body
    /\ Json.decode message_body = Return v.
Proof.
  intros Hv. destruct (loads_dumps v Hv) as (text & Hd & Ha & Hl).
  exists (map Utf8.byte_of text). unfold Json.encode, Json.decode.
  rewrite Hd. cbn [obind]. rewrite encode_ascii, decode_ascii by assumption.
  split; [reflexivity|exact Hl].
Qed.

End CodecFacts.

(** ** The scanner never runs out of fuel *)

Module ScannerFacts.

Local Open Scope N_scope.

(** What a scanner gives on a text: an error that is [JSONDecodeError],
    or a value and what is left of the text, which is shorter. *)
Definition consumes {A : Type} (s : pystr) (o : outcome (A * pystr)) : Prop :=
  match o with
  | Return p => (List.length (snd p) < List.length s)%nat
  | Raise e => e = JSONDecodeError
  end.

Lemma skip_ws_length (s : pystr) :
  (List.length (skip_ws s) <= List.length s)%nat.
Proof.
  induction s as [|c s IH]; [apply le_n|]. cbn [skip_ws].
  destruct (is_ws c); cbn [List.length]; lia.
Qed.

Lemma skip_ws_cons (s r : pystr) (c : N) :
  skip_ws s = c :: r -> (List.length r < List.length s)%nat.
Proof.
  intros H. pose proof (skip_ws_length s) as L. rewrite H in L.
  cbn [List.length] in L. lia.
Qed.

Lemma strip_prefix_length (p s r : pystr) :
  strip_prefix p s = Some r ->
  (List.length s = List.length p + List.length r)%nat.
Proof.
  revert s. induction p as [|x p IH]; intros s H.
  - cbn in H. injection H as <-. reflexivity.
  - destruct s as [|y s]; [discriminate|]. cbn [strip_prefix] in H.
    destruct (N.eqb x y); [|discriminate].
    apply IH in H. cbn [List.length]. lia.
Qed.

Lemma span_digits_length (s : pystr) :
  (List.length (snd (span_digits s)) <= List.length s)%nat.
Proof.
  induction s as [|c s IH]; [apply le_n|]. cbn [span_digits].
  destruct (PyFloat.is_digit c); [|apply le_n].
  destruct (span_digits s) as [ds r]. cbn [snd List.length] in *. lia.
Qed.

Lemma lex_sign_length (s : pystr) :
  (List.length (snd (lex_sign s)) <= List.length s)%nat.
Proof.
  destruct s as [|c s]; [apply le_n|]. cbn [lex_sign].
  destruct (c =? 45); cbn [snd List.length]; lia.
Qed.

Lemma lex_int_shorter (s ip r : pystr) :
  lex_int s = Some (ip, r) -> (List.length r < List.length s)%nat.
Proof.
  destruct s as [|d s]; [discriminate|]. cbn [lex_int].
  destruct ((49 <=? d) && (d <=? 57)).
  - pose proof (span_digits_length s) as L.
    destruct (span_digits s) as [ds r']. intros H. injection H as _ <-.
    cbn [snd List.length] in *. lia.
  - destruct (d =? 48); [|discriminate]. intros H. injection H as _ <-.
    cbn [List.length]. lia.
Qed.

Lemma lex_frac_length (s : pystr) :
  (List.length (snd (lex_frac s)) <= List.length s)%nat.
Proof.
  destruct s as [|dot [|f r]]; try apply le_n. cbn [lex_frac].
  destruct ((dot =? 46) && PyFloat.is_digit f); [|apply le_n].
  pose proof (span_digits_length r) as L.
  destruct (span_digits r) as [fs r']. cbn [snd List.length] in *. lia.
Qed.

Lemma lex_exp_length (s : pystr) :
  (List.length (snd (lex_exp s)) <= List.length s)%nat.
Proof.
  destruct s as [|e a]; [apply le_n|]. cbn [lex_exp].
  destruct ((e =? 101) || (e =? 69)); [|apply le_n].
  destruct a as [|c a'].
  - cbn. lia.
  - destruct (c =? 45); [|destruct (c =? 43)].
    + pose proof (span_digits_length a') as L.
      destruct (span_digits a') as [ds r]. cbn [snd] in L.
      destruct ds; cbn [snd List.length]; lia.
    + pose proof (span_digits_length a') as L.
      destruct (span_digits a') as [ds r]. cbn [snd] in L.
      destruct ds; cbn [snd List.length]; lia.
    + pose proof (span_digits_length (c :: a')) as L.
      destruct (span_digits (c :: a')) as [ds r]. cbn [snd] in L.
      destruct ds; cbn [snd List.length] in *; lia.
Qed.

Lemma match_number_shorter (s r : pystr) (v : pyval) :
  match_number s = Some (v, r) -> (List.length r < List.length s)%nat.
Proof.
  unfold match_number.
  pose proof (lex_sign_length s) as L0.
  destruct (lex_sign s) as [neg s1]. cbn [snd] in L0.
  destruct (lex_int s1) as [[ip r0]|] eqn:Ei; [|discriminate].
  apply lex_int_shorter in Ei.
  pose proof (lex_frac_length r0) as L1.
  destruct (lex_frac r0) as [frac r1]. cbn [snd] in L1.
  pose proof (lex_exp_length r1) as L2.
  destruct (lex_exp r1) as [ex r2]. cbn [snd] in L2.
  destruct frac, ex; intros H; injection H as _ <-; lia.
Qed.

Lemma keyword_shorter (kw : string) (v x : pyval) (s r : pystr) :
  kw <> EmptyString ->
  keyword kw v s = Some (x, r) -> (List.length r < List.length s)%nat.
Proof.
  intros Hk. unfold keyword.
  destruct (strip_prefix (lit kw) s) as [r'|] eqn:E; [|discriminate].
  intros H. injection H as _ <-. apply strip_prefix_length in E.
  destruct kw as [|c kw]; [congruence|].
  unfold lit in E. cbn [list_ascii_of_string map List.length] in E. lia.
Qed.

Lemma scan_atom_consumes (s : pystr) : consumes s (scan_atom s).
Proof.
  unfold scan_atom, consumes, or_else.
  destruct (keyword "null" PNone s) as [[x r]|] eqn:K1.
  { apply keyword_shorter in K1; [assumption|discriminate]. }
  destruct (keyword "true" (PBool true) s) as [[x r]|] eqn:K2.
  { apply keyword_shorter in K2; [assumption|discriminate]. }
  destruct (keyword "false" (PBool false) s) as [[x r]|] eqn:K3.
  { apply keyword_shorter in K3; [assumption|discriminate]. }
  destruct (keyword "NaN" (PFloat PyFloat.NaN) s) as [[x r]|] eqn:K4.
  { apply keyword_shorter in K4; [assumption|discriminate]. }
  destruct (keyword "Infinity" (PFloat PyFloat.Infinity) s) as [[x r]|] eqn:K5.
  { apply keyword_shorter in K5; [assumption|discriminate]. }
  destruct (keyword "-Infinity" (PFloat PyFloat.NegInfinity) s) as [[x r]|] eqn:K6.
  { apply keyword_shorter in K6; [assumption|discriminate]. }
  destruct (match_number s) as [[x r]|] eqn:M; [|reflexivity].
  apply match_number_shorter in M. assumption.
Qed.

Lemma cons_char_consumes (c : N) (s s' : pystr) :
  (List.length s' < List.length s)%nat ->
  consumes s' (scanstring s') -> consumes s (cons_char c (scanstring s')).
Proof.
  unfold consumes, cons_char. intros L.
  destruct (scanstring s') as [p|e]; cbn [obind snd]; [lia|auto].
Qed.

Lemma scanstring_consumes_upto (n : nat) :
  forall s, (List.length s <= n)%nat -> consumes s (scanstring s).
Proof.
  induction n as [|n IH]; intros s Hs.
  - destruct s; [reflexivity|cbn in Hs; lia].
  - assert (R : forall c s', (S (List.length s') <= List.length s)%nat ->
                  consumes s (cons_char c (scanstring s'))).
    { intros c s' L. apply cons_char_consumes; [lia|]. apply IH. lia. }
    destruct s as [|c s1]; [reflexivity|]. cbn [scanstring].
    destruct (c =? 34); [cbn; lia|].
    destruct (c =? 92).
    + destruct s1 as [|e s2]; [reflexivity|].
      destruct (e =? 117).
      * destruct s2 as [|h1 [|h2 [|h3 [|h4 s3]]]]; try reflexivity.
        destruct (hex4_val h1 h2 h3 h4) as [u|]; [|reflexivity].
        destruct (is_high_surrogate u); [|apply R; cbn; lia].
        destruct s3 as [|b [|u' [|g1 [|g2 [|g3 [|g4 s4]]]]]];
          try (apply R; cbn; lia).
        destruct ((b =? 92) && (u' =? 117)); [|apply R; cbn; lia].
        destruct (hex4_val g1 g2 g3 g4) as [u2|]; [|reflexivity].
        destruct (is_low_surrogate u2); apply R; cbn; lia.
      * destruct (unescape e); [apply R; cbn; lia|reflexivity].
    + destruct (c <=? 31); [reflexivity|]. apply R. cbn. lia.
Qed.

Lemma scanstring_consumes (s : pystr) : consumes s (scanstring s).
Proof. apply (scanstring_consumes_upto (List.length s)). apply le_n. Qed.

(** Two units of fuel for each character are enough: a list or a
    dictionary takes one for itself and one for its first element, and
    has read one character by then. *)
Lemma scan_fuel_enough (fuel : nat) :
  (forall s, (2 * List.length s < fuel)%nat -> consumes s (scan_once fuel s))
  /\ (forall s, (2 * List.length s + 1 < fuel)%nat ->
        consumes s (parse_items fuel s))
  /\ (forall s, (2 * List.length s + 1 < fuel)%nat ->
        consumes s (parse_members fuel s)).
Proof.
  induction fuel as [|fuel (IHs & IHi & IHm)].
  { repeat split; intros s H; lia. }
  split; [|split]; intros s Hf.
  - destruct s as [|c s']; [reflexivity|]. cbn [scan_once].
    destruct (c =? 34).
    { pose proof (scanstring_consumes s') as H. unfold consumes in *.
      destruct (scanstring s') as [p|e]; cbn [obind snd List.length] in *;
        [lia|assumption]. }
    destruct (c =? 123).
    { destruct (skip_ws s') as [|c1 r1] eqn:W; [reflexivity|].
      pose proof (skip_ws_length s') as L. rewrite W in L.
      destruct (c1 =? 125).
      - cbn [consumes snd List.length] in *. lia.
      - assert (H : consumes (c1 :: r1) (parse_members fuel (c1 :: r1))).
        { apply IHm. cbn [List.length] in *. lia. }
        unfold consumes in *.
        destruct (parse_members fuel (c1 :: r1)) as [p|e];
          cbn [obind snd List.length] in *; [lia|assumption]. }
    destruct (c =? 91).
    { destruct (skip_ws s') as [|c1 r1] eqn:W; [reflexivity|].
      pose proof (skip_ws_length s') as L. rewrite W in L.
      destruct (c1 =? 93).
      - cbn [consumes snd List.length] in *. lia.
      - assert (H : consumes (c1 :: r1) (parse_items fuel (c1 :: r1))).
        { apply IHi. cbn [List.length] in *. lia. }
        unfold consumes in *.
        destruct (parse_items fuel (c1 :: r1)) as [p|e];
          cbn [obind snd List.length] in *; [lia|assumption]. }
    apply scan_atom_consumes.
  - cbn [parse_items].
    assert (H : consumes s (scan_once fuel s)) by (apply IHs; lia).
    unfold consumes in H |- *.
    destruct (scan_once fuel s) as [p|e]; cbn [obind]; [|assumption].
    destruct (skip_ws (snd p)) as [|c r] eqn:W; [reflexivity|].
    apply skip_ws_cons in W.
    destruct (c =? 93); [cbn [snd]; lia|].
    destruct (c =? 44); [|reflexivity].
    pose proof (skip_ws_length r) as L.
    assert (H' : consumes (skip_ws r) (parse_items fuel (skip_ws r)))
      by (apply IHi; lia).
    unfold consumes in H'.
    destruct (parse_items fuel (skip_ws r)) as [q|e]; cbn [obind snd];
      [lia|assumption].
  - cbn [parse_members].
    destruct s as [|q s1]; [reflexivity|].
    destruct (q =? 34); [|reflexivity].
    pose proof (scanstring_consumes s1) as K. unfold consumes in K |- *.
    destruct (scanstring s1) as [k|e]; cbn [obind]; [|assumption].
    destruct (skip_ws (snd k)) as [|colon s2] eqn:W; [reflexivity|].
    apply skip_ws_cons in W.
    destruct (colon =? 58); [|reflexivity].
    pose proof (skip_ws_length s2) as L2.
    assert (H : consumes (skip_ws s2) (scan_once fuel (skip_ws s2))).
    { apply IHs. cbn [List.length] in Hf. lia. }
    unfold consumes in H.
    destruct (scan_once fuel (skip_ws s2)) as [p|e]; cbn [obind]; [|assumption].
    destruct (skip_ws (snd p)) as [|c r] eqn:W'; [reflexivity|].
    apply skip_ws_cons in W'.
    destruct (c =? 125); [cbn [snd List.length]; lia|].
    destruct (c =? 44); [|reflexivity].
    pose proof (skip_ws_length r) as L.
    assert (H' : consumes (skip_ws r) (parse_members fuel (skip_ws r))).
    { apply IHm. cbn [List.length] in Hf. lia. }
    unfold consumes in H'.
    destruct (parse_members fuel (skip_ws r)) as [m|e]; cbn [obind snd List.length];
      [lia|assumption].
Qed.

(** [json.loads] raises nothing but [JSONDecodeError]: the fuel of the
    scanner never runs out. *)
Lemma loads_error (text : pystr) (e : exn) :
  loads text = Raise e -> e = JSONDecodeError.
Proof.
  unfold loads. destruct (has_bom text); [congruence|].
  pose proof (skip_ws_length text) as L.
  destruct (scan_fuel_enough (S (2 * List.length text))) as (H & _ & _).
  specialize (H (skip_ws text) ltac:(lia)). unfold consumes in H.
  destruct (scan_once _ (skip_ws text)) as [p|e']; cbn [obind].
  - destruct (skip_ws (snd p)); congruence.
  - congruence.
Qed.

Lemma utf8_decode_error (bs : Utf8.bytes) (e : exn) :
  Utf8.decode bs = Raise e -> e = UnicodeDecodeError.
Proof.
  assert (P : forall (c : N) (o : outcome pystr),
            (forall e, o = Raise e -> e = UnicodeDecodeError) ->
            forall e, Utf8.push c o = Raise e -> e = UnicodeDecodeError).
  { intros c o H e0. destruct o; cbn; [discriminate|]. intros E. apply H.
    congruence. }
  revert e.
  assert (G : forall n bs, (List.length bs <= n)%nat ->
            forall e, Utf8.decode bs = Raise e -> e = UnicodeDecodeError).
  { clear bs. induction n as [|n IH]; intros bs Hn e.
    - destruct bs; [discriminate|cbn in Hn; lia].
    - destruct bs as [|b0 r0]; [discriminate|]. cbn [Utf8.decode]. cbv zeta.
      cbn [List.length] in Hn.
      destruct (Byte.to_N b0 <? 128).
      { apply P. apply IH. lia. }
      destruct (Utf8.between 194 223 b0).
      { destruct r0 as [|b1 r1]; [congruence|].
        destruct (Utf8.between 128 191 b1); [|congruence].
        apply P. apply IH. cbn [List.length] in Hn. lia. }
      destruct (Utf8.between 224 239 b0).
      { destruct r0 as [|b1 [|b2 r2]]; try congruence.
        destruct (_ && _); [|congruence].
        apply P. apply IH. cbn [List.length] in Hn. lia. }
      destruct (Utf8.between 240 244 b0); [|congruence].
      destruct r0 as [|b1 [|b2 [|b3 r3]]]; try congruence.
      destruct (_ && _); [|congruence].
      apply P. apply IH. cbn [List.length] in Hn. lia. }
  apply (G (List.length bs)). apply le_n.
Qed.

(** [json.loads(body.decode())] raises [UnicodeDecodeError] or
    [JSONDecodeError] and nothing else. *)
Lemma decode_error (body : Utf8.bytes) (e : exn) :
  Json.decode body = Raise e ->
  e = UnicodeDecodeError \/ e = JSONDecodeError.
Proof.
  unfold Json.decode. destruct (Utf8.decode body) as [text|e'] eqn:U; cbn [obind].
  - intros H. right. eapply loads_error. eassumption.
  - intros H. left. apply (utf8_decode_error body). congruence.
Qed.

End ScannerFacts.

(** ** Dictionaries *)

Module DictFacts.

Import PyStrFacts.

Section Alter.

Context {V : Type}.
Implicit Types (d : Dict.dict V) (k : list N) (f g : V -> V).

Lemma get_alter_same f d k :
  Dict.get (Dict.alter f d k) k = option_map f (Dict.get d k).
Proof.
  induction d as [|[k' v'] d IH]; [reflexivity|]. cbn [Dict.alter Dict.get].
  destruct (PyStr.eqb k' k) eqn:E; cbn [Dict.get]; rewrite E; auto.
Qed.

Lemma get_alter_other f d k k' :
  k' <> k -> Dict.get (Dict.alter f d k) k' = Dict.get d k'.
Proof.
  intros Hk. induction d as [|[k2 v2] d IH]; [reflexivity|].
  cbn [Dict.alter Dict.get].
  destruct (PyStr.eqb k2 k) eqn:E; cbn [Dict.get]; [|rewrite IH; reflexivity].
  apply eqb_eq in E. subst k2.
  destruct (PyStr.eqb k k') eqn:E'; [|reflexivity].
  apply eqb_eq in E'. congruence.
Qed.

Lemma alter_alter f g d k :
  Dict.alter f (Dict.alter g d k) k = Dict.alter (fun a => f (g a)) d k.
Proof.
  induction d as [|[k' v'] d IH]; [reflexivity|]. cbn [Dict.alter].
  destruct (PyStr.eqb k' k) eqn:E; cbn [Dict.alter]; rewrite E;
    [reflexivity|rewrite IH; reflexivity].
Qed.

Lemma alter_ext f g d k :
  (forall a, Dict.get d k = Some a -> f a = g a) ->
  Dict.alter f d k = Dict.alter g d k.
Proof.
  induction d as [|[k' v'] d IH]; [reflexivity|]. cbn [Dict.alter Dict.get].
  destruct (PyStr.eqb k' k) eqn:E; intros H.
  - rewrite H by reflexivity. reflexivity.
  - rewrite IH by assumption. reflexivity.
Qed.

Lemma alter_same d k :
  Dict.alter (fun a => a) d k = d.
Proof.
  induction d as [|[k' v'] d IH]; [reflexivity|]. cbn [Dict.alter].
  destruct (PyStr.eqb k' k); [reflexivity|rewrite IH; reflexivity].
Qed.

Lemma alter_absent f d k : Dict.get d k = None -> Dict.alter f d k = d.
Proof.
  intros H. rewrite <- (alter_same d k) at 2. apply alter_ext.
  intros a Ha. congruence.
Qed.

Lemma keys_alter f d k : Dict.keys (Dict.alter f d k) = Dict.keys d.
Proof.
  unfold Dict.keys. induction d as [|[k' v'] d IH]; [reflexivity|].
  cbn [Dict.alter]. destruct (PyStr.eqb k' k); cbn [map fst]; congruence.
Qed.

Lemma get_keys d k : Dict.get d k <> None <-> In k (Dict.keys d).
Proof.
  unfold Dict.keys. induction d as [|[k' v'] d IH]; cbn [Dict.get map fst In].
  - tauto.
  - destruct (PyStr.eqb k' k) eqn:E.
    + apply eqb_eq in E. split; [auto|discriminate].
    + apply eqb_neq in E. rewrite IH. tauto.
Qed.

Lemma Forall_alter (P : V -> Prop) f d k :
  (forall a, P a -> P (f a)) ->
  Forall (fun kv => P (snd kv)) d ->
  Forall (fun kv => P (snd kv)) (Dict.alter f d k).
Proof.
  intros Hf. induction 1 as [|[k' v'] d Hv Hd IH]; [constructor|].
  cbn [Dict.alter]. destruct (PyStr.eqb k' k); constructor; auto.
  apply Hf. assumption.
Qed.

Lemma Forall_set (P : V -> Prop) d k (v : V) :
  P v ->
  Forall (fun kv => P (snd kv)) d ->
  Forall (fun kv => P (snd kv)) (Dict.set d k v).
Proof.
  intros Hv. induction 1 as [|[k' v'] d Hv' Hd IH].
  - repeat constructor. assumption.
  - cbn [Dict.set]. destruct (PyStr.eqb k' k); constructor; auto.
Qed.

Lemma get_set_same d k (v : V) : Dict.get (Dict.set d k v) k = Some v.
Proof.
  induction d as [|[k' v'] d IH]; cbn [Dict.set Dict.get].
  - rewrite eqb_refl. reflexivity.
  - destruct (PyStr.eqb k' k) eqn:E; cbn [Dict.get]; rewrite E; auto.
Qed.

Lemma get_set_other d k k' (v : V) :
  k' <> k -> Dict.get (Dict.set d k v) k' = Dict.get d k'.
Proof.
  intros Hk. induction d as [|[k2 v2] d IH]; cbn [Dict.set Dict.get].
  - destruct (PyStr.eqb k k') eqn:E; [|reflexivity].
    apply eqb_eq in E. congruence.
  - destruct (PyStr.eqb k2 k) eqn:E; cbn [Dict.get]; [|rewrite IH; reflexivity].
    apply eqb_eq in E. subst k2.
    destruct (PyStr.eqb k k') eqn:E'; [|reflexivity].
    apply eqb_eq in E'. congruence.
Qed.

Lemma get_In d k (v : V) : Dict.get d k = Some v -> In (k, v) d.
Proof.
  induction d as [|[k' v'] d IH]; [discriminate|]. cbn [Dict.get].
  destruct (PyStr.eqb k' k) eqn:E.
  - apply eqb_eq in E. intros H. inversion H; subst. left. reflexivity.
  - intros H. right. auto.
Qed.

End Alter.

Lemma is_str_true (v : pyval) (s : list N) : is_str v s = true <-> v = PStr s.
Proof.
  destruct v; cbn [is_str]; try (split; [discriminate|congruence]).
  rewrite eqb_eq. split; congruence.
Qed.

End DictFacts.

(** ** datetime texts are plain digits and punctuation *)

Module DateTimeFacts.

Import PyStrFacts.

Lemma digit_is_digit (d : Z) : PyFloat.is_digit (DateTime.digit d) = true.
Proof.
  unfold PyFloat.is_digit, DateTime.digit.
  rewrite andb_true_iff, !N.leb_le. lia.
Qed.

Lemma zero_padded_digits (w : nat) (n : Z) :
  forallb PyFloat.is_digit (DateTime.zero_padded w n) = true.
Proof.
  revert n. induction w as [|w IH]; intros n; [reflexivity|].
  cbn [DateTime.zero_padded]. rewrite forallb_app, IH. cbn [forallb].
  rewrite digit_is_digit. reflexivity.
Qed.

Lemma digits_wf (ds : list N) :
  forallb PyFloat.is_digit ds = true -> wf ds = true.
Proof.
  unfold wf. rewrite !forallb_forall. intros H c Hc. specialize (H c Hc).
  unfold PyFloat.is_digit in H. rewrite andb_true_iff, !N.leb_le in H.
  unfold scalar. rewrite andb_true_iff, orb_true_iff, !N.ltb_lt. lia.
Qed.

Lemma wf_app (a b : list N) : wf (a ++ b) = wf a && wf b.
Proof. apply forallb_app. Qed.

Lemma zero_padded_wf (w : nat) (n : Z) : wf (DateTime.zero_padded w n) = true.
Proof. apply digits_wf, zero_padded_digits. Qed.

Lemma isoformat_wf (t : DateTime.datetime) : wf (DateTime.isoformat t) = true.
Proof.
  unfold DateTime.isoformat.
  destruct (DateTime.microsecond (DateTime.to_fields t) =? 0)%Z;
    rewrite !wf_app, !zero_padded_wf; reflexivity.
Qed.

Lemma strftime_compact_wf (t : DateTime.datetime) :
  wf (DateTime.strftime_compact t) = true.
Proof.
  unfold DateTime.strftime_compact. rewrite !wf_app, !zero_padded_wf. reflexivity.
Qed.

Lemma drop_zeros_digits (ds : list N) :
  forallb PyFloat.is_digit ds = true ->
  forallb PyFloat.is_digit (DateTime.drop_zeros ds) = true.
Proof.
  induction ds as [|c r IH]; [reflexivity|]. intros H. cbn [DateTime.drop_zeros].
  destruct (N.eqb c 48); [|assumption].
  apply IH. cbn [forallb] in H. apply andb_true_iff in H. tauto.
Qed.

Lemma forallb_rev {A} (p : A -> bool) (l : list A) :
  forallb p (rev l) = forallb p l.
Proof.
  induction l as [|x l IH]; [reflexivity|]. cbn [rev forallb].
  rewrite forallb_app, IH. cbn [forallb]. rewrite andb_true_r. apply andb_comm.
Qed.

(** [total_seconds] always builds a float. *)
Lemma total_seconds_ok (us : Z) : PyFloat.ok (DateTime.total_seconds us) = true.
Proof.
  unfold DateTime.total_seconds.
  destruct ((0 <? Z.abs us) && (Z.abs us <? 10))%Z; [reflexivity|].
  destruct ((0 <? Z.abs us) && (Z.abs us <? 100))%Z.
  - cbn [PyFloat.ok]. unfold PyFloat.dec_ok. cbn [PyFloat.frac_part PyFloat.exp_part].
    destruct (Z.abs us mod 10 =? 0)%Z; [reflexivity|].
    cbn [forallb]. rewrite digit_is_digit. reflexivity.
  - cbn [PyFloat.ok]. unfold PyFloat.dec_ok. cbn [PyFloat.frac_part PyFloat.exp_part].
    set (frac := rev (DateTime.drop_zeros (rev (DateTime.zero_padded 6 (Z.abs us mod 1000000))))).
    assert (Hf : forallb PyFloat.is_digit frac = true).
    { subst frac. rewrite forallb_rev. apply drop_zeros_digits.
      rewrite forallb_rev. apply zero_padded_digits. }
    destruct frac as [|c r]; [reflexivity|]. rewrite Hf. reflexivity.
Qed.

End DateTimeFacts.

(** ** The orchestrator: what each coroutine does to the object and to the world *)

Module OrchestratorFacts.

Import Orchestrator PyStrFacts DictFacts.

Local Arguments lit : simpl never.
Local Arguments _publish_system_event : simpl never.
Local Arguments DateTime.isoformat : simpl never.
Local Arguments DateTime.total_seconds : simpl never.
Local Arguments Json.encode : simpl never.
Local Arguments Json.decode : simpl never.

(** The dictionary [_publish_system_event] sends. *)
Definition event_message (event_type : list N) (t : DateTime.datetime)
           (data : pyval) : pyval :=
  PDict [(lit "event_type", PStr event_type);
         (lit "agent_source", PStr (lit "orchestrator"));
         (lit "timestamp", PStr (DateTime.isoformat t));
         (lit "data", data)].

Definition broadcast (b : list byte) : Delivery :=
  {| exchange_name := lit "jarvis.events"; routing_key := []; body := b |}.

(** The world after [_publish_system_event] on a set exchange. *)
Definition published_world (event_type : list N) (data : pyval) (w : World)
  : World :=
  match Json.encode (event_message event_type (clock w (ticks w)) data) with
  | Raise e => add_log (ERROR, EventPublishError e) (tick w)
  | Return b =>
      if is_closed w
      then add_log (ERROR, EventPublishError ChannelInvalidStateError) (tick w)
      else if accepts w (publishes w)
           then attempt (broadcast b) (tick w)
           else add_log (ERROR, EventPublishError DeliveryError)
                  (attempt (broadcast b) (tick w))
  end.

Lemma publish_system_event_run (event_type : list N) (data : pyval)
      (o : JarvisOrchestrator) :
  _publish_system_event event_type data o
  = (Return tt,
     if exchange o then set_env (published_world event_type data (env o)) o
     else o).
Proof.
  destruct o as [ag ss st cn ch ex mq sh ea w].
  unfold _publish_system_event, published_world, event_message, broadcast,
    try_except, bind, gets, lift, now, publish, on_world, modify, log, ret, raise.
  cbn. destruct ex; cbn; [|reflexivity].
  destruct (Json.encode _) as [b|e]; cbn; [|reflexivity].
  destruct (is_closed w); cbn; [reflexivity|].
  destruct (accepts w (publishes w)); reflexivity.
Qed.


Lemma for_each_run {S A} (f : A -> M S unit) (g : A -> S -> S) (l : list A) :
  (forall x s, f x s = (Return tt, g x s)) ->
  forall s, for_each l f s = (Return tt, fold_left (fun s x => g x s) l s).
Proof.
  intros H. induction l as [|x l IH]; intros s; [reflexivity|].
  cbn [for_each fold_left]. unfold bind. rewrite H. apply IH.
Qed.

(** *** The health sweep *)

Definition alarm_data (agent_name : list N) (silence_time : Z) : pyval :=
  PDict [(lit "agent_name", PStr agent_name);
         (lit "silence_duration", PFloat (DateTime.total_seconds silence_time))].

(** The orchestrator after one turn of the sweep. *)
Definition checked (t : DateTime.datetime) (n : list N) (o : JarvisOrchestrator)
  : JarvisOrchestrator :=
  match Dict.get (agents o) n with
  | None => o
  | Some a =>
    match last_seen a with
    | None =>
        if status_eqb (status a) expected then o
        else set_env (add_log (WARNING, AwaitingAgent n) (env o))
               (set_agents (Dict.alter (set_status expected) (agents o) n) o)
    | Some seen =>
        if DateTime.total_seconds_gt (DateTime.timedelta t seen) 300
           && negb (status_eqb (status a) unresponsive)
        then
          let w1 := add_log (WARNING,
                             AgentNotResponding n (DateTime.timedelta t seen))
                            (env o) in
          set_env
            (if exchange o
             then published_world (lit "agent.unresponsive")
                    (alarm_data n (DateTime.timedelta t seen)) w1
             else w1)
            (set_agents (Dict.alter (set_status unresponsive) (agents o) n) o)
        else o
    end
  end.

Lemma check_agent_run (t : DateTime.datetime) (n : list N) (o : JarvisOrchestrator) :
  check_agent t n o = (Return tt, checked t n o).
Proof.
  unfold check_agent, checked. unfold bind at 1. unfold gets at 1. cbn [fst snd].
  destruct (Dict.get (agents o) n) as [a|]; [|reflexivity].
  destruct (last_seen a) as [seen|].
  - destruct (DateTime.total_seconds_gt _ _); [|reflexivity].
    destruct (status_eqb (status a) unresponsive); [reflexivity|].
    cbn [negb andb]. unfold bind, alter_agent, modify, log, on_world. cbn.
    rewrite publish_system_event_run. cbn.
    destruct o as [ag ss st cn ch ex mq sh ea w]. cbn.
    destruct ex; reflexivity.
  - destruct (status_eqb (status a) expected); [reflexivity|].
    cbn [negb]. unfold bind, alter_agent, modify, log, on_world. cbn.
    destruct o as [ag ss st cn ch ex mq sh ea w]. reflexivity.
Qed.

Definition ticked (o : JarvisOrchestrator) : JarvisOrchestrator :=
  set_env (tick (env o)) o.

Definition reading (o : JarvisOrchestrator) : DateTime.datetime :=
  clock (env o) (ticks (env o)).

Definition swept_all (o : JarvisOrchestrator) : JarvisOrchestrator :=
  fold_left (fun o' n => checked (reading o) n o') (Dict.keys (agents o))
            (ticked o).

Lemma check_agent_health_run (o : JarvisOrchestrator) :
  _check_agent_health o = (Return tt, swept_all o).
Proof.
  unfold _check_agent_health, swept_all, now, bind, gets, on_world, modify, ret.
  cbn [fst snd].
  rewrite (for_each_run (check_agent (clock (env o) (ticks (env o))))
             (checked (clock (env o) (ticks (env o))))).
  - destruct o; reflexivity.
  - intros. apply check_agent_run.
Qed.

(** What a sweep makes of one record. *)
Definition swept (t : DateTime.datetime) (a : AgentInfo) : AgentInfo :=
  match last_seen a with
  | None => set_status expected a
  | Some seen =>
      if DateTime.total_seconds_gt (DateTime.timedelta t seen) 300
      then set_status unresponsive a
      else a
  end.

Lemma status_eqb_eq (a b : Status) : status_eqb a b = true <-> a = b.
Proof. destruct a, b; cbn; split; congruence. Qed.

Lemma set_status_same (a : AgentInfo) (x : Status) :
  status a = x -> set_status x a = a.
Proof. intros <-. destruct a; reflexivity. Qed.

Lemma set_agents_same (o : JarvisOrchestrator) : set_agents (agents o) o = o.
Proof. destruct o; reflexivity. Qed.

Lemma checked_agents (t : DateTime.datetime) (n : list N) (o : JarvisOrchestrator) :
  agents (checked t n o) = Dict.alter (swept t) (agents o) n.
Proof.
  unfold checked. destruct (Dict.get (agents o) n) as [a|] eqn:G.
  2:{ rewrite alter_absent by assumption. reflexivity. }
  assert (Hsame : swept t a = a -> agents o = Dict.alter (swept t) (agents o) n).
  { intros Hf. rewrite <- (alter_same (agents o) n) at 1.
    apply alter_ext. intros a' Ha'. congruence. }
  assert (Hext : forall f, f a = swept t a ->
                   Dict.alter f (agents o) n = Dict.alter (swept t) (agents o) n).
  { intros f Hf. apply alter_ext. intros a' Ha'. congruence. }
  destruct (last_seen a) as [seen|] eqn:L.
  - assert (Hs : swept t a
                 = if DateTime.total_seconds_gt (DateTime.timedelta t seen) 300
                   then set_status unresponsive a else a).
    { unfold swept. rewrite L. reflexivity. }
    destruct (DateTime.total_seconds_gt _ _); cbn [andb].
    + destruct (status_eqb (status a) unresponsive) eqn:E; cbn [negb].
      * apply status_eqb_eq in E. apply Hsame. rewrite Hs.
        apply set_status_same. assumption.
      * destruct o; cbn. cbn in Hext. apply Hext. rewrite Hs. reflexivity.
    + apply Hsame. assumption.
  - assert (Hs : swept t a = set_status expected a).
    { unfold swept. rewrite L. reflexivity. }
    destruct (status_eqb (status a) expected) eqn:E.
    + apply status_eqb_eq in E. apply Hsame. rewrite Hs.
      apply set_status_same. assumption.
    + destruct o; cbn. cbn in Hext. apply Hext. rewrite Hs. reflexivity.
Qed.

(** The parts of the orchestrator and of its world that no handler and
    no sweep touches. *)
Definition same_wiring (o o' : JarvisOrchestrator) : Prop :=
  exchange o' = exchange o /\ channel o' = channel o
  /\ connection o' = connection o
  /\ management_queue o' = management_queue o
  /\ expected_agents o' = expected_agents o
  /\ start_time o' = start_time o
  /\ is_closed (env o') = is_closed (env o)
  /\ accepts (env o') = accepts (env o)
  /\ clock (env o') = clock (env o)
  /\ reachable (env o') = reachable (env o).

Lemma same_wiring_refl (o : JarvisOrchestrator) : same_wiring o o.
Proof. unfold same_wiring. tauto. Qed.

Lemma same_wiring_trans (a b c : JarvisOrchestrator) :
  same_wiring a b -> same_wiring b c -> same_wiring a c.
Proof. unfold same_wiring. intuition congruence. Qed.

Lemma published_world_wiring (ev : list N) (data : pyval) (w : World) :
  is_closed (published_world ev data w) = is_closed w
  /\ accepts (published_world ev data w) = accepts w
  /\ clock (published_world ev data w) = clock w
  /\ reachable (published_world ev data w) = reachable w
  /\ settled (published_world ev data w) = settled w.
Proof.
  unfold published_world. destruct (Json.encode _); [|cbn; tauto].
  destruct (is_closed w) eqn:E; [cbn; tauto|].
  destruct (accepts w (publishes w)); cbn; tauto.
Qed.

Lemma checked_wiring (t : DateTime.datetime) (n : list N) (o : JarvisOrchestrator) :
  same_wiring o (checked t n o).
Proof.
  unfold checked. destruct (Dict.get (agents o) n) as [a|];
    [|apply same_wiring_refl].
  destruct (last_seen a) as [seen|].
  - destruct (_ && _); [|apply same_wiring_refl].
    destruct o as [ag ss st cn ch ex mq sh ea w]. unfold same_wiring. cbn.
    destruct ex; cbn.
    + pose proof (published_world_wiring (lit "agent.unresponsive")
                    (alarm_data n (DateTime.timedelta t seen))
                    (add_log (WARNING, AgentNotResponding n (DateTime.timedelta t seen)) w)).
      cbn in *. tauto.
    + tauto.
  - destruct (status_eqb _ _); [apply same_wiring_refl|].
    destruct o; unfold same_wiring; cbn; tauto.
Qed.


(** *** The message handler *)

(** What the handler reads in a message: the event type, the source,
    and the registry key the source stands for, if any. *)
Definition sender (ag : Dict.dict AgentInfo) (message_body : list byte)
  : outcome (pyval * pyval * option (list N)) :=
  obind (Json.decode message_body) (fun m =>
  obind (Json.get m (lit "event_type") (PStr [])) (fun ev =>
  obind (Json.get m (lit "agent_source") (PStr [])) (fun src =>
  obind (contains ag src) (fun k => Return (ev, src, k))))).

(** What one message of type [ev] received at [t] makes of a record. *)
Definition noted (t : DateTime.datetime) (ev : pyval) (a : AgentInfo) : AgentInfo :=
  let a' := incr_messages_received (set_last_seen (Some t) a) in
  if is_str ev (lit "agent.started") then set_status online a'
  else if is_str ev (lit "agent.stopped") then set_status offline a'
  else a'.

Definition handled (message_body : list byte) (o : JarvisOrchestrator)
  : JarvisOrchestrator :=
  let w := env o in
  match sender (agents o) message_body with
  | Raise e =>
      set_env (add_settled Ack (add_log (ERROR, MessageProcessingError e) w)) o
  | Return (ev, src, k) =>
      let last w :=
        add_settled Ack
          (if is_str ev (lit "agent.started") || is_str ev (lit "agent.stopped")
              || is_str ev (lit "system.error")
           then add_log (INFO, EventReceived ev src) w else w) in
      match k with
      | None => set_env (last w) o
      | Some k =>
          let w1 := tick w in
          let w2 :=
            if is_str ev (lit "agent.started")
            then add_log (INFO, AgentConnected src) w1
            else if is_str ev (lit "agent.stopped")
                 then add_log (INFO, AgentDisconnected src) w1
                 else w1 in
          set_env (last w2)
            (set_agents (Dict.alter (noted (clock w (ticks w)) ev) (agents o) k) o)
      end
  end.

Lemma handle_agent_message_run (message_body : list byte) (o : JarvisOrchestrator) :
  _handle_agent_message message_body o = (Return tt, handled message_body o).
Proof.
  destruct o as [ag ss st cn ch ex mq sh ea w].
  unfold _handle_agent_message, handled, sender, noted, process, try_except.
  unfold bind at 1. unfold lift at 1. cbn [agents env].
  destruct (Json.decode message_body) as [m|e]; cbn [obind]; [|reflexivity].
  unfold bind at 1. unfold lift at 1.
  destruct (Json.get m (lit "event_type") (PStr [])) as [ev|e]; cbn [obind];
    [|reflexivity].
  unfold bind at 1. unfold lift at 1.
  destruct (Json.get m (lit "agent_source") (PStr [])) as [src|e]; cbn [obind];
    [|reflexivity].
  unfold bind at 1. unfold bind at 1. unfold gets at 1. unfold lift at 1.
  cbn [agents fst snd].
  destruct (contains ag src) as [[k|]|e]; cbn [obind]; [| |reflexivity].
  - unfold now, alter_agent, log, settle, on_world, modify, gets, ret, bind.
    cbn.
    generalize (is_str ev (lit "agent.started")) (is_str ev (lit "agent.stopped"))
               (is_str ev (lit "system.error")).
    intros b1 b2 b3.
    destruct b1, b2, b3; cbn; rewrite ?alter_alter; reflexivity.
  - unfold log, settle, on_world, modify, ret, bind. cbn.
    generalize (is_str ev (lit "agent.started")) (is_str ev (lit "agent.stopped"))
               (is_str ev (lit "system.error")).
    intros b1 b2 b3.
    destruct b1, b2, b3; reflexivity.
Qed.

Lemma handled_agents (message_body : list byte) (o : JarvisOrchestrator) :
  agents (handled message_body o)
  = match sender (agents o) message_body with
    | Return (ev, _, Some k) => Dict.alter (noted (reading o) ev) (agents o) k
    | _ => agents o
    end.
Proof.
  unfold handled, reading. destruct (sender _ _) as [[[ev src] [k|]]|e];
    destruct o; reflexivity.
Qed.

Lemma handled_wiring (message_body : list byte) (o : JarvisOrchestrator) :
  same_wiring o (handled message_body o).
Proof.
  unfold handled. destruct (sender _ _) as [[[ev src] [k|]]|e];
    destruct o; unfold same_wiring; cbn;
    repeat match goal with
           | |- context [if ?b then _ else _] => destruct b
           end; cbn; tauto.
Qed.

Lemma handled_delivered (message_body : list byte) (o : JarvisOrchestrator) :
  delivered (env (handled message_body o)) = delivered (env o)
  /\ settled (env (handled message_body o)) = (settled (env o) ++ [Ack])%list.
Proof.
  unfold handled. destruct (sender _ _) as [[[ev src] [k|]]|e];
    destruct o; cbn;
    repeat match goal with
           | |- context [if ?b then _ else _] => destruct b
           end; cbn; tauto.
Qed.

(** *** The statistics *)

Lemma publish_system_stats_run (o : JarvisOrchestrator) :
  exists w, _publish_system_stats o = (Return tt, set_env w o)
            /\ is_closed w = is_closed (env o)
            /\ accepts w = accepts (env o)
            /\ clock w = clock (env o)
            /\ reachable w = reachable (env o).
Proof.
  unfold _publish_system_stats, try_except, bind, now, gets, on_world, modify, ret.
  cbn. rewrite publish_system_event_run.
  destruct o as [ag ss st cn ch ex mq sh ea w]. cbn.
  destruct ex.
  - eexists. split; [reflexivity|].
    match goal with
    | |- context [published_world ?e ?d ?w0] =>
        pose proof (published_world_wiring e d w0) as H
    end.
    cbn in H. tauto.
  - eexists. split; [reflexivity|]. cbn. tauto.
Qed.

(** *** One event *)

Definition after (ev : event) (o : JarvisOrchestrator) : JarvisOrchestrator :=
  exec (step ev) o.

Lemma step_sweep (o : JarvisOrchestrator) : exec (step Sweep) o = swept_all o.
Proof. unfold exec. cbn [step]. rewrite check_agent_health_run. reflexivity. Qed.

Lemma step_check (t : DateTime.datetime) (n : list N) (o : JarvisOrchestrator) :
  exec (step (CheckOne t n)) o = checked t n o.
Proof. unfold exec. cbn [step]. rewrite check_agent_run. reflexivity. Qed.

Lemma step_consume (b : list byte) (o : JarvisOrchestrator) :
  exec (step (Consume b)) o = handled b o.
Proof. unfold exec. cbn [step]. rewrite handle_agent_message_run. reflexivity. Qed.

Lemma step_stats (o : JarvisOrchestrator) :
  agents (exec (step PublishStats) o) = agents o
  /\ same_wiring o (exec (step PublishStats) o).
Proof.
  unfold exec. cbn [step].
  destruct (publish_system_stats_run o) as (w & -> & H). cbn [snd].
  destruct o; unfold same_wiring; cbn in *. tauto.
Qed.

Lemma fold_checked_agents (t : DateTime.datetime) (ks : list (list N))
      (o : JarvisOrchestrator) :
  agents (fold_left (fun o' n => checked t n o') ks o)
  = fold_left (fun d n => Dict.alter (swept t) d n) ks (agents o).
Proof.
  revert o. induction ks as [|k ks IH]; intros o; [reflexivity|].
  cbn [fold_left]. rewrite IH, checked_agents. reflexivity.
Qed.

Lemma fold_checked_wiring (t : DateTime.datetime) (ks : list (list N))
      (o : JarvisOrchestrator) :
  same_wiring o (fold_left (fun o' n => checked t n o') ks o).
Proof.
  revert o. induction ks as [|k ks IH]; intros o; [apply same_wiring_refl|].
  cbn [fold_left]. eapply same_wiring_trans; [apply checked_wiring|apply IH].
Qed.

Lemma swept_all_agents (o : JarvisOrchestrator) :
  agents (swept_all o)
  = fold_left (fun d n => Dict.alter (swept (reading o)) d n)
      (Dict.keys (agents o)) (agents o).
Proof.
  unfold swept_all. rewrite fold_checked_agents. destruct o; reflexivity.
Qed.

Lemma swept_all_wiring (o : JarvisOrchestrator) : same_wiring o (swept_all o).
Proof.
  unfold swept_all. eapply same_wiring_trans; [|apply fold_checked_wiring].
  destruct o; unfold same_wiring; cbn; tauto.
Qed.

End OrchestratorFacts.

(** ** The registry *)

Module RegistryFacts.

Import Orchestrator PyStrFacts DictFacts OrchestratorFacts Subscriber.

Local Arguments lit : simpl never.

(** From a message that counts as [agent.started] from [name] the
    handler reads just that. *)
Lemma started_from_sender (ag : Dict.dict AgentInfo) (name : list N)
      (message_body : list byte) :
  started_from name message_body = true ->
  Dict.mem ag name = true ->
  sender ag message_body
  = Return (PStr (lit "agent.started"), PStr name, Some name).
Proof.
  unfold started_from, sender, field. intros H Hmem.
  destruct (Json.decode message_body) as [m|e]; [|discriminate]. cbn [obind].
  destruct (Json.get m (lit "event_type") (PStr [])) as [ev|e];
    [|discriminate].
  destruct (Json.get m (lit "agent_source") (PStr [])) as [src|e];
    [|rewrite andb_false_r in H; discriminate].
  apply andb_true_iff in H. destruct H as [H1 H2].
  apply is_str_true in H1, H2. subst ev src. cbn [obind contains].
  rewrite Hmem. reflexivity.
Qed.

(** Conversely: when the handler reads [agent.started] from the key
    [name], the message counts as such. *)
Lemma sender_started_from (ag : Dict.dict AgentInfo) (name : list N)
      (message_body : list byte) (ev src : pyval) :
  sender ag message_body = Return (ev, src, Some name) ->
  is_str ev (lit "agent.started") = true ->
  started_from name message_body = true.
Proof.
  unfold started_from, sender, field. intros H Hev.
  destruct (Json.decode message_body) as [m|e]; [|discriminate]. cbn [obind] in H.
  destruct (Json.get m (lit "event_type") (PStr [])) as [ev'|e];
    [|discriminate]. cbn [obind] in H.
  destruct (Json.get m (lit "agent_source") (PStr [])) as [src'|e];
    [|discriminate]. cbn [obind] in H.
  destruct (contains ag src') as [k|e] eqn:C; [|discriminate]. cbn [obind] in H.
  inversion H; subst. rewrite Hev. cbn [andb].
  destruct src; cbn [contains] in C; try discriminate.
  destruct (Dict.mem ag s); inversion C. cbn [is_str]. apply eqb_refl.
Qed.

Lemma get_alter (f : AgentInfo -> AgentInfo) (d : Dict.dict AgentInfo)
      (k n : list N) :
  Dict.get (Dict.alter f d k) n
  = if PyStr.eqb k n then option_map f (Dict.get d n) else Dict.get d n.
Proof.
  destruct (PyStr.eqb k n) eqn:E.
  - apply eqb_eq in E. subst. apply get_alter_same.
  - apply eqb_neq in E. apply get_alter_other. congruence.
Qed.

(** A property of one record that sweeps and messages keep. *)
Section Kept.

Variable name : list N.
Variable P : option AgentInfo -> Prop.
Variable allowed : list byte -> Prop.

Hypothesis swept_kept :
  forall t a, P (Some a) -> P (Some (swept t a)).
Hypothesis noted_kept :
  forall ag body t ev src a,
    allowed body -> sender ag body = Return (ev, src, Some name) ->
    P (Some a) -> P (Some (noted t ev a)).

Definition permitted (ev : event) : Prop :=
  match ev with Consume b => allowed b | _ => True end.

Lemma kept_alter_swept (t : DateTime.datetime) (d : Dict.dict AgentInfo)
      (k : list N) :
  P (Dict.get d name) -> P (Dict.get (Dict.alter (swept t) d k) name).
Proof.
  rewrite get_alter. destruct (PyStr.eqb k name); [|auto].
  destruct (Dict.get d name); cbn [option_map]; auto.
Qed.

Lemma kept_fold_swept (t : DateTime.datetime) (ks : list (list N))
      (d : Dict.dict AgentInfo) :
  P (Dict.get d name) ->
  P (Dict.get (fold_left (fun d n => Dict.alter (swept t) d n) ks d) name).
Proof.
  revert d. induction ks as [|k ks IH]; intros d H; [assumption|].
  cbn [fold_left]. apply IH. apply kept_alter_swept. assumption.
Qed.

Lemma kept_step (ev : event) (o : JarvisOrchestrator) :
  permitted ev ->
  P (Dict.get (agents o) name) ->
  P (Dict.get (agents (exec (step ev) o)) name).
Proof.
  intros Hp H. destruct ev as [| |b|t n].
  - rewrite step_sweep, swept_all_agents. apply kept_fold_swept. assumption.
  - destruct (step_stats o) as [-> _]. assumption.
  - rewrite step_consume, handled_agents.
    destruct (sender (agents o) b) as [[[ev src] [k|]]|e] eqn:S; try assumption.
    rewrite get_alter. destruct (PyStr.eqb k name) eqn:E; [|assumption].
    apply eqb_eq in E. subst k.
    destruct (Dict.get (agents o) name); cbn [option_map]; [|assumption].
    eapply noted_kept; eauto.
  - rewrite step_check, checked_agents. apply kept_alter_swept. assumption.
Qed.

Lemma kept_run (evs : list event) (o : JarvisOrchestrator) :
  Forall permitted evs ->
  P (Dict.get (agents o) name) ->
  P (Dict.get (agents (run evs o)) name).
Proof.
  unfold run. revert o. induction evs as [|ev evs IH]; intros o Hp H;
    [assumption|].
  inversion Hp; subst. cbn [fold_left]. apply IH; [assumption|].
  apply kept_step; assumption.
Qed.

End Kept.

End RegistryFacts.

(** ** The registry: the claims *)

Module RegistryClaims.

Import Orchestrator PyStrFacts DictFacts OrchestratorFacts RegistryFacts Subscriber.

Local Arguments lit : simpl never.

Definition status_of (o : JarvisOrchestrator) (name : list N) : option Status :=
  option_map status (Dict.get (agents o) name).

Lemma swept_status (t : DateTime.datetime) (a : AgentInfo) :
  status (swept t a) = status a \/ status (swept t a) = expected
  \/ status (swept t a) = unresponsive.
Proof.
  unfold swept. destruct (last_seen a); [|auto].
  destruct (DateTime.total_seconds_gt _ _); auto.
Qed.

Lemma noted_status (t : DateTime.datetime) (ev : pyval) (a : AgentInfo) :
  is_str ev (lit "agent.started") = false ->
  status (noted t ev a) = status a \/ status (noted t ev a) = offline.
Proof.
  intros H. unfold noted. rewrite H.
  destruct (is_str ev (lit "agent.stopped")); auto.
Qed.

Lemma noted_last_seen (t : DateTime.datetime) (ev : pyval) (a : AgentInfo) :
  last_seen (noted t ev a) = Some t.
Proof.
  unfold noted. destruct (is_str ev (lit "agent.started")); [reflexivity|].
  destruct (is_str ev (lit "agent.stopped")); reflexivity.
Qed.

(** C7. Once a record is Unresponsive, neither a sweep, nor the
    statistics, nor any consumed message other than an [agent.started]
    from that identity sets it Online: after any such sequence of events
    the status is not Online.  A message from the identity that is not
    [agent.started] sets [last_seen] to the time of its handling and
    leaves the status other than Online. *)
Theorem unresponsive_is_one_way (name : list N) (o : JarvisOrchestrator)
        (evs : list event) :
  status_of o name = Some unresponsive ->
  (forall b, In (Consume b) evs -> started_from name b = false) ->
  status_of (run evs o) name <> Some online
  /\ forall b ev src,
       sender (agents o) b = Return (ev, src, Some name) ->
       is_str ev (lit "agent.started") = false ->
       option_map last_seen (Dict.get (agents (exec (step (Consume b)) o)) name)
       = Some (Some (reading o))
       /\ status_of (exec (step (Consume b)) o) name <> Some online.
Proof.
  intros Hst Hevs. split.
  - unfold status_of.
    apply (kept_run name (fun r => option_map status r <> Some online)
             (fun b => started_from name b = false)).
    + intros t a H. cbn [option_map] in *.
      destruct (swept_status t a) as [E|[E|E]]; rewrite E; congruence.
    + intros ag body t ev src a Hb Hs H. cbn [option_map] in *.
      assert (Hev : is_str ev (lit "agent.started") = false).
      { destruct (is_str ev (lit "agent.started")) eqn:E; [|reflexivity].
        rewrite (sender_started_from ag name body ev src Hs E) in Hb.
        discriminate. }
      destruct (noted_status t ev a Hev) as [E|E]; rewrite E; congruence.
    + apply Forall_forall. intros [| |b|t n] Hin; cbn; auto.
    + unfold status_of in Hst. rewrite Hst. discriminate.
  - intros b ev src Hs Hev. unfold status_of in *.
    rewrite step_consume, handled_agents, Hs, get_alter, eqb_refl.
    destruct (Dict.get (agents o) name) as [a|]; [|discriminate].
    cbn [option_map] in *. rewrite noted_last_seen. split; [reflexivity|].
    destruct (noted_status (reading o) ev a Hev) as [E|E]; rewrite E; congruence.
Qed.

(** C8. A record that is Expected and was never seen stays as it is
    through any number of sweeps. *)
Theorem expected_stays_expected (name : list N) (a : AgentInfo)
        (o : JarvisOrchestrator) (sweeps : nat) :
  Dict.get (agents o) name = Some a ->
  status a = expected -> last_seen a = None ->
  Dict.get (agents (run (repeat Sweep sweeps) o)) name = Some a
  /\ status_of (run (repeat Sweep sweeps) o) name = Some expected.
Proof.
  intros Hget Hst Hls.
  assert (H : Dict.get (agents (run (repeat Sweep sweeps) o)) name = Some a).
  { apply (kept_run name (fun r => r = Some a) (fun _ => False)).
    - intros t a' E. inversion E; subst. unfold swept. rewrite Hls.
      rewrite set_status_same by assumption. reflexivity.
    - intros; contradiction.
    - apply Forall_forall. intros ev Hin. apply repeat_spec in Hin. subst.
      exact I.
    - assumption. }
  split; [assumption|]. unfold status_of. rewrite H. cbn. congruence.
Qed.

(** C6. An [agent.started] from a rostered identity sets that record
    Online with [last_seen] the time of handling and one more message
    received; every other record is left as it was. *)
Theorem started_sets_online (name : list N) (message_body : list byte)
        (o : JarvisOrchestrator) :
  started_from name message_body = true ->
  Dict.mem (agents o) name = true ->
  let o' := exec (_handle_agent_message message_body) o in
  result (_handle_agent_message message_body) o = Return tt
  /\ Dict.get (agents o') name
     = option_map
         (fun a => {| status := online; last_seen := Some (reading o);
                      messages_received := messages_received a + 1;
                      errors := errors a |})
         (Dict.get (agents o) name)
  /\ forall other, other <> name ->
       Dict.get (agents o') other = Dict.get (agents o) other.
Proof.
  intros Hs Hmem o'. subst o'. unfold exec, result.
  rewrite handle_agent_message_run. cbn [fst snd].
  rewrite handled_agents, (started_from_sender (agents o) name message_body Hs Hmem).
  split; [reflexivity|]. split.
  - rewrite get_alter_same. destruct (Dict.get (agents o) name); reflexivity.
  - intros other Hne. apply get_alter_other. assumption.
Qed.

Lemma fold_set_agents (names : list (list N)) (o : JarvisOrchestrator) :
  agents (fold_left
            (fun s x => set_agents (Dict.set (agents s) x fresh_agent) s)
            names o)
  = fold_left (fun d n => Dict.set d n fresh_agent) names (agents o).
Proof.
  revert o. induction names as [|n names IH]; intros o; [reflexivity|].
  cbn [fold_left]. rewrite IH. destruct o; reflexivity.
Qed.

(** The registry after [_start_agent_monitoring]. *)
Lemma start_agent_monitoring_run (o : JarvisOrchestrator) :
  management_queue o = true ->
  result _start_agent_monitoring o = Return tt
  /\ agents (exec _start_agent_monitoring o)
     = fold_left (fun d n => Dict.set d n fresh_agent) (expected_agents o)
         (agents o).
Proof.
  intros Hq. unfold result, exec, _start_agent_monitoring.
  destruct o as [ag ss st cn ch ex mq sh ea w]. cbn in Hq. subst mq.
  unfold log, on_world, gets, ret, bind. cbn -[for_each]. 
  rewrite (for_each_run _ (fun n o => set_agents (Dict.set (agents o) n fresh_agent) o))
    by reflexivity.
  cbn [fst snd]. split; [reflexivity|].
  rewrite fold_set_agents. reflexivity.
Qed.

Lemma fold_set_fresh (names : list (list N)) (d : Dict.dict AgentInfo)
      (n : list N) :
  In n names \/ Dict.get d n = Some fresh_agent ->
  Dict.get (fold_left (fun d n => Dict.set d n fresh_agent) names d) n
  = Some fresh_agent.
Proof.
  revert d. induction names as [|k names IH]; intros d H; cbn [fold_left].
  - destruct H as [[]|H]. assumption.
  - apply IH. destruct (PyStr.eqb k n) eqn:E.
    + apply eqb_eq in E. subst. right. apply get_set_same.
    + apply eqb_neq in E. destruct H as [[H|H]|H]; [congruence|auto|].
      right. rewrite get_set_other by congruence. assumption.
Qed.

Definition errors_zero (d : Dict.dict AgentInfo) : Prop :=
  Forall (fun kv => errors (snd kv) = 0%Z) d.

Lemma swept_errors (t : DateTime.datetime) (a : AgentInfo) :
  errors (swept t a) = errors a.
Proof.
  unfold swept. destruct (last_seen a); [|reflexivity].
  destruct (DateTime.total_seconds_gt _ _); reflexivity.
Qed.

Lemma noted_errors (t : DateTime.datetime) (ev : pyval) (a : AgentInfo) :
  errors (noted t ev a) = errors a.
Proof.
  unfold noted. destruct (is_str ev (lit "agent.started")); [reflexivity|].
  destruct (is_str ev (lit "agent.stopped")); reflexivity.
Qed.

Lemma errors_zero_step (ev : event) (o : JarvisOrchestrator) :
  errors_zero (agents o) -> errors_zero (agents (exec (step ev) o)).
Proof.
  intros H. destruct ev as [| |b|t n].
  - rewrite step_sweep, swept_all_agents.
    generalize (Dict.keys (agents o)). intros ks. revert H.
    generalize (agents o). induction ks as [|k ks IH]; intros d H; [assumption|].
    cbn [fold_left]. apply IH. apply (Forall_alter (fun a => errors a = 0%Z)); [|assumption].
    intros a Ha. rewrite swept_errors. assumption.
  - destruct (step_stats o) as [-> _]. assumption.
  - rewrite step_consume, handled_agents.
    destruct (sender (agents o) b) as [[[e src] [k|]]|e]; try assumption.
    apply (Forall_alter (fun a => errors a = 0%Z)); [|assumption].
    intros a Ha. rewrite noted_errors. assumption.
  - rewrite step_check, checked_agents. apply (Forall_alter (fun a => errors a = 0%Z)); [|assumption].
    intros a Ha. rewrite swept_errors. assumption.
Qed.

Lemma errors_zero_run (evs : list event) (o : JarvisOrchestrator) :
  errors_zero (agents o) -> errors_zero (agents (run evs o)).
Proof.
  unfold run. revert o. induction evs as [|ev evs IH]; intros o H; [assumption|].
  cbn [fold_left]. apply IH. apply errors_zero_step. assumption.
Qed.

(** C10. [_start_agent_monitoring] gives every rostered identity a
    record whose [errors] is 0, and no sweep, no publication of the
    statistics and no consumed message changes the [errors] of any
    record: all are 0 after any sequence of events. *)
Theorem errors_always_zero (o : JarvisOrchestrator) (evs : list event) :
  agents o = [] -> management_queue o = true ->
  let o1 := exec _start_agent_monitoring o in
  (forall n, In n (expected_agents o) ->
             Dict.get (agents o1) n = Some fresh_agent)
  /\ errors fresh_agent = 0%Z
  /\ errors_zero (agents (run evs o1)).
Proof.
  intros He Hq o1. subst o1.
  destruct (start_agent_monitoring_run o Hq) as [_ Hag].
  split; [|split; [reflexivity|]].
  - intros n Hn. rewrite Hag. apply fold_set_fresh. left. assumption.
  - apply errors_zero_run. rewrite Hag, He.
    generalize (expected_agents o). intros names.
    assert (H : errors_zero (@nil (list N * AgentInfo))) by constructor.
    revert H. generalize (@nil (list N * AgentInfo)).
    induction names as [|n names IH]; intros d H; [assumption|].
    cbn [fold_left]. apply IH. apply (Forall_set (fun a => errors a = 0%Z)); [reflexivity|assumption].
Qed.

End RegistryClaims.

(** ** The alarm of the health sweep *)

Module AlarmFacts.

Import Orchestrator PyStrFacts DictFacts DateTimeFacts CodecFacts
       OrchestratorFacts RegistryFacts RegistryClaims Subscriber.

Local Arguments lit : simpl never.
Local Arguments DateTime.isoformat : simpl never.
Local Arguments DateTime.total_seconds : simpl never.
Local Arguments Json.encode : simpl never.
Local Arguments Json.decode : simpl never.

Lemma valid_event_message (ev : list N) (t : DateTime.datetime) (data : pyval) :
  wf ev = true -> valid data = true ->
  valid (event_message ev t data) = true.
Proof.
  intros Hev Hd. unfold event_message. cbn [valid forallb fst snd].
  rewrite Hev, Hd, isoformat_wf. reflexivity.
Qed.

Lemma valid_alarm_data (n : list N) (s : Z) :
  wf n = true -> valid (alarm_data n s) = true.
Proof.
  intros Hn. unfold alarm_data. cbn [valid forallb fst snd].
  rewrite Hn, total_seconds_ok. reflexivity.
Qed.

(** The alarm for [n] is a message any subscriber reads as the alarm for
    [n] and for nobody else. *)
Lemma alarm_body (n : list N) (t : DateTime.datetime) (s : Z) :
  wf n = true ->
  exists b,
    Json.encode (event_message (lit "agent.unresponsive") t (alarm_data n s))
    = Return b
    /\ forall name, is_unresponsive_alarm name (broadcast b) = PyStr.eqb n name.
Proof.
  intros Hn.
  destruct (decode_encode
              (event_message (lit "agent.unresponsive") t (alarm_data n s)))
    as (b & He & Hd).
  { apply valid_event_message; [reflexivity|apply valid_alarm_data; assumption]. }
  exists b. split; [assumption|]. intros name.
  unfold is_unresponsive_alarm. cbn [broadcast exchange_name body].
  rewrite Hd. reflexivity.
Qed.

Lemma alarms_add_log (name : list N) (r : level * log_msg) (w : World) :
  alarms name (add_log r w) = alarms name w.
Proof. reflexivity. Qed.

Lemma alarms_tick (name : list N) (w : World) : alarms name (tick w) = alarms name w.
Proof. reflexivity. Qed.

Lemma alarms_attempt (name : list N) (d : Delivery) (w : World) :
  alarms name (attempt d w)
  = (alarms name w
     + if accepts w (publishes w) && is_unresponsive_alarm name d then 1 else 0)%nat.
Proof.
  unfold alarms, attempt. cbn [delivered].
  destruct (accepts w (publishes w)); cbn [andb]; [|lia].
  rewrite filter_app, length_app. cbn [filter].
  destruct (is_unresponsive_alarm name d); cbn; lia.
Qed.

(** The alarms for [name] after the alarm for [n] went out. *)
Lemma alarms_published (name n : list N) (s : Z) (w : World) :
  wf n = true ->
  alarms name (published_world (lit "agent.unresponsive") (alarm_data n s) w)
  = (alarms name w
     + if negb (is_closed w) && accepts w (publishes w) && PyStr.eqb n name
       then 1 else 0)%nat.
Proof.
  intros Hn. unfold published_world.
  destruct (alarm_body n (clock w (ticks w)) s Hn) as (b & -> & Hb).
  destruct (is_closed w); cbn [negb andb].
  - rewrite alarms_add_log, alarms_tick. lia.
  - destruct (accepts w (publishes w)) eqn:A; cbn [andb].
    + rewrite alarms_attempt. cbn [tick accepts publishes]. rewrite A, Hb.
      rewrite alarms_tick. reflexivity.
    + rewrite alarms_add_log, alarms_attempt. cbn [tick accepts publishes].
      rewrite A. cbn [andb]. rewrite alarms_tick. reflexivity.
Qed.

Lemma checked_alarms_other (name : list N) (t : DateTime.datetime) (n : list N)
      (o : JarvisOrchestrator) :
  n <> name -> wf n = true ->
  alarms name (env (checked t n o)) = alarms name (env o).
Proof.
  intros Hne Hn. unfold checked.
  destruct (Dict.get (agents o) n) as [a|]; [|reflexivity].
  destruct (last_seen a) as [seen|].
  - destruct (_ && _); [|reflexivity].
    destruct o as [ag ss st cn ch ex mq sh ea w]. cbn [env set_env set_agents exchange].
    destruct ex; [|reflexivity].
    rewrite alarms_published by assumption.
    replace (PyStr.eqb n name) with false
      by (symmetry; apply eqb_neq; assumption).
    rewrite andb_false_r, alarms_add_log. lia.
  - destruct (status_eqb _ _); [reflexivity|].
    destruct o; reflexivity.
Qed.

Lemma checked_noop (name : list N) (t seen : DateTime.datetime) (a : AgentInfo)
      (o : JarvisOrchestrator) :
  Dict.get (agents o) name = Some a ->
  last_seen a = Some seen -> status a = unresponsive ->
  checked t name o = o.
Proof.
  intros Hg Hl Hs. unfold checked. rewrite Hg, Hl, Hs. cbn [status_eqb negb].
  rewrite andb_false_r. reflexivity.
Qed.

Lemma checked_transition (name : list N) (t seen : DateTime.datetime)
      (a : AgentInfo) (o : JarvisOrchestrator) :
  Dict.get (agents o) name = Some a ->
  last_seen a = Some seen ->
  DateTime.total_seconds_gt (DateTime.timedelta t seen) 300 = true ->
  status a <> unresponsive ->
  exchange o = true -> broker_up (env o) -> wf name = true ->
  alarms name (env (checked t name o)) = S (alarms name (env o))
  /\ Dict.get (agents (checked t name o)) name = Some (set_status unresponsive a).
Proof.
  intros Hg Hl Hgt Hs Hex [Hopen Hacc] Hn. split.
  - unfold checked. rewrite Hg, Hl, Hgt.
    replace (status_eqb (status a) unresponsive) with false.
    2:{ symmetry. destruct (status_eqb (status a) unresponsive) eqn:E;
          [|reflexivity]. apply status_eqb_eq in E. contradiction. }
    cbn [negb andb]. destruct o as [ag ss st cn ch ex mq sh ea w].
    cbn [exchange env] in *. subst ex. cbn [env set_env set_agents].
    rewrite alarms_published by assumption.
    cbn [add_log is_closed accepts publishes]. rewrite Hopen, Hacc, eqb_refl.
    cbn [negb andb]. rewrite alarms_add_log. lia.
  - rewrite checked_agents, get_alter_same, Hg. cbn [option_map].
    unfold swept. rewrite Hl, Hgt. reflexivity.
Qed.

Definition all_wf (ks : list (list N)) : Prop := Forall (fun k => wf k = true) ks.

(** The rest of a sweep after the record went Unresponsive. *)
Lemma sweep_after (name : list N) (t seen : DateTime.datetime) (a : AgentInfo)
      (ks : list (list N)) :
  last_seen a = Some seen -> status a = unresponsive -> all_wf ks ->
  forall o,
    Dict.get (agents o) name = Some a ->
    let o' := fold_left (fun o' n => checked t n o') ks o in
    alarms name (env o') = alarms name (env o)
    /\ Dict.get (agents o') name = Some a.
Proof.
  intros Hl Hs. induction 1 as [|k ks Hk Hks IH]; intros o Hg; [split; auto|].
  cbn [fold_left]. destruct (PyStr.eqb k name) eqn:E.
  - apply eqb_eq in E. subst k.
    rewrite (checked_noop name t seen a o Hg Hl Hs). apply IH. assumption.
  - apply eqb_neq in E.
    assert (Hg' : Dict.get (agents (checked t k o)) name = Some a).
    { rewrite checked_agents, get_alter_other by congruence. assumption. }
    destruct (IH (checked t k o) Hg') as [H1 H2]. split; [|assumption].
    cbv zeta in H1. rewrite H1. apply checked_alarms_other; assumption.
Qed.

(** A sweep that meets the silent record. *)
Lemma sweep_meets (name : list N) (t seen : DateTime.datetime) (a : AgentInfo)
      (ks : list (list N)) :
  last_seen a = Some seen ->
  DateTime.total_seconds_gt (DateTime.timedelta t seen) 300 = true ->
  status a <> unresponsive -> all_wf ks -> In name ks ->
  forall o,
    Dict.get (agents o) name = Some a ->
    exchange o = true -> broker_up (env o) ->
    let o' := fold_left (fun o' n => checked t n o') ks o in
    alarms name (env o') = S (alarms name (env o))
    /\ Dict.get (agents o') name = Some (set_status unresponsive a).
Proof.
  intros Hl Hgt Hs. induction 1 as [|k ks Hk Hks IH]; intros Hin o Hg Hex Hup;
    [contradiction|].
  cbn [fold_left]. destruct (PyStr.eqb k name) eqn:E.
  - apply eqb_eq in E. subst k.
    destruct (checked_transition name t seen a o Hg Hl Hgt Hs Hex Hup Hk)
      as [H1 H2].
    destruct (sweep_after name t seen (set_status unresponsive a) ks
                Hl eq_refl Hks (checked t name o) H2) as [H3 H4].
    cbv zeta in *. rewrite H3, H1. split; [reflexivity|assumption].
  - apply eqb_neq in E. destruct Hin as [Hin|Hin]; [contradiction|].
    pose proof (checked_wiring t k o) as W. unfold same_wiring in W.
    destruct W as (W1 & _ & _ & _ & _ & _ & W2 & W3 & _).
    destruct (IH Hin (checked t k o)) as [H1 H2].
    + rewrite checked_agents, get_alter_other by congruence. assumption.
    + congruence.
    + destruct Hup as [U1 U2]. split; [congruence|].
      intros n. rewrite W3. apply U2.
    + cbv zeta in *. rewrite H1, checked_alarms_other by assumption.
      split; [reflexivity|assumption].
Qed.

Lemma fold_checked_keys (t : DateTime.datetime) (ks : list (list N))
      (o : JarvisOrchestrator) :
  Dict.keys (agents (fold_left (fun o' n => checked t n o') ks o))
  = Dict.keys (agents o).
Proof.
  revert o. induction ks as [|k ks IH]; intros o; [reflexivity|].
  cbn [fold_left]. rewrite IH, checked_agents, keys_alter. reflexivity.
Qed.

(** C1. A record last seen 301 seconds before the sweep reads the clock
    (threshold 300) and not yet Unresponsive: with the exchange set and
    the broker taking what is published, the sweep sets it Unresponsive
    and exactly one more [agent.unresponsive] broadcast for it reaches
    the exchange; the sweep that follows adds none. *)
Theorem silent_agent_alarm_once (name : list N) (a : AgentInfo)
        (o : JarvisOrchestrator) :
  Dict.get (agents o) name = Some a ->
  last_seen a = Some (reading o - 301 * 1000000)%Z ->
  status a <> unresponsive ->
  exchange o = true -> broker_up (env o) ->
  all_wf (Dict.keys (agents o)) ->
  let o1 := exec _check_agent_health o in
  let o2 := exec _check_agent_health o1 in
  status_of o1 name = Some unresponsive
  /\ alarms name (env o1) = S (alarms name (env o))
  /\ alarms name (env o2) = alarms name (env o1).
Proof.
  intros Hg Hl Hs Hex Hup Hwf o1 o2. subst o2 o1. unfold exec.
  rewrite !check_agent_health_run. cbn [snd].
  assert (Hin : In name (Dict.keys (agents o))).
  { apply get_keys. rewrite Hg. discriminate. }
  assert (Hgt : DateTime.total_seconds_gt
                  (DateTime.timedelta (reading o) (reading o - 301 * 1000000)%Z)
                  300%Z
                = true).
  { unfold DateTime.total_seconds_gt, DateTime.timedelta. apply Z.ltb_lt. lia. }
  destruct (sweep_meets name (reading o) _ a (Dict.keys (agents o))
              Hl Hgt Hs Hwf Hin (ticked o)) as [H1 H2].
  { destruct o; assumption. }
  { destruct o; assumption. }
  { destruct Hup as [U1 U2]. destruct o; split; assumption. }
  cbv zeta in H1, H2. fold (swept_all o) in H1, H2.
  assert (Hk : Dict.keys (agents (swept_all o)) = Dict.keys (agents o)).
  { unfold swept_all. rewrite fold_checked_keys. destruct o; reflexivity. }
  destruct (sweep_after name (reading (swept_all o)) _
              (set_status unresponsive a) (Dict.keys (agents (swept_all o)))
              Hl eq_refl ltac:(rewrite Hk; assumption)
              (ticked (swept_all o))) as [H3 _].
  { destruct (swept_all o); assumption. }
  cbv zeta in H3. fold (swept_all (swept_all o)) in H3.
  split; [|split].
  - unfold status_of. rewrite H2. reflexivity.
  - rewrite H1. destruct o; reflexivity.
  - rewrite H3. destruct (swept_all o); reflexivity.
Qed.

End AlarmFacts.

(** ** The workflow dispatcher *)

Module DispatchFacts.

Import Orchestrator PyStrFacts DictFacts DateTimeFacts CodecFacts
       OrchestratorFacts Subscriber.

Local Arguments lit : simpl never.
Local Arguments DateTime.isoformat : simpl never.
Local Arguments Json.encode : simpl never.
Local Arguments Json.decode : simpl never.

(** The dictionary [_send_task_to_agent] sends. *)
Definition task_message (agent_name : list N) (t : DateTime.datetime)
           (task_data : pyval) : pyval :=
  PDict [(lit "type", PStr (lit "task_request"));
         (lit "from", PStr (lit "orchestrator"));
         (lit "to", PStr agent_name);
         (lit "timestamp", PStr (DateTime.isoformat t));
         (lit "task", task_data)].

Definition direct (agent_name : list N) (b : list byte) : Delivery :=
  {| exchange_name := []; routing_key := (agent_name ++ lit ".queue")%list;
     body := b |}.

Definition task_type_of (td : list (list N * pyval)) : pyval :=
  match Dict.get td (lit "type") with Some x => x | None => PStr (lit "unknown") end.

(** The world after [_send_task_to_agent] on a set channel. *)
Definition sent_world (n : list N) (td : list (list N * pyval)) (w : World)
  : World :=
  match Json.encode (task_message n (clock w (ticks w)) (PDict td)) with
  | Raise e => add_log (ERROR, TaskSendError n e) (tick w)
  | Return b =>
      if is_closed w
      then add_log (ERROR, TaskSendError n ChannelInvalidStateError) (tick w)
      else
        match check_routing_key (n ++ lit ".queue") with
        | Raise e => add_log (ERROR, TaskSendError n e) (tick w)
        | Return _ =>
            if accepts w (publishes w)
            then add_log (DEBUG, TaskSent n (task_type_of td))
                   (attempt (direct n b) (tick w))
            else add_log (ERROR, TaskSendError n DeliveryError)
                   (attempt (direct n b) (tick w))
        end
  end.

Lemma send_task_to_agent_run (n : list N) (td : list (list N * pyval))
      (o : JarvisOrchestrator) :
  _send_task_to_agent n (PDict td) o
  = (Return tt, if channel o then set_env (sent_world n td (env o)) o else o).
Proof.
  destruct o as [ag ss st cn ch ex mq sh ea w].
  unfold _send_task_to_agent, sent_world, task_message, direct, task_type_of,
    try_except, now, publish, log, on_world, modify, gets, lift, ret, raise, bind.
  cbn. destruct ch; cbn; [|reflexivity].
  destruct (Json.encode _) as [b|e]; cbn; [|reflexivity].
  destruct (is_closed w); cbn; [reflexivity|].
  destruct (check_routing_key _); cbn; [|reflexivity].
  destruct (accepts w (publishes w)); reflexivity.
Qed.

Lemma valid_task_message (n : list N) (t : DateTime.datetime) (task_data : pyval) :
  wf n = true -> valid task_data = true ->
  valid (task_message n t task_data) = true.
Proof.
  intros Hn Hd. unfold task_message. cbn [valid forallb fst snd].
  rewrite Hn, Hd, isoformat_wf. reflexivity.
Qed.

(** What one send leaves in the world when the connection is open. *)
Lemma sent_world_open (n : list N) (td : list (list N * pyval)) (w : World) :
  wf n = true -> check_routing_key (n ++ lit ".queue") = Return tt ->
  valid (PDict td) = true -> is_closed w = false ->
  exists m,
    is_task_request_for n m = true
    /\ publishes (sent_world n td w) = S (publishes w)
    /\ delivered (sent_world n td w)
       = (delivered w ++ if accepts w (publishes w) then [m] else [])%list
    /\ logged (sent_world n td w)
       = (logged w
          ++ [if accepts w (publishes w)
              then (DEBUG, TaskSent n (task_type_of td))
              else (ERROR, TaskSendError n DeliveryError)])%list
    /\ is_closed (sent_world n td w) = false
    /\ accepts (sent_world n td w) = accepts w.
Proof.
  intros Hn Hk Hv Hopen.
  destruct (decode_encode (task_message n (clock w (ticks w)) (PDict td)))
    as (b & He & Hd).
  { apply valid_task_message; assumption. }
  exists (direct n b). split.
  - unfold is_task_request_for. cbn [direct exchange_name routing_key body].
    rewrite Hd, !eqb_refl.
    change (field (task_message n (clock w (ticks w)) (PDict td)) (lit "to"))
      with (PStr n).
    cbn [is_str]. rewrite eqb_refl. reflexivity.
  - unfold sent_world. rewrite He, Hopen, Hk.
    destruct (accepts w (publishes w)) eqn:A; cbn; rewrite A, ?app_nil_r;
      repeat split; try reflexivity; assumption.
Qed.


Definition send (n : list N) (td : list (list N * pyval)) (o : JarvisOrchestrator)
  : JarvisOrchestrator :=
  if channel o then set_env (sent_world n td (env o)) o else o.

Definition name_of (cd : list (list N * pyval)) : pyval :=
  match Dict.get cd (lit "name") with Some x => x | None => PStr [] end.

Definition register_client (cd : list (list N * pyval)) :=
  [(lit "type", PStr (lit "register_client")); (lit "client_data", PDict cd)].
Definition create_client_folder (cd : list (list N * pyval)) :=
  [(lit "type", PStr (lit "create_client_folder")); (lit "client_name", name_of cd)].
Definition schedule_consultation (cd : list (list N * pyval)) :=
  [(lit "type", PStr (lit "schedule_consultation")); (lit "client_data", PDict cd)].

(** The orchestrator after the three sends of the onboarding. *)
Definition onboarded (cd : list (list N * pyval)) (o : JarvisOrchestrator)
  : JarvisOrchestrator :=
  send (lit "calendar-agent") (schedule_consultation cd)
    (send (lit "photo-agent") (create_client_folder cd)
       (send (lit "crm-agent") (register_client cd) o)).

Lemma execute_client_onboarding_run (task cd : list (list N * pyval))
      (o : JarvisOrchestrator) :
  Json.get (PDict task) (lit "client_data") (PDict []) = Return (PDict cd) ->
  _execute_client_onboarding (PDict task) o
  = (Return (Initiated None (lit "Onboarding de cliente iniciado")),
     onboarded cd o).
Proof.
  intros Hcd. unfold _execute_client_onboarding, onboarded.
  unfold bind at 1. unfold lift at 1. rewrite Hcd.
  unfold bind at 1. rewrite send_task_to_agent_run.
  unfold bind at 1. unfold lift at 1. cbn [Json.get].
  unfold bind at 1. rewrite send_task_to_agent_run.
  unfold bind at 1. rewrite send_task_to_agent_run.
  reflexivity.
Qed.

Lemma execute_distributed_task_onboarding (task cd : list (list N * pyval))
      (o : JarvisOrchestrator) :
  Dict.get task (lit "type") = Some (PStr (lit "client_onboarding")) ->
  Json.get (PDict task) (lit "client_data") (PDict []) = Return (PDict cd) ->
  execute_distributed_task (PDict task) o
  = (Return (Initiated None (lit "Onboarding de cliente iniciado")),
     onboarded cd
       (set_env (add_log (INFO, DistributedTask (PStr (lit "client_onboarding")))
                   (env o)) o)).
Proof.
  intros Ht Hcd. unfold execute_distributed_task, try_except.
  unfold bind at 1. unfold lift at 1. cbn [Json.get]. rewrite Ht.
  unfold bind at 1. unfold log at 1, on_world, modify.
  change (is_str (PStr (lit "client_onboarding")) (lit "complete_photo_workflow"))
    with false.
  change (is_str (PStr (lit "client_onboarding")) (lit "marketing_campaign_launch"))
    with false.
  change (is_str (PStr (lit "client_onboarding")) (lit "client_onboarding"))
    with true.
  cbv iota.
  rewrite (execute_client_onboarding_run task cd) by assumption.
  reflexivity.
Qed.

Lemma valid_get (d : list (list N * pyval)) (k : list N) (x : pyval) :
  valid (PDict d) = true -> Dict.get d k = Some x -> valid x = true.
Proof.
  cbn [valid]. rewrite andb_true_iff. intros [H _] Hg.
  apply get_In in Hg. rewrite forallb_forall in H. specialize (H _ Hg).
  cbn [fst snd] in H. apply andb_true_iff in H. tauto.
Qed.

Lemma valid_two (k1 k2 : list N) (v1 v2 : pyval) :
  wf k1 = true -> wf k2 = true -> PyStr.eqb k2 k1 = false ->
  valid v1 = true -> valid v2 = true ->
  valid (PDict [(k1, v1); (k2, v2)]) = true.
Proof.
  intros H1 H2 Hne Hv1 Hv2.
  change (valid (PDict [(k1, v1); (k2, v2)]))
    with ((wf k1 && valid v1 && (wf k2 && valid v2 && true))
          && (negb (Dict.mem [(k2, v2)] k1) && (negb (Dict.mem (V := pyval) [] k2) && true))).
  unfold Dict.mem. cbn [Dict.get]. rewrite H1, H2, Hv1, Hv2, Hne. reflexivity.
Qed.

Lemma valid_steps (cd : list (list N * pyval)) :
  valid (PDict cd) = true ->
  valid (PDict (register_client cd)) = true
  /\ valid (PDict (create_client_folder cd)) = true
  /\ valid (PDict (schedule_consultation cd)) = true.
Proof.
  intros Hv.
  assert (Hn : valid (name_of cd) = true).
  { unfold name_of. destruct (Dict.get cd (lit "name")) eqn:G; [|reflexivity].
    eapply valid_get; eassumption. }
  repeat split; apply valid_two; try reflexivity; assumption.
Qed.

Definition step_log (n : list N) (td : list (list N * pyval)) (taken : bool)
  : level * log_msg :=
  if taken then (DEBUG, TaskSent n (task_type_of td))
  else (ERROR, TaskSendError n DeliveryError).

(** The three sends on an open connection, whatever the broker takes. *)
Lemma onboarded_open (cd : list (list N * pyval)) (o : JarvisOrchestrator) :
  channel o = true -> is_closed (env o) = false -> valid (PDict cd) = true ->
  let p := publishes (env o) in
  let take i := accepts (env o) (p + i) in
  exists m1 m2 m3,
    is_task_request_for (lit "crm-agent") m1 = true
    /\ is_task_request_for (lit "photo-agent") m2 = true
    /\ is_task_request_for (lit "calendar-agent") m3 = true
    /\ publishes (env (onboarded cd o)) = p + 3
    /\ delivered (env (onboarded cd o))
       = (delivered (env o)
          ++ (if take 0 then [m1] else [])
          ++ (if take 1 then [m2] else [])
          ++ (if take 2 then [m3] else []))%list
    /\ logged (env (onboarded cd o))
       = (logged (env o)
          ++ [step_log (lit "crm-agent") (register_client cd) (take 0);
              step_log (lit "photo-agent") (create_client_folder cd) (take 1);
              step_log (lit "calendar-agent") (schedule_consultation cd) (take 2)])%list.
Proof.
  intros Hch Hopen Hv p take.
  destruct (valid_steps cd Hv) as (V1 & V2 & V3).
  destruct o as [ag ss st cn ch ex mq sh ea w]. cbn [channel env] in *. subst ch.
  unfold onboarded, send. cbn [channel set_env env].
  destruct (sent_world_open (lit "crm-agent") (register_client cd) w
              eq_refl eq_refl V1 Hopen) as (m1 & T1 & P1 & D1 & L1 & C1 & A1).
  set (w1 := sent_world (lit "crm-agent") (register_client cd) w) in *.
  destruct (sent_world_open (lit "photo-agent") (create_client_folder cd) w1
              eq_refl eq_refl V2 C1) as (m2 & T2 & P2 & D2 & L2 & C2 & A2).
  set (w2 := sent_world (lit "photo-agent") (create_client_folder cd) w1) in *.
  destruct (sent_world_open (lit "calendar-agent") (schedule_consultation cd) w2
              eq_refl eq_refl V3 C2) as (m3 & T3 & P3 & D3 & L3 & C3 & A3).
  set (w3 := sent_world (lit "calendar-agent") (schedule_consultation cd) w2) in *.
  exists m1, m2, m3. subst p take. cbn [env].
  repeat split; try assumption.
  - rewrite P3, P2, P1. lia.
  - rewrite D3, D2, D1, A2, A1, P2, P1.
    replace (publishes w + 0) with (publishes w) by lia.
    replace (publishes w + 1) with (S (publishes w)) by lia.
    replace (publishes w + 2) with (S (S (publishes w))) by lia.
    rewrite <- !app_assoc. reflexivity.
  - rewrite L3, L2, L1, A2, A1, P2, P1. unfold step_log.
    replace (publishes w + 0) with (publishes w) by lia.
    replace (publishes w + 1) with (S (publishes w)) by lia.
    replace (publishes w + 2) with (S (S (publishes w))) by lia.
    rewrite <- !app_assoc. reflexivity.
Qed.


(** What one call of [_send_task_to_agent] leaves at the broker and in
    the log: nothing at all when the channel is not set; an error
    naming the agent when the encoding or the publish fails; or else
    one message on the queue of the agent, its body the encoded
    [task_request], and a debug line. *)
Inductive send_outcome (n : list N) (td : list (list N * pyval))
  : list Delivery -> list (level * log_msg) -> Prop :=
| NoChannel : send_outcome n td [] []
| SendFailed (e : exn) : send_outcome n td [] [(ERROR, TaskSendError n e)]
| Sent (t : DateTime.datetime) (b : list byte) :
    Json.encode (task_message n t (PDict td)) = Return b ->
    send_outcome n td [direct n b] [(DEBUG, TaskSent n (task_type_of td))].

Lemma send_outcome_of (n : list N) (td : list (list N * pyval))
      (o : JarvisOrchestrator) :
  exists s l,
    delivered (env (send n td o)) = (delivered (env o) ++ s)%list
    /\ logged (env (send n td o)) = (logged (env o) ++ l)%list
    /\ send_outcome n td s l.
Proof.
  destruct o as [ag ss st cn ch ex mq sh ea w]. unfold send, sent_world.
  cbn [channel env set_env]. destruct ch.
  2:{ exists [], []. rewrite !app_nil_r. repeat split. constructor. }
  destruct (Json.encode _) as [b|e] eqn:He.
  2:{ exists [], [(ERROR, TaskSendError n e)]. cbn. rewrite app_nil_r.
      repeat split. constructor. }
  destruct (is_closed w).
  { exists [], [(ERROR, TaskSendError n ChannelInvalidStateError)]. cbn.
    rewrite app_nil_r. repeat split. constructor. }
  destruct (check_routing_key _) as [u|e].
  2:{ exists [], [(ERROR, TaskSendError n e)]. cbn. rewrite app_nil_r.
      repeat split. constructor. }
  destruct (accepts w (publishes w)) eqn:A.
  - exists [direct n b], [(DEBUG, TaskSent n (task_type_of td))]. cbn. rewrite A.
    repeat split. econstructor. exact He.
  - exists [], [(ERROR, TaskSendError n DeliveryError)]. cbn. rewrite A, app_nil_r.
    repeat split. constructor.
Qed.

(** The three sends, whatever becomes of each. *)
Lemma onboarded_outcome (cd : list (list N * pyval)) (o : JarvisOrchestrator) :
  exists s1 s2 s3 l1 l2 l3,
    delivered (env (onboarded cd o)) = (delivered (env o) ++ s1 ++ s2 ++ s3)%list
    /\ logged (env (onboarded cd o)) = (logged (env o) ++ l1 ++ l2 ++ l3)%list
    /\ send_outcome (lit "crm-agent") (register_client cd) s1 l1
    /\ send_outcome (lit "photo-agent") (create_client_folder cd) s2 l2
    /\ send_outcome (lit "calendar-agent") (schedule_consultation cd) s3 l3.
Proof.
  unfold onboarded.
  destruct (send_outcome_of (lit "crm-agent") (register_client cd) o)
    as (s1 & l1 & D1 & L1 & O1).
  set (o1 := send (lit "crm-agent") (register_client cd) o) in *.
  destruct (send_outcome_of (lit "photo-agent") (create_client_folder cd) o1)
    as (s2 & l2 & D2 & L2 & O2).
  set (o2 := send (lit "photo-agent") (create_client_folder cd) o1) in *.
  destruct (send_outcome_of (lit "calendar-agent") (schedule_consultation cd) o2)
    as (s3 & l3 & D3 & L3 & O3).
  exists s1, s2, s3, l1, l2, l3.
  rewrite D3, D2, D1, L3, L2, L1, <- !app_assoc. repeat split; assumption.
Qed.

(** C3, as the code has it.  Dispatching [client_onboarding] with client
    data that is a dictionary (or with none) always returns
    [status = initiated], whatever becomes of the sends: each of the
    three calls of [_send_task_to_agent], for crm-agent, photo-agent
    and calendar-agent in this order, either leaves one [task_request]
    from [orchestrator] on the queue of its agent, or leaves nothing
    there and at most an error naming its agent in the log; a failure
    is never reported to the caller.  When moreover the client data is
    data that JSON carries, the channel is set and the connection is
    open, exactly three publishes are made: the broker keeps those it
    takes, a send it refuses is logged with the name of its agent, what
    was sent before stays sent and the next steps are sent all the
    same. *)
Theorem onboarding_sends_three (task cd : list (list N * pyval))
        (o : JarvisOrchestrator) :
  Dict.get task (lit "type") = Some (PStr (lit "client_onboarding")) ->
  Json.get (PDict task) (lit "client_data") (PDict []) = Return (PDict cd) ->
  let o' := exec (execute_distributed_task (PDict task)) o in
  let p := publishes (env o) in
  let take i := accepts (env o) (p + i) in
  (exists r, result (execute_distributed_task (PDict task)) o = Return r
             /\ result_status r = lit "initiated")
  /\ (exists s1 s2 s3 l1 l2 l3,
        delivered (env o') = (delivered (env o) ++ s1 ++ s2 ++ s3)%list
        /\ logged (env o')
           = (logged (env o)
              ++ [(INFO, DistributedTask (PStr (lit "client_onboarding")))]
              ++ l1 ++ l2 ++ l3)%list
        /\ send_outcome (lit "crm-agent") (register_client cd) s1 l1
        /\ send_outcome (lit "photo-agent") (create_client_folder cd) s2 l2
        /\ send_outcome (lit "calendar-agent") (schedule_consultation cd) s3 l3)
  /\ (valid (PDict cd) = true -> channel o = true -> is_closed (env o) = false ->
      publishes (env o') = p + 3
      /\ exists m1 m2 m3,
           is_task_request_for (lit "crm-agent") m1 = true
           /\ is_task_request_for (lit "photo-agent") m2 = true
           /\ is_task_request_for (lit "calendar-agent") m3 = true
           /\ delivered (env o')
              = (delivered (env o)
                 ++ (if take 0 then [m1] else [])
                 ++ (if take 1 then [m2] else [])
                 ++ (if take 2 then [m3] else []))%list
           /\ logged (env o')
              = (logged (env o)
                 ++ [(INFO, DistributedTask (PStr (lit "client_onboarding")));
                     step_log (lit "crm-agent") (register_client cd) (take 0);
                     step_log (lit "photo-agent") (create_client_folder cd)
                       (take 1);
                     step_log (lit "calendar-agent") (schedule_consultation cd)
                       (take 2)])%list).
Proof.
  intros Ht Hcd o' p take. subst o'. unfold result, exec.
  rewrite (execute_distributed_task_onboarding task cd o Ht Hcd). cbn [fst snd].
  split; [eexists; split; reflexivity|].
  set (o0 := set_env _ o).
  assert (E : publishes (env o0) = p /\ accepts (env o0) = accepts (env o)
              /\ delivered (env o0) = delivered (env o)
              /\ logged (env o0)
                 = (logged (env o)
                    ++ [(INFO, DistributedTask (PStr (lit "client_onboarding")))])%list).
  { subst o0 p. destruct o; cbn. auto. }
  destruct E as (E1 & E2 & E3 & E4).
  split.
  - destruct (onboarded_outcome cd o0)
      as (s1 & s2 & s3 & l1 & l2 & l3 & D & L & O1 & O2 & O3).
    exists s1, s2, s3, l1, l2, l3. rewrite D, L, E3, E4, <- !app_assoc.
    repeat split; assumption.
  - intros Hv Hch Hopen.
    destruct (onboarded_open cd o0) as (m1 & m2 & m3 & T1 & T2 & T3 & P & D & L).
    { subst o0. destruct o; assumption. }
    { subst o0. destruct o; assumption. }
    { assumption. }
    cbv zeta in P, D, L.
    rewrite E1, E2, E3 in *. split; [assumption|].
    exists m1, m2, m3. repeat split; try assumption.
    rewrite L, E4, <- app_assoc. reflexivity.
Qed.

End DispatchFacts.

(** ** The agent runtime *)

Module AgentFacts.

Import BaseAgent PyStrFacts DictFacts DateTimeFacts CodecFacts.

Local Arguments lit : simpl never.
Local Arguments DateTime.isoformat : simpl never.
Local Arguments Json.encode : simpl never.
Local Arguments Json.decode : simpl never.

Section Runtime.

Context {X : Type} {impl : Subclass X}.

(** The log entry of the two [except] clauses of [_handle_message]. *)
Definition failure_entry (e : exn) : level * log_msg :=
  (ERROR, match e with
          | JSONDecodeError => JsonDecodeFailed e
          | _ => MessageHandlingFailed e
          end).

Definition acked (w : World) : World := add_settled Ack w.

(** The agent as [process_message] finds it. *)
Definition handed (m : pyval) (a : Agent X) : Agent X :=
  add_invoked (process_message_called m)
    (set_env (add_log (DEBUG, MessageReceived m) (env a)) a).

Lemma handle_message_run (message_body : list byte) (a : Agent X) :
  _handle_message message_body a
  = (Return tt,
     match Json.decode message_body with
     | Raise e => set_env (acked (add_log (failure_entry e) (env a))) a
     | Return m =>
         match process_message m (handed m a) with
         | (Return _, a') => set_env (acked (env a')) a'
         | (Raise e, a') => set_env (acked (add_log (failure_entry e) (env a'))) a'
         end
     end).
Proof.
  unfold _handle_message, process, try_except, handed, failure_entry, acked.
  unfold bind at 1. unfold lift at 1.
  destruct (Json.decode message_body) as [m|e].
  - unfold bind at 1. unfold log at 1, on_world, modify.
    unfold call_process_message, bind, modify. cbn [world with_world agent_world].
    destruct (process_message m _) as [[u|e] a'].
    + destruct u. reflexivity.
    + destruct e; reflexivity.
  - destruct e; reflexivity.
Qed.


Lemma publish_message_run (event_type : list N) (data : pyval) (a : Agent X) :
  exchange a = true ->
  valid data = true -> wf event_type = true -> wf (agent_name a) = true ->
  exists b,
    publish_message event_type data a
    = if is_closed (env a)
      then (Raise ChannelInvalidStateError, set_env (tick (env a)) a)
      else if accepts (env a) (publishes (env a))
           then (Return tt,
                 set_env
                   (add_log (DEBUG, MessageData
                               (PDict [(lit "event_type", PStr event_type);
                                       (lit "agent_source", PStr (agent_name a));
                                       (lit "timestamp",
                                        PStr (DateTime.isoformat
                                                (clock (env a) (ticks (env a)))));
                                       (lit "data", data)]))
                      (add_log (INFO, MessagePublished event_type)
                         (attempt {| exchange_name := lit "jarvis.events";
                                     routing_key := []; body := b |}
                            (tick (env a))))) a)
           else (Raise DeliveryError,
                 set_env (attempt {| exchange_name := lit "jarvis.events";
                                     routing_key := []; body := b |}
                            (tick (env a))) a).
Proof.
  intros Hex Hv Hev Hn.
  destruct (decode_encode
              (PDict [(lit "event_type", PStr event_type);
                      (lit "agent_source", PStr (agent_name a));
                      (lit "timestamp",
                       PStr (DateTime.isoformat (clock (env a) (ticks (env a)))));
                      (lit "data", data)])) as (b & He & _).
  { cbn [valid forallb fst snd]. rewrite Hev, Hn, Hv, isoformat_wf. reflexivity. }
  exists b. destruct a as [nm cn ch ex q x inv w]. cbn [exchange env agent_name] in *.
  subst ex.
  unfold publish_message, now, publish, log, on_world, modify, gets, lift, ret,
    raise, bind.
  cbn. rewrite He. cbn.
  destruct (is_closed w); cbn; [reflexivity|].
  destruct (accepts w (publishes w)); reflexivity.
Qed.

(** Stopping a started agent, then stopping it again. *)
Lemma stop_twice (a : Agent X) :
  exchange a = true -> connection a = true -> wf (agent_name a) = true ->
  is_closed (env a) = false ->
  accepts (env a) (publishes (env a)) = true ->
  result stop a = Return tt
  /\ is_closed (env (exec stop a)) = true
  /\ result stop (exec stop a) = Raise ChannelInvalidStateError.
Proof.
  intros Hex Hcn Hn Hopen Hacc.
  destruct (publish_message_run (lit "agent.stopped")
              (PDict [(lit "agent_name", PStr (agent_name a));
                      (lit "status", PStr (lit "offline"))])
              (set_env (add_log (INFO, AgentStopping (agent_name a)) (env a)) a))
    as (b & Hp).
  { destruct a; assumption. }
  { cbn [valid forallb fst snd]. rewrite Hn. reflexivity. }
  { reflexivity. }
  { destruct a; assumption. }
  assert (H1 : stop a
               = (Return tt,
                  set_env
                    (add_log (INFO, AgentStopped (agent_name a))
                       (set_closed true
                          (env (snd (publish_message (lit "agent.stopped")
                            (PDict [(lit "agent_name", PStr (agent_name a));
                                    (lit "status", PStr (lit "offline"))])
                            (set_env (add_log (INFO, AgentStopping (agent_name a))
                                        (env a)) a)))))) a)).
  { unfold stop. unfold bind at 1. unfold gets at 1.
    unfold bind at 1. unfold log at 1, on_world, modify.
    unfold bind at 1. unfold gets at 1.
    cbn [fst snd world with_world agent_world].
    replace (exchange (set_env (add_log (INFO, AgentStopping (agent_name a)) (env a)) a))
      with true by (destruct a; symmetry; assumption).
    unfold bind at 1. rewrite Hp.
    destruct a as [nm cn ch ex q x inv w].
    cbn [exchange env agent_name connection set_env add_log is_closed accepts
         publishes] in *.
    subst. rewrite Hopen, Hacc.
    unfold bind, gets, connection_close, log, on_world, modify. cbn.
    rewrite Hopen. reflexivity. }
  split; [unfold result; rewrite H1; reflexivity|].
  unfold exec. rewrite H1. cbn [snd]. split; [destruct a; reflexivity|].
  set (a1 := set_env _ a).
  destruct (publish_message_run (lit "agent.stopped")
              (PDict [(lit "agent_name", PStr (agent_name a1));
                      (lit "status", PStr (lit "offline"))])
              (set_env (add_log (INFO, AgentStopping (agent_name a1)) (env a1)) a1))
    as (b' & Hp').
  { subst a1. destruct a; assumption. }
  { cbn [valid forallb fst snd].
    replace (agent_name a1) with (agent_name a) by (destruct a; reflexivity).
    rewrite Hn. reflexivity. }
  { reflexivity. }
  { subst a1. destruct a; assumption. }
  unfold result, stop. unfold bind at 1. unfold gets at 1.
  unfold bind at 1. unfold log at 1, on_world, modify.
  unfold bind at 1. unfold gets at 1.
  cbn [fst snd world with_world agent_world].
  replace (exchange (set_env (add_log (INFO, AgentStopping (agent_name a1)) (env a1)) a1))
    with true by (subst a1; destruct a; symmetry; assumption).
  unfold bind at 1. rewrite Hp'.
  replace (is_closed (env (set_env (add_log (INFO, AgentStopping (agent_name a1))
                                      (env a1)) a1))) with true
    by (subst a1; destruct a; reflexivity).
  reflexivity.
Qed.

End Runtime.

End AgentFacts.

(** ** The agent runtime: the claims *)

Module AgentClaims.

Import BaseAgent PyStrFacts DictFacts CodecFacts AgentFacts.

Local Arguments lit : simpl never.
Local Arguments Json.decode : simpl never.

(** C5. A message body that does not decode raises nothing out of the
    handler: no extension point is called, nothing is published, the
    failure is logged, the message is acknowledged, and the messages
    after it are handled from the state so reached. *)
Theorem malformed_message_dropped {X : Type} {impl : Subclass X}
        (message_body : list byte) (rest : list (list byte)) (a : Agent X)
        (e : exn) :
  Json.decode message_body = Raise e ->
  let a' := exec (_handle_message message_body) a in
  result (_handle_message message_body) a = Return tt
  /\ invoked a' = invoked a /\ attrs a' = attrs a
  /\ delivered (env a') = delivered (env a)
  /\ settled (env a') = (settled (env a) ++ [Ack])%list
  /\ logged (env a') = (logged (env a) ++ [failure_entry e])%list
  /\ consume (message_body :: rest) a = consume rest a'.
Proof.
  intros Hd a'. subst a'. unfold consume, exec, result. cbn [fold_left].
  unfold exec. rewrite handle_message_run, Hd. cbn [fst snd].
  destruct a; cbn. repeat split; reflexivity.
Qed.


(** C9 at a started [MockAgent]: the first [stop] returns and closes the
    connection; the second finds [self.exchange] still set, publishes
    [agent.stopped] again and raises. *)
Theorem second_stop_raises :
  result (stop (X := MockAgent.MockAttrs)) Scenario.mock_agent = Return tt
  /\ is_closed (env (exec stop Scenario.mock_agent)) = true
  /\ result (stop (X := MockAgent.MockAttrs)) (exec stop Scenario.mock_agent)
     = Raise ChannelInvalidStateError.
Proof.
  apply (stop_twice Scenario.mock_agent); reflexivity.
Qed.

(** C4. Decoding the body that encoding gives a value that JSON carries
    and that holds no NaN (an envelope dictionary with any such payload,
    nested as it may be) returns that very value, which Python's [==]
    then finds equal to the one that was encoded.  NaN is left out: it
    is no JSON, and although it is written and read back as NaN, no
    value holding one is [==] to its decoded copy. *)
Theorem envelope_round_trip (e : pyval) :
  valid e = true -> nan_free e = true ->
  exists message_body,
    Json.encode e = Return message_body
    /\ Json.decode message_body = Return e.
Proof. intros Hv _. apply decode_encode. exact Hv. Qed.

End AgentClaims.

(** ** The claims at the scenarios *)

Module RegistryScenarios.

Import Orchestrator OrchestratorFacts RegistryClaims AlarmFacts Subscriber.

Lemma all_wf_forallb (ks : list (list N)) :
  forallb wf ks = true -> all_wf ks.
Proof.
  intros H. apply Forall_forall. exact (proj1 (forallb_forall wf ks) H).
Defined.

Lemma no_start_forallb (name : list N) (evs : list event) :
  forallb (fun ev => match ev with
                     | Consume b => negb (started_from name b)
                     | _ => true
                     end) evs = true ->
  forall b, In (Consume b) evs -> started_from name b = false.
Proof.
  intros H b Hin.
  apply (proj1 (forallb_forall _ evs) H) in Hin.
  destruct (started_from name b); [discriminate Hin | reflexivity].
Defined.

(** photo-agent, last seen at noon, swept 301 seconds later. *)
Lemma silent_agent_alarm_once_at_photo_agent :
  let o1 := exec _check_agent_health Scenario.silent in
  let o2 := exec _check_agent_health o1 in
  status_of o1 (lit "photo-agent") = Some unresponsive
  /\ alarms (lit "photo-agent") (env o1)
     = S (alarms (lit "photo-agent") (env Scenario.silent))
  /\ alarms (lit "photo-agent") (env o2) = alarms (lit "photo-agent") (env o1).
Proof.
  apply (silent_agent_alarm_once (lit "photo-agent")
           {| status := online; last_seen := Some Scenario.noon;
              messages_received := 1; errors := 0 |} Scenario.silent).
  - vm_compute; reflexivity.
  - vm_compute; reflexivity.
  - discriminate.
  - vm_compute; reflexivity.
  - split; [vm_compute; reflexivity | intros n; reflexivity].
  - apply all_wf_forallb. vm_compute; reflexivity.
Defined.

(** The roster of two: photo-agent announces itself, marketing-agent
    stays as it was. *)
Lemma started_sets_online_at_photo_agent :
  let o := Scenario.two_agents Scenario.steady Scenario.always in
  let message_body := Scenario.started (lit "photo-agent") in
  let o' := exec (_handle_agent_message message_body) o in
  result (_handle_agent_message message_body) o = Return tt
  /\ Dict.get (agents o') (lit "photo-agent")
     = option_map
         (fun a => {| status := online; last_seen := Some (reading o);
                      messages_received := messages_received a + 1;
                      errors := errors a |})
         (Dict.get (agents o) (lit "photo-agent"))
  /\ forall other, other <> lit "photo-agent" ->
       Dict.get (agents o') other = Dict.get (agents o) other.
Proof.
  apply (started_sets_online (lit "photo-agent")
           (Scenario.started (lit "photo-agent"))
           (Scenario.two_agents Scenario.steady Scenario.always));
    vm_compute; reflexivity.
Defined.

(** photo-agent, marked Unresponsive, then swept, heard from (but not
    with [agent.started]) and counted. *)
Lemma unresponsive_is_one_way_at_photo_agent :
  let evs := [Sweep; Consume (Scenario.photos_organized (lit "photo-agent"));
              PublishStats; Consume (Scenario.started (lit "crm-agent"));
              Consume Scenario.truncated; Sweep] in
  status_of (run evs Scenario.marked) (lit "photo-agent") <> Some online
  /\ forall b ev src,
       sender (agents Scenario.marked) b = Return (ev, src, Some (lit "photo-agent")) ->
       is_str ev (lit "agent.started") = false ->
       option_map last_seen
         (Dict.get (agents (exec (step (Consume b)) Scenario.marked))
            (lit "photo-agent"))
       = Some (Some (reading Scenario.marked))
       /\ status_of (exec (step (Consume b)) Scenario.marked) (lit "photo-agent")
          <> Some online.
Proof.
  apply (unresponsive_is_one_way (lit "photo-agent") Scenario.marked).
  - vm_compute; reflexivity.
  - apply no_start_forallb. vm_compute; reflexivity.
Defined.

(** marketing-agent never announced itself: three sweeps leave its
    record as it was set up. *)
Lemma expected_stays_expected_at_marketing_agent :
  let o := Scenario.orchestrator Scenario.jumping Scenario.always in
  Dict.get (agents (run (repeat Sweep 3) o)) (lit "marketing-agent")
  = Some fresh_agent
  /\ status_of (run (repeat Sweep 3) o) (lit "marketing-agent") = Some expected.
Proof.
  apply (expected_stays_expected (lit "marketing-agent") fresh_agent
           (Scenario.orchestrator Scenario.jumping Scenario.always) 3);
    vm_compute; reflexivity.
Defined.

(** The registry set up after connecting, then a run of events. *)
Lemma errors_always_zero_at_start :
  let o := exec _connect_to_rabbitmq
             (__init__ (Scenario.world Scenario.jumping Scenario.always)) in
  let evs := [Consume (Scenario.started (lit "photo-agent")); Sweep;
              Consume Scenario.not_utf8; PublishStats; Sweep;
              Consume (Scenario.photos_organized (lit "photo-agent"))] in
  let o1 := exec _start_agent_monitoring o in
  (forall n, In n (expected_agents o) ->
             Dict.get (agents o1) n = Some fresh_agent)
  /\ errors fresh_agent = 0%Z
  /\ errors_zero (agents (run evs o1)).
Proof.
  apply (errors_always_zero
           (exec _connect_to_rabbitmq
              (__init__ (Scenario.world Scenario.jumping Scenario.always))));
    vm_compute; reflexivity.
Defined.

End RegistryScenarios.

Module DispatchScenarios.

Import Orchestrator OrchestratorFacts DispatchFacts Subscriber.

(** Onboarding Ana while the broker refuses the second publish. *)
Lemma onboarding_sends_three_at_ana :
  let o := Scenario.orchestrator Scenario.steady Scenario.second_fails in
  let task := Scenario.onboarding_ana in
  let cd := Scenario.client_ana in
  let o' := exec (execute_distributed_task (PDict task)) o in
  let p := publishes (env o) in
  let take i := accepts (env o) (p + i) in
  (exists r, result (execute_distributed_task (PDict task)) o = Return r
             /\ result_status r = lit "initiated")
  /\ (exists s1 s2 s3 l1 l2 l3,
        delivered (env o') = (delivered (env o) ++ s1 ++ s2 ++ s3)%list
        /\ logged (env o')
           = (logged (env o)
              ++ [(INFO, DistributedTask (PStr (lit "client_onboarding")))]
              ++ l1 ++ l2 ++ l3)%list
        /\ send_outcome (lit "crm-agent") (register_client cd) s1 l1
        /\ send_outcome (lit "photo-agent") (create_client_folder cd) s2 l2
        /\ send_outcome (lit "calendar-agent") (schedule_consultation cd) s3 l3)
  /\ publishes (env o') = p + 3
  /\ exists m1 m2 m3,
       is_task_request_for (lit "crm-agent") m1 = true
       /\ is_task_request_for (lit "photo-agent") m2 = true
       /\ is_task_request_for (lit "calendar-agent") m3 = true
       /\ delivered (env o')
          = (delivered (env o)
             ++ (if take 0 then [m1] else [])
             ++ (if take 1 then [m2] else [])
             ++ (if take 2 then [m3] else []))%list
       /\ logged (env o')
          = (logged (env o)
             ++ [(INFO, DistributedTask (PStr (lit "client_onboarding")));
                 step_log (lit "crm-agent") (register_client cd) (take 0);
                 step_log (lit "photo-agent") (create_client_folder cd) (take 1);
                 step_log (lit "calendar-agent") (schedule_consultation cd)
                   (take 2)])%list.
Proof.
  destruct (onboarding_sends_three Scenario.onboarding_ana Scenario.client_ana
              (Scenario.orchestrator Scenario.steady Scenario.second_fails))
    as (R & O & G).
  - vm_compute; reflexivity.
  - vm_compute; reflexivity.
  - split; [exact R|]. split; [exact O|].
    apply G; vm_compute; reflexivity.
Defined.

(** C3 as stated fails: with the second send refused, crm-agent and
    calendar-agent both get their message and the dispatcher returns
    [initiated]; the refusal is only logged. *)
Lemma onboarding_second_send_fails :
  let o := Scenario.orchestrator Scenario.steady Scenario.second_fails in
  let dispatch := execute_distributed_task (PDict Scenario.onboarding_ana) in
  accepts (env o) (publishes (env o) + 1) = false
  /\ (exists r, result dispatch o = Return r
                /\ r = Initiated None (lit "Onboarding de cliente iniciado")
                /\ result_status r = lit "initiated"
                /\ result_status r <> lit "error")
  /\ map routing_key (delivered (env (exec dispatch o)))
     = map routing_key (delivered (env o))
       ++ [lit "crm-agent.queue"; lit "calendar-agent.queue"]
  /\ filter (fun l => match fst l with ERROR => true | _ => false end)
       (logged (env (exec dispatch o)))
     = [(ERROR, TaskSendError (lit "photo-agent") DeliveryError)].
Proof.
  split; [vm_compute; reflexivity | split].
  - eexists. split; [vm_compute; reflexivity | ].
    split; [reflexivity | split; [reflexivity | discriminate]].
  - split; vm_compute; reflexivity.
Qed.

End DispatchScenarios.

Module AgentScenarios.

Import BaseAgent AgentFacts AgentClaims.

(** A body cut short, followed by two more messages. *)
Lemma malformed_message_dropped_at_truncated :
  let a := Scenario.mock_agent in
  let message_body := Scenario.truncated in
  let rest := [Scenario.not_utf8; Scenario.task_request (lit "test-agent")] in
  let a' := exec (_handle_message (impl := MockAgent.mock_agent) message_body) a in
  result (_handle_message (impl := MockAgent.mock_agent) message_body) a
  = Return tt
  /\ invoked a' = invoked a /\ attrs a' = attrs a
  /\ delivered (env a') = delivered (env a)
  /\ settled (env a') = (settled (env a) ++ [Ack])%list
  /\ logged (env a') = (logged (env a) ++ [failure_entry JSONDecodeError])%list
  /\ consume (impl := MockAgent.mock_agent) (message_body :: rest) a
     = consume (impl := MockAgent.mock_agent) rest a'.
Proof.
  apply (malformed_message_dropped (impl := MockAgent.mock_agent)
           Scenario.truncated
           [Scenario.not_utf8; Scenario.task_request (lit "test-agent")]
           Scenario.mock_agent JSONDecodeError).
  vm_compute; reflexivity.
Defined.

(** The envelope with a nested payload. *)
Lemma envelope_round_trip_at_nested :
  exists message_body,
    Json.encode Scenario.nested_envelope = Return message_body
    /\ Json.decode message_body = Return Scenario.nested_envelope.
Proof.
  apply (envelope_round_trip Scenario.nested_envelope).
  - vm_compute; reflexivity.
  - vm_compute; reflexivity.
Defined.



End AgentScenarios.

(** ** The registry over a run of events *)

Module RosterFacts.

Import Orchestrator PyStrFacts DictFacts OrchestratorFacts RegistryFacts
       AlarmFacts Subscriber.

Local Arguments lit : simpl never.
Local Arguments Json.decode : simpl never.

(** A message body that decodes to a dictionary whose [agent_source] is
    [agent_name], whatever its [event_type]. *)
Definition sent_by (agent_name : list N) (message_body : list byte) : bool :=
  match Json.decode message_body with
  | Return m => is_str (field m (lit "agent_source")) agent_name
  | Raise _ => false
  end.

(** A message body that decodes to
    [{event_type: 'agent.stopped', agent_source: <name>}]. *)
Definition stopped_from (agent_name : list N) (message_body : list byte) : bool :=
  match Json.decode message_body with
  | Return m =>
      is_str (field m (lit "event_type")) (lit "agent.stopped")
      && is_str (field m (lit "agent_source")) agent_name
  | Raise _ => false
  end.

(** The messages of a run that came from [agent_name]. *)
Definition heard (agent_name : list N) (evs : list event) : nat :=
  List.length
    (filter (fun ev => match ev with
                       | Consume b => sent_by agent_name b
                       | _ => false
                       end) evs).

(** The warnings of the first branch of [_check_agent_health]. *)
Definition awaiting (w : World) : list (level * log_msg) :=
  filter (fun r => match snd r with AwaitingAgent _ => true | _ => false end)
         (logged w).

(** *** Keys *)

Lemma keys_fold_alter (f : AgentInfo -> AgentInfo) (ks : list (list N))
      (d : Dict.dict AgentInfo) :
  Dict.keys (fold_left (fun d n => Dict.alter f d n) ks d) = Dict.keys d.
Proof.
  revert d. induction ks as [|k ks IH]; intros d; [reflexivity|].
  cbn [fold_left]. rewrite IH. apply keys_alter.
Qed.

Lemma keys_step (ev : event) (o : JarvisOrchestrator) :
  Dict.keys (agents (exec (step ev) o)) = Dict.keys (agents o).
Proof.
  destruct ev as [| |b|t n].
  - rewrite step_sweep, swept_all_agents. apply keys_fold_alter.
  - destruct (step_stats o) as [-> _]. reflexivity.
  - rewrite step_consume, handled_agents.
    destruct (sender (agents o) b) as [[[ev src] [k|]]|e]; try reflexivity.
    apply keys_alter.
  - rewrite step_check, checked_agents. apply keys_alter.
Qed.

(** X1. No event adds a record to the registry, removes one or moves one:
    after any run of sweeps, statistics and consumed messages (from
    rostered agents, from strangers, malformed) the keys are those the
    run started with, in the same order. *)
Theorem roster_is_fixed (evs : list event) (o : JarvisOrchestrator) :
  Dict.keys (agents (run evs o)) = Dict.keys (agents o).
Proof.
  unfold run. revert o. induction evs as [|ev evs IH]; intros o; [reflexivity|].
  cbn [fold_left]. rewrite IH. apply keys_step.
Qed.

(** *** Who a message is from *)

Lemma sender_sent_by (ag : Dict.dict AgentInfo) (b : list byte)
      (ev src : pyval) (k : list N) :
  sender ag b = Return (ev, src, Some k) -> sent_by k b = true.
Proof.
  unfold sender, sent_by, field. intros H.
  destruct (Json.decode b) as [m|e]; [|discriminate]. cbn [obind] in H.
  destruct (Json.get m (lit "event_type") (PStr [])) as [ev'|e];
    [|discriminate]. cbn [obind] in H.
  destruct (Json.get m (lit "agent_source") (PStr [])) as [src'|e];
    [|discriminate]. cbn [obind] in H.
  destruct src'; cbn [contains obind] in H; try discriminate.
  destruct (Dict.mem ag s) eqn:M; inversion H; subst.
  cbn [is_str]. apply eqb_refl.
Qed.

Lemma sent_by_sender (ag : Dict.dict AgentInfo) (b : list byte) (name : list N) :
  sent_by name b = true -> Dict.mem ag name = true ->
  exists ev, sender ag b = Return (ev, PStr name, Some name).
Proof.
  unfold sender, sent_by, field. intros H Hmem.
  destruct (Json.decode b) as [m|e]; [|discriminate]. cbn [obind].
  destruct m; cbn [Json.get] in *; try discriminate.
  cbn [obind]. apply is_str_true in H. rewrite H. cbn [contains obind].
  rewrite Hmem. eexists. reflexivity.
Qed.

Lemma mem_get (d : Dict.dict AgentInfo) (k : list N) (a : AgentInfo) :
  Dict.get d k = Some a -> Dict.mem d k = true.
Proof. unfold Dict.mem. intros ->. reflexivity. Qed.

(** *** The count of messages *)

Lemma swept_messages (t : DateTime.datetime) (a : AgentInfo) :
  messages_received (swept t a) = messages_received a.
Proof.
  unfold swept. destruct (last_seen a); [|reflexivity].
  destruct (DateTime.total_seconds_gt _ _); reflexivity.
Qed.

Lemma noted_messages (t : DateTime.datetime) (ev : pyval) (a : AgentInfo) :
  messages_received (noted t ev a) = (messages_received a + 1)%Z.
Proof.
  unfold noted. destruct (is_str ev (lit "agent.started")); [reflexivity|].
  destruct (is_str ev (lit "agent.stopped")); reflexivity.
Qed.

Definition received (o : JarvisOrchestrator) (name : list N) : option Z :=
  option_map messages_received (Dict.get (agents o) name).

Lemma received_step (name : list N) (c : Z) (ev : event) (o : JarvisOrchestrator) :
  received o name = Some c ->
  received (exec (step ev) o) name
  = Some (c + match ev with
              | Consume b => if sent_by name b then 1 else 0
              | _ => 0
              end)%Z.
Proof.
  intros H. unfold received in *.
  assert (Hquiet :
            forall ev', (forall b, ev' <> Consume b) ->
                        option_map messages_received
                          (Dict.get (agents (exec (step ev') o)) name)
                        = Some c).
  { intros ev' Hev'.
    apply (kept_step name
             (fun x => option_map messages_received x = Some c)
             (fun _ => False)).
    - intros t a Ha. cbn [option_map] in *. rewrite swept_messages. assumption.
    - intros ag body t e src a [].
    - destruct ev'; cbn [permitted]; try exact I. exfalso. eapply Hev'. reflexivity.
    - assumption. }
  destruct ev as [| |b|t n]; try (rewrite Z.add_0_r; apply Hquiet; discriminate).
  rewrite step_consume, handled_agents.
  destruct (Dict.get (agents o) name) as [a|] eqn:G; [|discriminate].
  cbn [option_map] in H. inversion H; subst c. clear H.
  destruct (sent_by name b) eqn:S.
  - destruct (sent_by_sender (agents o) b name S (mem_get _ _ _ G)) as (e & ->).
    rewrite get_alter_same, G. cbn [option_map]. rewrite noted_messages.
    reflexivity.
  - rewrite Z.add_0_r.
    destruct (sender (agents o) b) as [[[e src] [k|]]|e] eqn:Sd;
      try (rewrite G; reflexivity).
    rewrite get_alter_other; [rewrite G; reflexivity|].
    intros ->. apply sender_sent_by in Sd. congruence.
Qed.

(** X2. [messages_received] of a record counts the consumed messages
    whose [agent_source] is that identity, whatever their event type:
    after any run it is what it was plus the number of such messages;
    sweeps, statistics, messages of others and bodies that do not decode
    leave it alone. *)
Theorem messages_received_counts (name : list N) (a : AgentInfo)
        (evs : list event) (o : JarvisOrchestrator) :
  Dict.get (agents o) name = Some a ->
  option_map messages_received (Dict.get (agents (run evs o)) name)
  = Some (messages_received a + Z.of_nat (heard name evs))%Z.
Proof.
  intros G.
  assert (H : received o name = Some (messages_received a))
    by (unfold received; rewrite G; reflexivity).
  clear G. revert H. generalize (messages_received a). intros c.
  change (received o name = Some c ->
          received (run evs o) name = Some (c + Z.of_nat (heard name evs))%Z).
  unfold run. revert o c. induction evs as [|ev evs IH]; intros o c H.
  - cbn. rewrite Z.add_0_r. assumption.
  - cbn [fold_left]. rewrite (IH _ _ (received_step name c ev o H)).
    f_equal. unfold heard. cbn [filter].
    destruct ev as [| |b|t n]; try (rewrite Z.add_0_r; reflexivity).
    destruct (sent_by name b); cbn [List.length]; lia.
Qed.

(** *** [agent.stopped] *)

Lemma stopped_from_sender (ag : Dict.dict AgentInfo) (name : list N)
      (message_body : list byte) :
  stopped_from name message_body = true ->
  Dict.mem ag name = true ->
  sender ag message_body
  = Return (PStr (lit "agent.stopped"), PStr name, Some name).
Proof.
  unfold stopped_from, sender, field. intros H Hmem.
  destruct (Json.decode message_body) as [m|e]; [|discriminate]. cbn [obind].
  destruct (Json.get m (lit "event_type") (PStr [])) as [ev|e];
    [|discriminate].
  destruct (Json.get m (lit "agent_source") (PStr [])) as [src|e];
    [|rewrite andb_false_r in H; discriminate].
  apply andb_true_iff in H. destruct H as [H1 H2].
  apply is_str_true in H1, H2. subst ev src. cbn [obind contains].
  rewrite Hmem. reflexivity.
Qed.

(** X3. An [agent.stopped] from a rostered identity sets that record
    Offline, with [last_seen] the time of handling and one more message
    received; every other record is left as it was, and the message is
    acknowledged. *)
Theorem stopped_sets_offline (name : list N) (message_body : list byte)
        (o : JarvisOrchestrator) :
  stopped_from name message_body = true ->
  Dict.mem (agents o) name = true ->
  let o' := exec (_handle_agent_message message_body) o in
  result (_handle_agent_message message_body) o = Return tt
  /\ Dict.get (agents o') name
     = option_map
         (fun a => {| status := offline; last_seen := Some (reading o);
                      messages_received := messages_received a + 1;
                      errors := errors a |})
         (Dict.get (agents o) name)
  /\ (forall other, other <> name ->
        Dict.get (agents o') other = Dict.get (agents o) other)
  /\ settled (env o') = (settled (env o) ++ [Ack])%list.
Proof.
  intros Hs Hmem o'. subst o'. unfold exec, result.
  rewrite handle_agent_message_run. cbn [fst snd].
  rewrite handled_agents, (stopped_from_sender (agents o) name message_body Hs Hmem).
  split; [reflexivity|]. split; [|split].
  - rewrite get_alter_same. destruct (Dict.get (agents o) name); reflexivity.
  - intros other Hne. apply get_alter_other. assumption.
  - apply handled_delivered.
Qed.

(** *** The threshold of the sweep *)

Lemma swept_swept (t : DateTime.datetime) (a : AgentInfo) :
  swept t (swept t a) = swept t a.
Proof.
  unfold swept. destruct (last_seen a) as [seen|] eqn:L.
  - destruct (DateTime.total_seconds_gt _ _) eqn:G.
    + cbn [set_status last_seen]. rewrite L, G. destruct a; reflexivity.
    + rewrite L, G. reflexivity.
  - cbn [set_status last_seen]. rewrite L. destruct a; reflexivity.
Qed.

Lemma get_fold_swept (t : DateTime.datetime) (name : list N)
      (ks : list (list N)) (d : Dict.dict AgentInfo) :
  Dict.get (fold_left (fun d n => Dict.alter (swept t) d n) ks d) name
  = if existsb (fun k => PyStr.eqb k name) ks
    then option_map (swept t) (Dict.get d name)
    else Dict.get d name.
Proof.
  revert d. induction ks as [|k ks IH]; intros d; [reflexivity|].
  cbn [fold_left existsb]. rewrite IH, get_alter.
  destruct (PyStr.eqb k name); cbn [orb].
  - destruct (existsb _ ks); [|reflexivity].
    destruct (Dict.get d name); cbn [option_map]; [|reflexivity].
    rewrite swept_swept. reflexivity.
  - reflexivity.
Qed.

Lemma existsb_keys (d : Dict.dict AgentInfo) (name : list N) (a : AgentInfo) :
  Dict.get d name = Some a ->
  existsb (fun k => PyStr.eqb k name) (Dict.keys d) = true.
Proof.
  intros G. apply existsb_exists. exists name. split; [|apply eqb_refl].
  apply get_keys. congruence.
Qed.

(** The record of [name] after a sweep. *)
Lemma sweep_record (name : list N) (a : AgentInfo) (o : JarvisOrchestrator) :
  Dict.get (agents o) name = Some a ->
  Dict.get (agents (exec _check_agent_health o)) name
  = Some (swept (reading o) a).
Proof.
  intros G. change (exec _check_agent_health o) with (exec (step Sweep) o).
  rewrite step_sweep, swept_all_agents, get_fold_swept.
  rewrite (existsb_keys _ _ _ G), G. reflexivity.
Qed.

(** A turn of the sweep that finds nothing to do. *)
Lemma checked_quiet (t : DateTime.datetime) (n : list N) (o : JarvisOrchestrator) :
  (forall a, Dict.get (agents o) n = Some a ->
             exists seen, last_seen a = Some seen
                          /\ (DateTime.total_seconds_gt (DateTime.timedelta t seen) 300
                              = false
                              \/ status a = unresponsive)) ->
  checked t n o = o.
Proof.
  intros H. unfold checked. destruct (Dict.get (agents o) n) as [a|]; [|reflexivity].
  destruct (H a eq_refl) as (seen & -> & [G|S]).
  - rewrite G. reflexivity.
  - rewrite S. cbn [status_eqb negb]. rewrite andb_false_r. reflexivity.
Qed.

Lemma sweep_other_alarms (name : list N) (t : DateTime.datetime)
      (ks : list (list N)) :
  all_wf ks ->
  forall o,
    (forall a, Dict.get (agents o) name = Some a ->
               exists seen, last_seen a = Some seen
                            /\ (DateTime.total_seconds_gt
                                  (DateTime.timedelta t seen) 300 = false
                                \/ status a = unresponsive)) ->
    alarms name (env (fold_left (fun o' n => checked t n o') ks o))
    = alarms name (env o).
Proof.
  induction 1 as [|k ks Hk Hks IH]; intros o Hq; [reflexivity|].
  cbn [fold_left]. destruct (PyStr.eqb k name) eqn:E.
  - apply eqb_eq in E. subst k. rewrite (checked_quiet t name o Hq).
    apply IH. assumption.
  - apply eqb_neq in E. rewrite IH.
    + apply checked_alarms_other; assumption.
    + intros a. rewrite checked_agents, get_alter_other by congruence. apply Hq.
Qed.

(** X4. The threshold of the sweep is exclusive: a record whose silence
    is 300 seconds or less is left as it is and no alarm goes out for
    it; a record silent for more than 300 seconds, were it by a
    microsecond, is set Unresponsive. *)
Theorem sweep_threshold (name : list N) (a : AgentInfo) (seen : DateTime.datetime)
        (o : JarvisOrchestrator) :
  Dict.get (agents o) name = Some a ->
  last_seen a = Some seen ->
  all_wf (Dict.keys (agents o)) ->
  let o' := exec _check_agent_health o in
  ((reading o - seen <= 300 * 1000000)%Z ->
   Dict.get (agents o') name = Some a
   /\ alarms name (env o') = alarms name (env o))
  /\ ((300 * 1000000 < reading o - seen)%Z ->
      Dict.get (agents o') name = Some (set_status unresponsive a)).
Proof.
  intros G L Hwf o'. subst o'. rewrite (sweep_record name a o G).
  unfold swept. rewrite L. unfold DateTime.total_seconds_gt, DateTime.timedelta.
  split; intros Hc.
  - replace (300 * 1000000 <? reading o - seen)%Z with false
      by (symmetry; apply Z.ltb_ge; assumption).
    split; [reflexivity|].
    change (exec _check_agent_health o) with (exec (step Sweep) o).
    rewrite step_sweep. unfold swept_all.
    rewrite sweep_other_alarms.
    + destruct o; reflexivity.
    + replace (Dict.keys (agents o)) with (Dict.keys (agents (ticked o)))
        in Hwf by (destruct o; reflexivity).
      destruct o; assumption.
    + intros a'. replace (agents (ticked o)) with (agents o)
        by (destruct o; reflexivity).
      rewrite G. intros Ha'. inversion Ha'; subst a'.
      exists seen. split; [assumption|]. left.
      unfold DateTime.total_seconds_gt, DateTime.timedelta.
      apply Z.ltb_ge. assumption.
  - replace (300 * 1000000 <? reading o - seen)%Z with true
      by (symmetry; apply Z.ltb_lt; assumption).
    reflexivity.
Qed.

(** *** The statistics *)

(** The dictionary [_publish_system_stats] builds: [t] is the reading of
    the clock for the uptime, [stamp] the one for the timestamp. *)
Definition stats_data (o : JarvisOrchestrator) (t stamp : DateTime.datetime)
  : pyval :=
  PDict [(lit "system_status", PStr (system_status_str (system_status o)));
         (lit "uptime_seconds",
          PFloat (DateTime.total_seconds (DateTime.timedelta t (start_time o))));
         (lit "agents",
          PDict (map (fun kv => (fst kv, agent_info_value (snd kv))) (agents o)));
         (lit "agents_online", PInt (count_status online (agents o)));
         (lit "agents_expected",
          PInt (Z.of_nat (List.length (expected_agents o))));
         (lit "timestamp", PStr (DateTime.isoformat stamp))].

Definition stats_world (o : JarvisOrchestrator) : World :=
  let w := env o in
  let w2 := tick (tick w) in
  if exchange o
  then published_world (lit "system.stats")
         (stats_data o (clock w (ticks w)) (clock w (S (ticks w)))) w2
  else w2.

Lemma publish_system_stats_world (o : JarvisOrchestrator) :
  _publish_system_stats o = (Return tt, set_env (stats_world o) o).
Proof.
  unfold _publish_system_stats, stats_world, stats_data, try_except, bind, now,
    gets, on_world, modify, ret.
  cbn. rewrite publish_system_event_run.
  destruct o as [ag ss st cn ch ex mq sh ea w]. cbn.
  destruct ex; reflexivity.
Qed.

(** *** Records never seen *)

Definition unseen_fresh (a : AgentInfo) : Prop :=
  last_seen a = None -> a = fresh_agent.

Definition all_unseen_fresh (d : Dict.dict AgentInfo) : Prop :=
  Forall (fun kv => unseen_fresh (snd kv)) d.

Lemma swept_unseen_fresh (t : DateTime.datetime) (a : AgentInfo) :
  unseen_fresh a -> unseen_fresh (swept t a).
Proof.
  unfold unseen_fresh, swept. intros H.
  destruct (last_seen a) as [seen|] eqn:L.
  - destruct (DateTime.total_seconds_gt _ _); cbn [set_status last_seen];
      congruence.
  - rewrite (H eq_refl). reflexivity.
Qed.

Lemma noted_unseen_fresh (t : DateTime.datetime) (ev : pyval) (a : AgentInfo) :
  unseen_fresh (noted t ev a).
Proof. unfold unseen_fresh. rewrite RegistryClaims.noted_last_seen. discriminate. Qed.

Lemma awaiting_add_log (r : level * log_msg) (w : World) :
  (match snd r with AwaitingAgent _ => false | _ => true end) = true ->
  awaiting (add_log r w) = awaiting w.
Proof.
  unfold awaiting, add_log. cbn [logged]. intros H.
  rewrite filter_app. cbn [filter].
  destruct (snd r); try discriminate; apply app_nil_r.
Qed.

Local Arguments awaiting : simpl never.

Lemma awaiting_published_world (ev : list N) (data : pyval) (w : World) :
  awaiting (published_world ev data w) = awaiting w.
Proof.
  unfold published_world. destruct (Json.encode _).
  - destruct (is_closed w); [rewrite awaiting_add_log by reflexivity; reflexivity|].
    destruct (accepts w (publishes w));
      rewrite ?awaiting_add_log by reflexivity; reflexivity.
  - rewrite awaiting_add_log by reflexivity. reflexivity.
Qed.

Lemma get_unseen_fresh (d : Dict.dict AgentInfo) (n : list N) (a : AgentInfo) :
  all_unseen_fresh d -> Dict.get d n = Some a -> unseen_fresh a.
Proof.
  intros H G. apply get_In in G. unfold all_unseen_fresh in H.
  rewrite Forall_forall in H. apply (H _ G).
Qed.

Lemma checked_awaiting (t : DateTime.datetime) (n : list N)
      (o : JarvisOrchestrator) :
  all_unseen_fresh (agents o) ->
  awaiting (env (checked t n o)) = awaiting (env o).
Proof.
  intros H. unfold checked.
  destruct (Dict.get (agents o) n) as [a|] eqn:G; [|reflexivity].
  pose proof (get_unseen_fresh _ _ _ H G) as Ha.
  destruct (last_seen a) as [seen|] eqn:L.
  - destruct (_ && _); [|reflexivity].
    destruct o as [ag ss st cn ch ex mq sh ea w]. cbn [env set_env set_agents exchange].
    destruct ex; [rewrite awaiting_published_world|];
      rewrite awaiting_add_log by reflexivity; reflexivity.
  - rewrite (Ha L). reflexivity.
Qed.

Lemma checked_unseen_fresh (t : DateTime.datetime) (n : list N)
      (o : JarvisOrchestrator) :
  all_unseen_fresh (agents o) -> all_unseen_fresh (agents (checked t n o)).
Proof.
  intros H. rewrite checked_agents.
  apply (Forall_alter unseen_fresh); [apply swept_unseen_fresh|assumption].
Qed.

Lemma fold_checked_unseen (t : DateTime.datetime) (ks : list (list N))
      (o : JarvisOrchestrator) :
  all_unseen_fresh (agents o) ->
  let o' := fold_left (fun o' n => checked t n o') ks o in
  all_unseen_fresh (agents o') /\ awaiting (env o') = awaiting (env o).
Proof.
  revert o. induction ks as [|k ks IH]; intros o H; [split; [assumption|reflexivity]|].
  cbn [fold_left]. destruct (IH (checked t k o) (checked_unseen_fresh t k o H))
    as [H1 H2].
  split; [assumption|]. cbv zeta in H2. rewrite H2. apply checked_awaiting.
  assumption.
Qed.

Lemma handled_awaiting (b : list byte) (o : JarvisOrchestrator) :
  awaiting (env (handled b o)) = awaiting (env o).
Proof.
  unfold handled. destruct (sender _ _) as [[[ev src] [k|]]|e];
    destruct o; cbn [env set_env set_agents];
    repeat match goal with
           | |- context [if ?b then _ else _] => destruct b
           end;
    change (awaiting (add_settled Ack ?w)) with (awaiting w);
    rewrite ?awaiting_add_log by reflexivity; reflexivity.
Qed.

Lemma step_unseen (ev : event) (o : JarvisOrchestrator) :
  all_unseen_fresh (agents o) ->
  all_unseen_fresh (agents (exec (step ev) o))
  /\ awaiting (env (exec (step ev) o)) = awaiting (env o).
Proof.
  intros H. destruct ev as [| |b|t n].
  - rewrite step_sweep. unfold swept_all.
    destruct (fold_checked_unseen (reading o) (Dict.keys (agents o)) (ticked o))
      as [H1 H2].
    + destruct o; assumption.
    + split; [assumption|]. cbv zeta in H2. rewrite H2. destruct o; reflexivity.
  - unfold exec. cbn [step]. rewrite publish_system_stats_world. cbn [snd].
    split; [destruct o; assumption|].
    unfold stats_world. destruct o as [ag ss st cn ch ex mq sh ea w].
    cbn [env set_env exchange]. destruct ex;
      [rewrite awaiting_published_world|]; reflexivity.
  - rewrite step_consume. split; [|apply handled_awaiting].
    rewrite handled_agents.
    destruct (sender (agents o) b) as [[[e src] [k|]]|e]; try assumption.
    apply (Forall_alter unseen_fresh); [|assumption].
    intros a _. apply noted_unseen_fresh.
  - rewrite step_check. split; [apply checked_unseen_fresh|apply checked_awaiting];
      assumption.
Qed.

Lemma run_unseen (evs : list event) (o : JarvisOrchestrator) :
  all_unseen_fresh (agents o) ->
  all_unseen_fresh (agents (run evs o))
  /\ awaiting (env (run evs o)) = awaiting (env o).
Proof.
  unfold run. revert o. induction evs as [|ev evs IH]; intros o H;
    [split; [assumption|reflexivity]|].
  cbn [fold_left]. destruct (step_unseen ev o H) as [H1 H2].
  destruct (IH _ H1) as [H3 H4]. split; [assumption|]. congruence.
Qed.

Lemma fold_set_env (names : list (list N)) (o : JarvisOrchestrator) :
  env (fold_left
         (fun s x => set_agents (Dict.set (agents s) x fresh_agent) s)
         names o)
  = env o.
Proof.
  revert o. induction names as [|n names IH]; intros o; [reflexivity|].
  cbn [fold_left]. rewrite IH. destruct o; reflexivity.
Qed.

Lemma start_agent_monitoring_env (o : JarvisOrchestrator) :
  management_queue o = true ->
  env (exec _start_agent_monitoring o)
  = add_log (INFO, MonitoringStarting) (env o).
Proof.
  intros Hq. unfold exec, _start_agent_monitoring.
  destruct o as [ag ss st cn ch ex mq sh ea w]. cbn in Hq. subst mq.
  unfold log, on_world, gets, ret, bind. cbn -[for_each].
  rewrite (for_each_run _ (fun n o => set_agents (Dict.set (agents o) n fresh_agent) o))
    by reflexivity.
  cbn [fst snd]. rewrite fold_set_env. reflexivity.
Qed.

(** X5. From the registry that [_start_agent_monitoring] sets up, through
    any run of events, a record that was never heard from is exactly
    the record it started as (Expected, no message, no error); the
    first branch of [_check_agent_health] therefore never finds a status
    to reset, and its warning is never logged. *)
Theorem never_seen_stays_fresh (o : JarvisOrchestrator) (evs : list event) :
  agents o = [] -> management_queue o = true ->
  let o' := run evs (exec _start_agent_monitoring o) in
  (forall n a, Dict.get (agents o') n = Some a -> last_seen a = None ->
               a = fresh_agent)
  /\ awaiting (env o') = awaiting (env o).
Proof.
  intros He Hq o'. subst o'.
  destruct (RegistryClaims.start_agent_monitoring_run o Hq) as [_ Hag].
  assert (H0 : all_unseen_fresh (agents (exec _start_agent_monitoring o))).
  { rewrite Hag, He. generalize (expected_agents o). intros names.
    assert (H : all_unseen_fresh (@nil (list N * AgentInfo))) by constructor.
    revert H. generalize (@nil (list N * AgentInfo)).
    induction names as [|n names IH]; intros d H; [assumption|].
    cbn [fold_left]. apply IH.
    apply (Forall_set unseen_fresh); [intros _; reflexivity|assumption]. }
  destruct (run_unseen evs _ H0) as [H1 H2]. split.
  - intros n a G L. exact (get_unseen_fresh _ _ _ H1 G L).
  - rewrite H2, (start_agent_monitoring_env o Hq).
    apply awaiting_add_log. reflexivity.
Qed.

(** *** The handler, whatever the message *)

(** X6. [_handle_agent_message] raises on no message body: it returns,
    acknowledges the message and publishes nothing.  A body that does
    not decode, or that decodes to something other than a dictionary,
    is logged as an error and leaves the registry alone; so does a
    message whose source is no key of the registry (nothing is logged
    for it unless its type is one of the three that are). *)
Theorem handler_takes_any_message (message_body : list byte)
        (o : JarvisOrchestrator) :
  let o' := exec (_handle_agent_message message_body) o in
  result (_handle_agent_message message_body) o = Return tt
  /\ settled (env o') = (settled (env o) ++ [Ack])%list
  /\ delivered (env o') = delivered (env o)
  /\ (forall e, Json.decode message_body = Raise e ->
        agents o' = agents o
        /\ logged (env o')
           = (logged (env o) ++ [(ERROR, MessageProcessingError e)])%list)
  /\ (forall m, Json.decode message_body = Return m ->
        (forall d, m <> PDict d) ->
        agents o' = agents o
        /\ logged (env o')
           = (logged (env o)
              ++ [(ERROR, MessageProcessingError AttributeError)])%list)
  /\ (forall m name, Json.decode message_body = Return m ->
        field m (lit "agent_source") = PStr name ->
        Dict.mem (agents o) name = false ->
        agents o' = agents o).
Proof.
  intros o'. subst o'. unfold exec, result.
  rewrite handle_agent_message_run. cbn [fst snd].
  split; [reflexivity|]. split; [apply handled_delivered|].
  split; [apply handled_delivered|].
  split; [|split].
  - intros e He. unfold handled, sender. rewrite He. cbn [obind].
    destruct o; split; reflexivity.
  - intros m Hm Hnd. unfold handled, sender. rewrite Hm. cbn [obind].
    destruct m; try (destruct o; split; reflexivity).
    exfalso. eapply Hnd. reflexivity.
  - intros m name Hm Hsrc Hmem. rewrite handled_agents. unfold sender.
    rewrite Hm. cbn [obind]. unfold field in Hsrc.
    destruct m; cbn [Json.get] in *; try discriminate.
    cbn [obind]. rewrite Hsrc. cbn [contains obind]. rewrite Hmem. reflexivity.
Qed.

End RosterFacts.

(** ** The statistics broadcast *)

Module StatsFacts.

Import Orchestrator PyStrFacts DictFacts DateTimeFacts CodecFacts
       OrchestratorFacts RegistryFacts AlarmFacts Subscriber RosterFacts.

Local Arguments lit : simpl never.
Local Arguments DateTime.isoformat : simpl never.
Local Arguments DateTime.total_seconds : simpl never.
Local Arguments PyFloat.repr : simpl never.
Local Arguments int_repr : simpl never.
Local Arguments encode_basestring_ascii : simpl never.
Local Arguments Json.encode : simpl never.
Local Arguments Json.decode : simpl never.

(** *** What [json.dumps] does with a [datetime] *)

Lemma map_outcome_raise {A B : Type} (f : A -> outcome B) (e : exn)
      (l : list A) :
  (forall x, In x l -> f x = Raise e \/ exists y, f x = Return y) ->
  (exists x, In x l /\ f x = Raise e) ->
  map_outcome f l = Raise e.
Proof.
  induction l as [|x l IH]; intros Hall (x0 & Hin & Hx0); [destruct Hin|].
  cbn [map_outcome]. destruct (Hall x (or_introl eq_refl)) as [Hx|(y & Hx)];
    rewrite Hx; cbn [obind]; [reflexivity|].
  fold (map_outcome f l). rewrite IH; [reflexivity| |].
  - intros x' Hx'. apply Hall. right. assumption.
  - destruct Hin as [<-|Hin]; [congruence|]. exists x0. split; assumption.
Qed.

Lemma dumps_agent_info (a : AgentInfo) :
  match last_seen a with
  | Some _ => dumps (agent_info_value a) = Raise TypeError
  | None => exists t, dumps (agent_info_value a) = Return t
  end.
Proof.
  destruct a as [s [seen|] m e]; unfold agent_info_value;
    cbn [last_seen status messages_received errors dumps map_outcome obind fst snd];
    [reflexivity|eexists; reflexivity].
Qed.

Definition agents_value (d : Dict.dict AgentInfo) : pyval :=
  PDict (map (fun kv => (fst kv, agent_info_value (snd kv))) d).

Lemma dumps_agents_seen (d : Dict.dict AgentInfo) :
  (exists kv seen, In kv d /\ last_seen (snd kv) = Some seen) ->
  dumps (agents_value d) = Raise TypeError.
Proof.
  intros (kv & seen & Hin & Hs). unfold agents_value. cbn [dumps].
  rewrite (map_outcome_raise _ TypeError); [reflexivity| |].
  - intros x Hx. apply in_map_iff in Hx. destruct Hx as (kv' & <- & _).
    cbn [fst snd]. pose proof (dumps_agent_info (snd kv')) as H.
    destruct (last_seen (snd kv')).
    + left. rewrite H. reflexivity.
    + right. destruct H as (t & ->). eexists. reflexivity.
  - exists (fst kv, agent_info_value (snd kv)). split.
    + apply in_map_iff. exists kv. split; [reflexivity|assumption].
    + cbn [fst snd]. pose proof (dumps_agent_info (snd kv)) as H.
      rewrite Hs in H. rewrite H. reflexivity.
Qed.

Lemma encode_stats_seen (o : JarvisOrchestrator) (t stamp now : DateTime.datetime) :
  (exists kv seen, In kv (agents o) /\ last_seen (snd kv) = Some seen) ->
  Json.encode (event_message (lit "system.stats") now (stats_data o t stamp))
  = Raise TypeError.
Proof.
  intros H. apply dumps_agents_seen in H.
  unfold Json.encode, event_message, stats_data.
  fold (agents_value (agents o)). revert H.
  generalize (agents_value (agents o)). intros ag H.
  cbn [dumps map_outcome obind fst snd]. rewrite H. reflexivity.
Qed.

(** X7. Once any record of the registry holds a [last_seen] (a
    [datetime], which [json.dumps] refuses), [_publish_system_stats]
    publishes nothing: the encoding fails inside
    [_publish_system_event], the failure is logged there, and the call
    returns. *)
Theorem stats_unpublished_once_seen (name : list N) (a : AgentInfo)
        (seen : DateTime.datetime) (o : JarvisOrchestrator) :
  Dict.get (agents o) name = Some a -> last_seen a = Some seen ->
  exchange o = true ->
  let o' := exec _publish_system_stats o in
  result _publish_system_stats o = Return tt
  /\ agents o' = agents o
  /\ publishes (env o') = publishes (env o)
  /\ delivered (env o') = delivered (env o)
  /\ logged (env o')
     = (logged (env o) ++ [(ERROR, EventPublishError TypeError)])%list.
Proof.
  intros G L Hex o'. subst o'. unfold exec, result.
  rewrite publish_system_stats_world. cbn [fst snd].
  split; [reflexivity|]. unfold stats_world. rewrite Hex.
  unfold published_world. rewrite encode_stats_seen.
  - destruct o; repeat split; reflexivity.
  - exists (name, a), seen. split; [|assumption].
    destruct o; cbn [agents env tick] in *. apply get_In. assumption.
Qed.

(** *** The statistics while nobody was heard from *)

Lemma distinct_map {V W : Type} (f : V -> W) (d : Dict.dict V) :
  Dict.distinct (map (fun kv => (fst kv, f (snd kv))) d) = Dict.distinct d.
Proof.
  assert (Hget : forall (d : Dict.dict V) k,
             Dict.get (map (fun kv => (fst kv, f (snd kv))) d) k
             = option_map f (Dict.get d k)).
  { intros d' k. induction d' as [|[k' v] d' IH]; [reflexivity|].
    cbn [map fst snd Dict.get]. destruct (PyStr.eqb k' k); [reflexivity|apply IH]. }
  induction d as [|[k v] d IH]; [reflexivity|].
  cbn [map fst snd Dict.distinct]. rewrite IH. unfold Dict.mem. rewrite Hget.
  destruct (Dict.get d k); reflexivity.
Qed.

Lemma status_str_wf (s : Status) : wf (status_str s) = true.
Proof. destruct s; reflexivity. Qed.

Lemma system_status_str_wf (s : SystemStatus) : wf (system_status_str s) = true.
Proof. destruct s; reflexivity. Qed.

Lemma valid_agent_info (a : AgentInfo) :
  last_seen a = None -> valid (agent_info_value a) = true.
Proof.
  intros L. unfold agent_info_value. rewrite L.
  cbn [valid forallb fst snd]. rewrite status_str_wf. reflexivity.
Qed.

Lemma valid_agents_value (d : Dict.dict AgentInfo) :
  Forall (fun kv => last_seen (snd kv) = None) d ->
  all_wf (Dict.keys d) -> Dict.distinct d = true ->
  valid (agents_value d) = true.
Proof.
  intros Hu Hwf Hd. unfold agents_value. cbn [valid].
  rewrite distinct_map, Hd, andb_true_r.
  apply forallb_forall. intros x Hx. apply in_map_iff in Hx.
  destruct Hx as (kv & <- & Hin). cbn [fst snd].
  rewrite Forall_forall in Hu. rewrite (valid_agent_info _ (Hu _ Hin)).
  unfold all_wf in Hwf. rewrite Forall_forall in Hwf.
  rewrite Hwf; [reflexivity|]. unfold Dict.keys. apply in_map. assumption.
Qed.

Lemma valid_stats_data (o : JarvisOrchestrator) (t stamp : DateTime.datetime) :
  Forall (fun kv => last_seen (snd kv) = None) (agents o) ->
  all_wf (Dict.keys (agents o)) -> Dict.distinct (agents o) = true ->
  valid (stats_data o t stamp) = true.
Proof.
  intros Hu Hwf Hd. pose proof (valid_agents_value _ Hu Hwf Hd) as Hv.
  unfold stats_data. fold (agents_value (agents o)). revert Hv.
  generalize (agents_value (agents o)). intros ag Hv.
  cbn [valid forallb fst snd].
  rewrite system_status_str_wf, total_seconds_ok, Hv, isoformat_wf.
  reflexivity.
Qed.

(** X8. While no record of the registry holds a [last_seen], with the
    exchange set and the broker taking what is published,
    [_publish_system_stats] broadcasts one [system.stats] event on
    [jarvis.events]: its body decodes to the envelope of the orchestrator
    around the statistics of the registry, and nothing is logged. *)
Theorem stats_published_while_unseen (o : JarvisOrchestrator) :
  Forall (fun kv => last_seen (snd kv) = None) (agents o) ->
  all_wf (Dict.keys (agents o)) -> Dict.distinct (agents o) = true ->
  exchange o = true -> broker_up (env o) ->
  let o' := exec _publish_system_stats o in
  let t := clock (env o) in
  let n := ticks (env o) in
  exists message_body,
    delivered (env o') = (delivered (env o) ++ [broadcast message_body])%list
    /\ Json.decode message_body
       = Return (event_message (lit "system.stats") (t (S (S n)))
                   (stats_data o (t n) (t (S n))))
    /\ logged (env o') = logged (env o)
    /\ agents o' = agents o.
Proof.
  intros Hu Hwf Hd Hex [Hopen Hacc] o' t n. subst o' t n. unfold exec.
  rewrite publish_system_stats_world. cbn [snd].
  unfold stats_world. rewrite Hex. unfold published_world.
  destruct (decode_encode
              (event_message (lit "system.stats")
                 (clock (tick (tick (env o))) (ticks (tick (tick (env o)))))
                 (stats_data o (clock (env o) (ticks (env o)))
                    (clock (env o) (S (ticks (env o)))))))
    as (b & He & Hdec).
  { apply valid_event_message; [reflexivity|].
    apply valid_stats_data; assumption. }
  rewrite He. exists b.
  replace (is_closed (tick (tick (env o)))) with false
    by (symmetry; exact Hopen).
  replace (accepts (tick (tick (env o))) (publishes (tick (tick (env o)))))
    with true by (symmetry; apply Hacc).
  destruct o as [ag ss st cn ch ex mq sh ea w].
  cbn [env set_env agents attempt tick delivered logged accepts publishes] in *.
  rewrite Hacc. repeat split; try reflexivity. exact Hdec.
Qed.

End StatsFacts.

(** ** The workflows of the dispatcher *)

Module WorkflowFacts.

Import Orchestrator PyStrFacts DictFacts DateTimeFacts CodecFacts
       OrchestratorFacts DispatchFacts Subscriber.

Local Arguments lit : simpl never.
Local Arguments DateTime.isoformat : simpl never.
Local Arguments DateTime.strftime_compact : simpl never.
Local Arguments Json.encode : simpl never.
Local Arguments Json.decode : simpl never.

(** The task types [execute_distributed_task] has a workflow for. *)
Definition recognised (task_data : pyval) : bool :=
  match task_data with
  | PDict d =>
      match Dict.get d (lit "type") with
      | Some ty =>
          is_str ty (lit "complete_photo_workflow")
          || is_str ty (lit "marketing_campaign_launch")
          || is_str ty (lit "client_onboarding")
      | None => false
      end
  | _ => false
  end.

(** The task of a [task_request] as its receiver decodes it. *)
Definition task_of (message_body : list byte) : pyval :=
  match Json.decode message_body with
  | Return m => field m (lit "task")
  | Raise _ => PNone
  end.

(** *** One send, the broker taking it *)

Lemma send_taken (n : list N) (td : list (list N * pyval))
      (o : JarvisOrchestrator) :
  wf n = true -> check_routing_key (n ++ lit ".queue") = Return tt ->
  valid (PDict td) = true ->
  channel o = true -> broker_up (env o) ->
  exists b,
    Json.decode b = Return (task_message n (reading o) (PDict td))
    /\ send n td o
       = set_env (add_log (DEBUG, TaskSent n (task_type_of td))
                    (attempt (direct n b) (tick (env o)))) o.
Proof.
  intros Hn Hk Hv Hch [Hopen Hacc].
  destruct (decode_encode (task_message n (reading o) (PDict td)))
    as (b & He & Hd).
  { apply valid_task_message; assumption. }
  exists b. split; [assumption|].
  unfold send, sent_world. rewrite Hch. fold (reading o). rewrite He, Hopen, Hk, Hacc.
  reflexivity.
Qed.

Lemma taken_up (r : level * log_msg) (d : Delivery) (o : JarvisOrchestrator) :
  broker_up (env o) ->
  broker_up (env (set_env (add_log r (attempt d (tick (env o)))) o)).
Proof. intros [H1 H2]. destruct o; split; [exact H1|exact H2]. Qed.

Lemma taken_delivered (r : level * log_msg) (d : Delivery) (w : World) :
  accepts w (publishes w) = true ->
  delivered (add_log r (attempt d (tick w))) = (delivered w ++ [d])%list.
Proof. intros H. cbn. rewrite H. reflexivity. Qed.

Lemma task_of_message (b : list byte) (n : list N) (t : DateTime.datetime)
      (td : pyval) :
  Json.decode b = Return (task_message n t td) -> task_of b = td.
Proof. unfold task_of. intros ->. reflexivity. Qed.

Lemma request_for (b : list byte) (n : list N) (t : DateTime.datetime)
      (td : pyval) :
  Json.decode b = Return (task_message n t td) ->
  is_task_request_for n (direct n b) = true.
Proof.
  intros Hd. unfold is_task_request_for. cbn [direct exchange_name routing_key body].
  rewrite Hd, !eqb_refl.
  change (field (task_message n t td) (lit "to")) with (PStr n).
  cbn [is_str]. rewrite eqb_refl. reflexivity.
Qed.

(** *** Three sends in a row *)

Section Three.

Variables n1 n2 n3 : list N.
Variables td1 td2 td3 : list (list N * pyval).
Hypothesis wf1 : wf n1 = true.
Hypothesis wf2 : wf n2 = true.
Hypothesis wf3 : wf n3 = true.
Hypothesis key1 : check_routing_key (n1 ++ lit ".queue") = Return tt.
Hypothesis key2 : check_routing_key (n2 ++ lit ".queue") = Return tt.
Hypothesis key3 : check_routing_key (n3 ++ lit ".queue") = Return tt.
Hypothesis v1 : valid (PDict td1) = true.
Hypothesis v2 : valid (PDict td2) = true.
Hypothesis v3 : valid (PDict td3) = true.

Lemma three_taken (o : JarvisOrchestrator) :
  channel o = true -> broker_up (env o) ->
  let o' := send n3 td3 (send n2 td2 (send n1 td1 o)) in
  exists b1 b2 b3,
    task_of b1 = PDict td1 /\ task_of b2 = PDict td2 /\ task_of b3 = PDict td3
    /\ is_task_request_for n1 (direct n1 b1) = true
    /\ is_task_request_for n2 (direct n2 b2) = true
    /\ is_task_request_for n3 (direct n3 b3) = true
    /\ delivered (env o')
       = (delivered (env o) ++ [direct n1 b1; direct n2 b2; direct n3 b3])%list
    /\ logged (env o')
       = (logged (env o)
          ++ [(DEBUG, TaskSent n1 (task_type_of td1));
              (DEBUG, TaskSent n2 (task_type_of td2));
              (DEBUG, TaskSent n3 (task_type_of td3))])%list
    /\ agents o' = agents o.
Proof.
  intros Hch Hup o'. subst o'.
  destruct (send_taken n1 td1 o wf1 key1 v1 Hch Hup) as (b1 & D1 & S1).
  rewrite S1. set (o1 := set_env _ o).
  assert (Hch1 : channel o1 = true) by (subst o1; destruct o; assumption).
  assert (Hup1 : broker_up (env o1)) by (apply taken_up; assumption).
  destruct (send_taken n2 td2 o1 wf2 key2 v2 Hch1 Hup1) as (b2 & D2 & S2).
  rewrite S2. set (o2 := set_env _ o1).
  assert (Hch2 : channel o2 = true) by (subst o2; destruct o1; assumption).
  assert (Hup2 : broker_up (env o2)) by (apply taken_up; assumption).
  destruct (send_taken n3 td3 o2 wf3 key3 v3 Hch2 Hup2) as (b3 & D3 & S3).
  rewrite S3.
  exists b1, b2, b3.
  split; [eapply task_of_message; eassumption|].
  split; [eapply task_of_message; eassumption|].
  split; [eapply task_of_message; eassumption|].
  split; [eapply request_for; eassumption|].
  split; [eapply request_for; eassumption|].
  split; [eapply request_for; eassumption|].
  destruct Hup as [_ A0], Hup1 as [_ A1], Hup2 as [_ A2].
  split; [|split].
  - replace (env (set_env (add_log (DEBUG, TaskSent n3 (task_type_of td3))
                             (attempt (direct n3 b3) (tick (env o2)))) o2))
      with (add_log (DEBUG, TaskSent n3 (task_type_of td3))
              (attempt (direct n3 b3) (tick (env o2))))
      by (destruct o2; reflexivity).
    rewrite taken_delivered by apply A2.
    replace (env o2)
      with (add_log (DEBUG, TaskSent n2 (task_type_of td2))
              (attempt (direct n2 b2) (tick (env o1))))
      by (subst o2; destruct o1; reflexivity).
    rewrite taken_delivered by apply A1.
    replace (env o1)
      with (add_log (DEBUG, TaskSent n1 (task_type_of td1))
              (attempt (direct n1 b1) (tick (env o))))
      by (subst o1; destruct o; reflexivity).
    rewrite taken_delivered by apply A0.
    rewrite <- !app_assoc. reflexivity.
  - subst o2 o1. destruct o. cbn. rewrite <- !app_assoc. reflexivity.
  - subst o2 o1. destruct o. reflexivity.
Qed.

End Three.

(** *** complete_photo_workflow *)

Definition workflow_id (t : DateTime.datetime) : list N :=
  (lit "workflow_" ++ DateTime.strftime_compact t)%list.

Definition organize_task (path : pyval) (wid : list N) :=
  [(lit "type", PStr (lit "organize_photos"));
   (lit "path", path);
   (lit "workflow_id", PStr wid)].

Definition suggest_task (wid : list N) :=
  [(lit "type", PStr (lit "suggest_content"));
   (lit "context", PDict [(lit "photos_processed", PBool true)]);
   (lit "workflow_id", PStr wid)].

Definition schedule_task (wid : list N) :=
  [(lit "type", PStr (lit "schedule_posts"));
   (lit "workflow_id", PStr wid)].

Definition logged_task (ty : pyval) (o : JarvisOrchestrator) : JarvisOrchestrator :=
  set_env (add_log (INFO, DistributedTask ty) (env o)) o.

Lemma execute_photo_workflow_run (task : list (list N * pyval)) (path : pyval)
      (o : JarvisOrchestrator) :
  Json.get (PDict task) (lit "photo_path") (PStr (lit "/app/photos")) = Return path ->
  let wid := workflow_id (reading o) in
  _execute_photo_workflow (PDict task) o
  = (Return (Initiated (Some wid) (lit "Workflow de fotos iniciado")),
     send (lit "social-media-agent") (schedule_task wid)
       (send (lit "marketing-agent") (suggest_task wid)
          (send (lit "photo-agent") (organize_task path wid) (ticked o)))).
Proof.
  intros Hp wid. subst wid. unfold _execute_photo_workflow, workflow_id.
  unfold bind at 1. unfold now, bind, gets, on_world, modify, ret.
  cbn [fst snd world with_world orchestrator_world].
  unfold lift at 1. rewrite Hp.
  rewrite send_task_to_agent_run.
  rewrite send_task_to_agent_run.
  rewrite send_task_to_agent_run.
  reflexivity.
Qed.

Lemma execute_distributed_task_photo (task : list (list N * pyval)) (path : pyval)
      (o : JarvisOrchestrator) :
  Dict.get task (lit "type") = Some (PStr (lit "complete_photo_workflow")) ->
  Json.get (PDict task) (lit "photo_path") (PStr (lit "/app/photos")) = Return path ->
  let wid := workflow_id (reading o) in
  execute_distributed_task (PDict task) o
  = (Return (Initiated (Some wid) (lit "Workflow de fotos iniciado")),
     send (lit "social-media-agent") (schedule_task wid)
       (send (lit "marketing-agent") (suggest_task wid)
          (send (lit "photo-agent") (organize_task path wid)
             (ticked (logged_task (PStr (lit "complete_photo_workflow")) o))))).
Proof.
  intros Ht Hp wid. subst wid. unfold execute_distributed_task, try_except.
  unfold bind at 1. unfold lift at 1. cbn [Json.get]. rewrite Ht.
  unfold bind at 1. unfold log at 1, on_world, modify.
  change (is_str (PStr (lit "complete_photo_workflow")) (lit "complete_photo_workflow"))
    with true.
  cbv iota.
  cbn [fst snd world with_world orchestrator_world].
  fold (logged_task (PStr (lit "complete_photo_workflow")) o).
  rewrite (execute_photo_workflow_run task path) by assumption.
  replace (reading (logged_task (PStr (lit "complete_photo_workflow")) o))
    with (reading o) by (destruct o; reflexivity).
  reflexivity.
Qed.

Lemma workflow_id_wf (t : DateTime.datetime) : wf (workflow_id t) = true.
Proof. unfold workflow_id. rewrite wf_app, strftime_compact_wf. reflexivity. Qed.

(** X9. [complete_photo_workflow], the channel set and the broker taking
    what is published: three task requests go out, to photo-agent
    ([organize_photos] on the given path, [/app/photos] when none is
    given), marketing-agent ([suggest_content]) and social-media-agent
    ([schedule_posts]) in this order; the three carry one and the same
    [workflow_id], [workflow_] followed by the date and time of the
    dispatch, and that identifier is the one returned to the caller. *)
Theorem photo_workflow_shares_id (task : list (list N * pyval)) (path : pyval)
        (o : JarvisOrchestrator) :
  Dict.get task (lit "type") = Some (PStr (lit "complete_photo_workflow")) ->
  Json.get (PDict task) (lit "photo_path") (PStr (lit "/app/photos")) = Return path ->
  valid path = true ->
  channel o = true -> broker_up (env o) ->
  let o' := exec (execute_distributed_task (PDict task)) o in
  let wid := (lit "workflow_" ++ DateTime.strftime_compact (reading o))%list in
  result (execute_distributed_task (PDict task)) o
  = Return (Initiated (Some wid) (lit "Workflow de fotos iniciado"))
  /\ exists b1 b2 b3,
       delivered (env o')
       = (delivered (env o)
          ++ [direct (lit "photo-agent") b1; direct (lit "marketing-agent") b2;
              direct (lit "social-media-agent") b3])%list
       /\ is_task_request_for (lit "photo-agent") (direct (lit "photo-agent") b1)
          = true
       /\ is_task_request_for (lit "marketing-agent")
            (direct (lit "marketing-agent") b2) = true
       /\ is_task_request_for (lit "social-media-agent")
            (direct (lit "social-media-agent") b3) = true
       /\ task_of b1
          = PDict [(lit "type", PStr (lit "organize_photos"));
                   (lit "path", path); (lit "workflow_id", PStr wid)]
       /\ task_of b2
          = PDict [(lit "type", PStr (lit "suggest_content"));
                   (lit "context", PDict [(lit "photos_processed", PBool true)]);
                   (lit "workflow_id", PStr wid)]
       /\ task_of b3
          = PDict [(lit "type", PStr (lit "schedule_posts"));
                   (lit "workflow_id", PStr wid)].
Proof.
  intros Ht Hp Hv Hch Hup o' wid. subst o'.
  unfold exec, result.
  rewrite (execute_distributed_task_photo task path o Ht Hp). cbn [fst snd].
  fold (workflow_id (reading o)) in wid. subst wid.
  split; [reflexivity|].
  set (o0 := ticked (logged_task (PStr (lit "complete_photo_workflow")) o)).
  assert (Hch0 : channel o0 = true) by (subst o0; destruct o; assumption).
  assert (Hup0 : broker_up (env o0)).
  { subst o0. destruct Hup as [U1 U2]. destruct o; split; [exact U1|exact U2]. }
  pose proof (workflow_id_wf (reading o)) as Hw.
  destruct (three_taken (lit "photo-agent") (lit "marketing-agent")
              (lit "social-media-agent")
              (organize_task path (workflow_id (reading o)))
              (suggest_task (workflow_id (reading o)))
              (schedule_task (workflow_id (reading o)))
              eq_refl eq_refl eq_refl eq_refl eq_refl eq_refl) with (o := o0)
    as (b1 & b2 & b3 & T1 & T2 & T3 & R1 & R2 & R3 & D & _ & _);
    try assumption.
  - unfold organize_task. cbn [valid forallb fst snd Dict.distinct].
    rewrite Hv.
    rewrite Hw. reflexivity.
  - unfold suggest_task. cbn [valid forallb fst snd Dict.distinct].
    rewrite Hw. reflexivity.
  - unfold schedule_task. cbn [valid forallb fst snd Dict.distinct].
    rewrite Hw. reflexivity.
  - exists b1, b2, b3. cbv zeta in D. rewrite D.
    replace (delivered (env o0)) with (delivered (env o))
      by (subst o0; destruct o; reflexivity).
    repeat split; assumption.
Qed.

(** *** marketing_campaign_launch *)

Definition create_campaign (cd : pyval) :=
  [(lit "type", PStr (lit "create_campaign")); (lit "campaign_data", cd)].
Definition prepare_campaign_posts (cd : pyval) :=
  [(lit "type", PStr (lit "prepare_campaign_posts")); (lit "campaign_data", cd)].
Definition segment_audience (cd : pyval) :=
  [(lit "type", PStr (lit "segment_audience")); (lit "campaign_data", cd)].

Lemma execute_distributed_task_marketing (task : list (list N * pyval))
      (cd : pyval) (o : JarvisOrchestrator) :
  Dict.get task (lit "type") = Some (PStr (lit "marketing_campaign_launch")) ->
  Json.get (PDict task) (lit "campaign_data") (PDict []) = Return cd ->
  execute_distributed_task (PDict task) o
  = (Return (Initiated None (lit "Campanha de marketing iniciada")),
     send (lit "crm-agent") (segment_audience cd)
       (send (lit "social-media-agent") (prepare_campaign_posts cd)
          (send (lit "marketing-agent") (create_campaign cd)
             (logged_task (PStr (lit "marketing_campaign_launch")) o)))).
Proof.
  intros Ht Hc. unfold execute_distributed_task, try_except.
  unfold bind at 1. unfold lift at 1. cbn [Json.get]. rewrite Ht.
  unfold bind at 1. unfold log at 1, on_world, modify.
  change (is_str (PStr (lit "marketing_campaign_launch")) (lit "complete_photo_workflow"))
    with false.
  change (is_str (PStr (lit "marketing_campaign_launch")) (lit "marketing_campaign_launch"))
    with true.
  cbv iota.
  cbn [fst snd world with_world orchestrator_world].
  fold (logged_task (PStr (lit "marketing_campaign_launch")) o).
  unfold _execute_marketing_campaign.
  unfold bind at 1. unfold lift at 1. rewrite Hc.
  unfold bind at 1. rewrite send_task_to_agent_run.
  unfold bind at 1. rewrite send_task_to_agent_run.
  unfold bind at 1. rewrite send_task_to_agent_run.
  reflexivity.
Qed.

Lemma valid_typed (ty k : list N) (v : pyval) :
  wf ty = true -> wf k = true -> PyStr.eqb k (lit "type") = false ->
  valid v = true ->
  valid (PDict [(lit "type", PStr ty); (k, v)]) = true.
Proof.
  intros Hty Hk Hne Hv. apply valid_two; try assumption; reflexivity.
Qed.

(** X10. [marketing_campaign_launch], the channel set and the broker
    taking what is published: three task requests go out, to
    marketing-agent ([create_campaign]), social-media-agent
    ([prepare_campaign_posts]) and crm-agent ([segment_audience]) in this
    order, each carrying the caller's [campaign_data] as it was given
    (an empty dictionary when none was); the result is [initiated]. *)
Theorem marketing_campaign_sends_three (task : list (list N * pyval))
        (campaign_data : pyval) (o : JarvisOrchestrator) :
  Dict.get task (lit "type") = Some (PStr (lit "marketing_campaign_launch")) ->
  Json.get (PDict task) (lit "campaign_data") (PDict []) = Return campaign_data ->
  valid campaign_data = true ->
  channel o = true -> broker_up (env o) ->
  let o' := exec (execute_distributed_task (PDict task)) o in
  result (execute_distributed_task (PDict task)) o
  = Return (Initiated None (lit "Campanha de marketing iniciada"))
  /\ exists b1 b2 b3,
       delivered (env o')
       = (delivered (env o)
          ++ [direct (lit "marketing-agent") b1;
              direct (lit "social-media-agent") b2;
              direct (lit "crm-agent") b3])%list
       /\ is_task_request_for (lit "marketing-agent")
            (direct (lit "marketing-agent") b1) = true
       /\ is_task_request_for (lit "social-media-agent")
            (direct (lit "social-media-agent") b2) = true
       /\ is_task_request_for (lit "crm-agent") (direct (lit "crm-agent") b3)
          = true
       /\ task_of b1
          = PDict [(lit "type", PStr (lit "create_campaign"));
                   (lit "campaign_data", campaign_data)]
       /\ task_of b2
          = PDict [(lit "type", PStr (lit "prepare_campaign_posts"));
                   (lit "campaign_data", campaign_data)]
       /\ task_of b3
          = PDict [(lit "type", PStr (lit "segment_audience"));
                   (lit "campaign_data", campaign_data)].
Proof.
  intros Ht Hc Hv Hch Hup o'. subst o'.
  unfold exec, result.
  rewrite (execute_distributed_task_marketing task campaign_data o Ht Hc).
  cbn [fst snd]. split; [reflexivity|].
  set (o0 := logged_task (PStr (lit "marketing_campaign_launch")) o).
  assert (Hch0 : channel o0 = true) by (subst o0; destruct o; assumption).
  assert (Hup0 : broker_up (env o0)).
  { subst o0. destruct Hup as [U1 U2]. destruct o; split; [exact U1|exact U2]. }
  destruct (three_taken (lit "marketing-agent") (lit "social-media-agent")
              (lit "crm-agent")
              (create_campaign campaign_data)
              (prepare_campaign_posts campaign_data)
              (segment_audience campaign_data)
              eq_refl eq_refl eq_refl eq_refl eq_refl eq_refl) with (o := o0)
    as (b1 & b2 & b3 & T1 & T2 & T3 & R1 & R2 & R3 & D & _ & _);
    try assumption;
    try (apply valid_typed; [reflexivity|reflexivity|reflexivity|assumption]).
  exists b1, b2, b3. cbv zeta in D. rewrite D.
  replace (delivered (env o0)) with (delivered (env o))
    by (subst o0; destruct o; reflexivity).
  repeat split; assumption.
Qed.

(** *** What the dispatcher refuses *)

Lemma is_str_false_not (ty : pyval) (s : list N) :
  is_str ty s = false -> ty <> PStr s.
Proof. intros H ->. cbn [is_str] in H. rewrite eqb_refl in H. discriminate. Qed.

(** X11. A task whose type is none of the three workflows (no [type] at
    all included), or that is no dictionary, is answered with
    [status = error] and nothing is sent: the dispatcher never raises. *)
Theorem dispatch_refuses_unknown (task_data : pyval) (o : JarvisOrchestrator) :
  recognised task_data = false ->
  let o' := exec (execute_distributed_task task_data) o in
  (exists r, result (execute_distributed_task task_data) o = Return r
             /\ result_status r = lit "error"
             /\ match task_data with
                | PDict d =>
                    r = UnknownTaskType
                          (match Dict.get d (lit "type") with
                           | Some ty => ty
                           | None => PStr []
                           end)
                | _ => r = Failed AttributeError
                end)
  /\ publishes (env o') = publishes (env o)
  /\ delivered (env o') = delivered (env o)
  /\ agents o' = agents o.
Proof.
  intros Hr o'. subst o'.
  assert (Hrun :
            execute_distributed_task task_data o
            = match task_data with
              | PDict d =>
                  let ty := match Dict.get d (lit "type") with
                            | Some ty => ty
                            | None => PStr []
                            end in
                  (Return (UnknownTaskType ty), logged_task ty o)
              | _ =>
                  (Return (Failed AttributeError),
                   set_env (add_log (ERROR, DistributedTaskError AttributeError)
                              (env o)) o)
              end).
  { unfold execute_distributed_task, try_except.
    unfold bind at 1. unfold lift at 1.
    destruct task_data as [| | | | |l|d|t]; try reflexivity.
    cbn [Json.get]. cbn [recognised] in Hr.
    set (ty := match Dict.get d (lit "type") with Some x => x | None => PStr [] end).
    assert (H3 : is_str ty (lit "complete_photo_workflow") = false
                 /\ is_str ty (lit "marketing_campaign_launch") = false
                 /\ is_str ty (lit "client_onboarding") = false).
    { subst ty. destruct (Dict.get d (lit "type")) as [x|].
      - rewrite !orb_false_iff in Hr. tauto.
      - repeat split; reflexivity. }
    destruct H3 as (E1 & E2 & E3).
    unfold bind, log, on_world, modify, ret. cbn [fst snd].
    rewrite E1, E2, E3. reflexivity. }
  unfold exec, result. rewrite Hrun.
  destruct task_data as [| | | | |l|d|t]; cbn [fst snd];
    (split; [eexists; repeat split; reflexivity
            |destruct o; repeat split; reflexivity]).
Qed.

(** *** client_onboarding with client data that is no dictionary *)

(** X12. [client_onboarding] whose [client_data] is not a dictionary (a
    name given as a string, say): the request to crm-agent goes out with
    that data, then reading the client's name fails; the dispatcher logs
    the failure and returns [status = error], and neither photo-agent
    nor calendar-agent is sent anything. *)
Theorem onboarding_bad_client_data (task : list (list N * pyval))
        (client_data : pyval) (o : JarvisOrchestrator) :
  Dict.get task (lit "type") = Some (PStr (lit "client_onboarding")) ->
  Dict.get task (lit "client_data") = Some client_data ->
  (forall d, client_data <> PDict d) ->
  valid client_data = true ->
  channel o = true -> broker_up (env o) ->
  let o' := exec (execute_distributed_task (PDict task)) o in
  result (execute_distributed_task (PDict task)) o = Return (Failed AttributeError)
  /\ result_status (Failed AttributeError) = lit "error"
  /\ exists b,
       delivered (env o') = (delivered (env o) ++ [direct (lit "crm-agent") b])%list
       /\ is_task_request_for (lit "crm-agent") (direct (lit "crm-agent") b) = true
       /\ task_of b
          = PDict [(lit "type", PStr (lit "register_client"));
                   (lit "client_data", client_data)]
       /\ logged (env o')
          = (logged (env o)
             ++ [(INFO, DistributedTask (PStr (lit "client_onboarding")));
                 (DEBUG, TaskSent (lit "crm-agent") (PStr (lit "register_client")));
                 (ERROR, DistributedTaskError AttributeError)])%list.
Proof.
  intros Ht Hc Hnd Hv Hch Hup o'. subst o'.
  set (o0 := logged_task (PStr (lit "client_onboarding")) o).
  assert (Hch0 : channel o0 = true) by (subst o0; destruct o; assumption).
  assert (Hup0 : broker_up (env o0)).
  { subst o0. destruct Hup as [U1 U2]. destruct o; split; [exact U1|exact U2]. }
  destruct (send_taken (lit "crm-agent")
              [(lit "type", PStr (lit "register_client"));
               (lit "client_data", client_data)] o0 eq_refl eq_refl)
    as (b & D & S);
    try assumption.
  { apply valid_typed; [reflexivity|reflexivity|reflexivity|assumption]. }
  assert (Hrun : execute_distributed_task (PDict task) o
                 = (Return (Failed AttributeError),
                    set_env (add_log (ERROR, DistributedTaskError AttributeError)
                               (env (send (lit "crm-agent")
                                       [(lit "type", PStr (lit "register_client"));
                                        (lit "client_data", client_data)] o0)))
                      (send (lit "crm-agent")
                         [(lit "type", PStr (lit "register_client"));
                          (lit "client_data", client_data)] o0))).
  { unfold execute_distributed_task, try_except.
    unfold bind at 1. unfold lift at 1. cbn [Json.get]. rewrite Ht.
    unfold bind at 1. unfold log at 1, on_world, modify.
    change (is_str (PStr (lit "client_onboarding")) (lit "complete_photo_workflow"))
      with false.
    change (is_str (PStr (lit "client_onboarding")) (lit "marketing_campaign_launch"))
      with false.
    change (is_str (PStr (lit "client_onboarding")) (lit "client_onboarding"))
      with true.
    cbv iota. cbn [fst snd world with_world orchestrator_world].
    fold o0. unfold _execute_client_onboarding.
    unfold bind at 1. unfold lift at 1. cbn [Json.get]. rewrite Hc.
    unfold bind at 1. rewrite send_task_to_agent_run. fold (send (lit "crm-agent")
      [(lit "type", PStr (lit "register_client")); (lit "client_data", client_data)] o0).
    unfold bind at 1. unfold lift at 1.
    destruct client_data; cbn [Json.get];
      try (unfold bind, log, on_world, modify, ret; reflexivity).
    exfalso. eapply Hnd. reflexivity. }
  unfold exec, result. rewrite Hrun. cbn [fst snd].
  split; [reflexivity|]. split; [reflexivity|].
  exists b. rewrite S.
  split; [|split; [eapply request_for; eassumption
                 |split; [eapply task_of_message; eassumption|]]].
  - destruct Hup0 as [_ A0].
    replace (env (set_env _ (set_env _ o0)))
      with (add_log (ERROR, DistributedTaskError AttributeError)
              (add_log (DEBUG, TaskSent (lit "crm-agent")
                          (task_type_of [(lit "type", PStr (lit "register_client"));
                                         (lit "client_data", client_data)]))
                 (attempt (direct (lit "crm-agent") b) (tick (env o0)))))
      by (destruct o0; reflexivity).
    change (delivered (add_log ?r ?w)) with (delivered w).
    rewrite taken_delivered by apply A0.
    subst o0. destruct o; reflexivity.
  - subst o0. destruct o. cbn. rewrite <- !app_assoc. reflexivity.
Qed.

(** *** Dispatching before the channel is there *)

(** X13. On an orchestrator whose channel is not set (it never
    connected), [complete_photo_workflow] and
    [marketing_campaign_launch] are answered [initiated] although
    nothing was sent and nothing points at it in the log:
    [_send_task_to_agent] returns without a word when there is no
    channel. *)
Theorem dispatch_without_channel (task : list (list N * pyval)) (ty : list N)
        (o : JarvisOrchestrator) :
  channel o = false ->
  Dict.get task (lit "type") = Some (PStr ty) ->
  ty = lit "complete_photo_workflow" \/ ty = lit "marketing_campaign_launch" ->
  let o' := exec (execute_distributed_task (PDict task)) o in
  (exists r, result (execute_distributed_task (PDict task)) o = Return r
             /\ result_status r = lit "initiated")
  /\ publishes (env o') = publishes (env o)
  /\ delivered (env o') = delivered (env o)
  /\ logged (env o') = (logged (env o) ++ [(INFO, DistributedTask (PStr ty))])%list.
Proof.
  intros Hch Ht Hty o'. subst o'. unfold exec, result.
  assert (Hsend : forall n td o0, channel o0 = false -> send n td o0 = o0).
  { intros n td o0 H0. unfold send. rewrite H0. reflexivity. }
  destruct Hty as [-> | ->].
  - rewrite (execute_distributed_task_photo task
               (match Dict.get task (lit "photo_path") with
                | Some x => x
                | None => PStr (lit "/app/photos")
                end) o Ht eq_refl).
    cbn [fst snd].
    assert (H0 : channel (ticked (logged_task (PStr (lit "complete_photo_workflow")) o))
                 = false) by (destruct o; assumption).
    rewrite !(fun n td => Hsend n td _ H0).
    split; [eexists; split; reflexivity|].
    destruct o; repeat split; reflexivity.
  - rewrite (execute_distributed_task_marketing task
               (match Dict.get task (lit "campaign_data") with
                | Some x => x
                | None => PDict []
                end) o Ht eq_refl).
    cbn [fst snd].
    assert (H0 : channel (logged_task (PStr (lit "marketing_campaign_launch")) o)
                 = false) by (destruct o; assumption).
    rewrite !(fun n td => Hsend n td _ H0).
    split; [eexists; split; reflexivity|].
    destruct o; repeat split; reflexivity.
Qed.

End WorkflowFacts.

(** ** Starting and stopping the orchestrator *)

Module LifecycleFacts.

Import Orchestrator PyStrFacts DictFacts DateTimeFacts CodecFacts
       OrchestratorFacts AlarmFacts Subscriber RosterFacts.

Local Arguments lit : simpl never.
Local Arguments DateTime.isoformat : simpl never.
Local Arguments Json.encode : simpl never.
Local Arguments Json.decode : simpl never.
Local Arguments _publish_system_event : simpl never.

Lemma bind_return {S A B : Type} (m : M S A) (k : A -> M S B) (s s' : S) (a : A) :
  m s = (Return a, s') -> bind m k s = k a s'.
Proof. unfold bind. intros ->. reflexivity. Qed.

Lemma bind_raise {S A B : Type} (m : M S A) (k : A -> M S B) (s s' : S) (e : exn) :
  m s = (Raise e, s') -> bind m k s = (Raise e, s').
Proof. unfold bind. intros ->. reflexivity. Qed.

(** *** stop *)

Definition stop_data (t : DateTime.datetime) : pyval :=
  PDict [(lit "stop_time", PStr (DateTime.isoformat t))].

(** The orchestrator after [stop]. *)
Definition stopped_orchestrator (o : JarvisOrchestrator) : JarvisOrchestrator :=
  let w0 := add_log (INFO, OrchestratorStopping) (env o) in
  let w1 := tick w0 in
  let w2 := if exchange o
            then published_world (lit "system.stopping")
                   (stop_data (clock w0 (ticks w0))) w1
            else w1 in
  let w3 := if connection o && negb (is_closed w2) then set_closed true w2
            else w2 in
  set_env (add_log (INFO, OrchestratorStopped) w3) (set_system_status stopped o).

Lemma stop_run (o : JarvisOrchestrator) :
  stop o = (Return tt, stopped_orchestrator o).
Proof.
  destruct o as [ag ss st cn ch ex mq sh ea w].
  unfold stop, stopped_orchestrator, stop_data, now, log, on_world, modify, gets,
    ret, bind, connection_close.
  cbn. rewrite publish_system_event_run. cbn.
  destruct ex; cbn;
    match goal with
    | |- context [cn && negb (is_closed ?w)] => destruct (cn && negb (is_closed w))
    end; reflexivity.
Qed.

Lemma stop_message_encodes (t now : DateTime.datetime) :
  exists b, Json.encode (event_message (lit "system.stopping") now (stop_data t))
            = Return b.
Proof.
  destruct (decode_encode (event_message (lit "system.stopping") now (stop_data t)))
    as (b & He & _).
  { apply valid_event_message; [reflexivity|].
    unfold stop_data. cbn [valid forallb fst snd]. rewrite isoformat_wf.
    reflexivity. }
  exists b. assumption.
Qed.

(** X14. The orchestrator's [stop] can be repeated: on a connected
    orchestrator the first call returns with the connection closed and
    the status [stopped]; the second returns as well, publishes nothing
    (the refusal of the closed connection is caught in
    [_publish_system_event] and logged), and leaves the status [stopped]. *)
Theorem orchestrator_stop_twice (o : JarvisOrchestrator) :
  connection o = true -> exchange o = true ->
  let o1 := exec stop o in
  let o2 := exec stop o1 in
  result stop o = Return tt
  /\ is_closed (env o1) = true /\ system_status o1 = stopped
  /\ result stop o1 = Return tt
  /\ system_status o2 = stopped
  /\ publishes (env o2) = publishes (env o1)
  /\ delivered (env o2) = delivered (env o1)
  /\ logged (env o2)
     = (logged (env o1)
        ++ [(INFO, OrchestratorStopping);
            (ERROR, EventPublishError ChannelInvalidStateError);
            (INFO, OrchestratorStopped)])%list
  /\ agents o2 = agents o.
Proof.
  intros Hcn Hex o1 o2. subst o2 o1. unfold exec, result.
  rewrite !stop_run. cbn [fst snd].
  assert (Hclosed : is_closed (env (stopped_orchestrator o)) = true).
  { unfold stopped_orchestrator. rewrite Hcn, Hex. cbn [andb].
    match goal with
    | |- context [negb (is_closed ?w)] => destruct (is_closed w) eqn:E
    end; cbn [negb]; destruct o; cbn; [exact E|reflexivity]. }
  split; [reflexivity|]. split; [exact Hclosed|].
  split; [destruct o; reflexivity|]. split; [reflexivity|].
  split; [destruct (stopped_orchestrator o); reflexivity|].
  set (o1 := stopped_orchestrator o) in *.
  assert (Hcn1 : connection o1 = true) by (subst o1; destruct o; assumption).
  assert (Hex1 : exchange o1 = true) by (subst o1; destruct o; assumption).
  assert (Hag : agents o1 = agents o) by (subst o1; destruct o; reflexivity).
  unfold stopped_orchestrator at 1 2 3 4. rewrite Hcn1, Hex1. cbn [andb].
  unfold published_world.
  destruct (stop_message_encodes
              (clock (add_log (INFO, OrchestratorStopping) (env o1))
                 (ticks (add_log (INFO, OrchestratorStopping) (env o1))))
              (clock (tick (add_log (INFO, OrchestratorStopping) (env o1)))
                 (ticks (tick (add_log (INFO, OrchestratorStopping) (env o1))))))
    as (b & ->).
  replace (is_closed (tick (add_log (INFO, OrchestratorStopping) (env o1))))
    with true by (symmetry; exact Hclosed).
  cbn [add_log tick is_closed negb]. rewrite Hclosed. cbn [negb].
  rewrite <- Hag. destruct o1. cbn. rewrite <- !app_assoc.
  repeat split; reflexivity.
Qed.

(** *** start *)

Lemma fold_set_fresh_agents (names : list (list N)) (o : JarvisOrchestrator) :
  fold_left (fun s x => set_agents (Dict.set (agents s) x fresh_agent) s) names o
  = set_agents (fold_left (fun d n => Dict.set d n fresh_agent) names (agents o)) o.
Proof.
  revert o. induction names as [|n names IH]; intros o.
  - destruct o; reflexivity.
  - cbn [fold_left]. rewrite IH. destruct o; reflexivity.
Qed.

Definition roster_registry (names : list (list N)) (d : Dict.dict AgentInfo)
  : Dict.dict AgentInfo :=
  fold_left (fun d n => Dict.set d n fresh_agent) names d.

Lemma start_agent_monitoring_full (o : JarvisOrchestrator) :
  management_queue o = true ->
  _start_agent_monitoring o
  = (Return tt,
     set_agents (roster_registry (expected_agents o) (agents o))
       (set_env (add_log (INFO, MonitoringStarting) (env o)) o)).
Proof.
  intros Hq. unfold _start_agent_monitoring, roster_registry.
  destruct o as [ag ss st cn ch ex mq sh ea w]. cbn in Hq. subst mq.
  unfold log, on_world, gets, ret, bind. cbn -[for_each].
  rewrite (for_each_run _ (fun n o => set_agents (Dict.set (agents o) n fresh_agent) o))
    by reflexivity.
  rewrite fold_set_fresh_agents. reflexivity.
Qed.

Lemma connect_to_rabbitmq_run (o : JarvisOrchestrator) :
  _connect_to_rabbitmq o
  = if reachable (env o)
    then (Return tt,
          set_env (add_log (INFO, ConnectedToBroker)
                     (set_closed false
                        (add_log (INFO, ConnectingToBroker) (env o))))
            (set_connected o))
    else (Raise AMQPConnectionError,
          set_env (add_log (ERROR, BrokerConnectionError AMQPConnectionError)
                     (add_log (INFO, ConnectingToBroker) (env o))) o).
Proof.
  destruct o as [ag ss st cn ch ex mq sh ea w].
  unfold _connect_to_rabbitmq, try_except, connect, log, on_world, modify, gets,
    raise, ret, bind.
  cbn. destruct (reachable w); reflexivity.
Qed.

Lemma connect_unreachable (o : JarvisOrchestrator) :
  reachable (env o) = false ->
  _connect_to_rabbitmq o
  = (Raise AMQPConnectionError,
     set_env (add_log (ERROR, BrokerConnectionError AMQPConnectionError)
                (add_log (INFO, ConnectingToBroker) (env o))) o).
Proof. intros H. rewrite connect_to_rabbitmq_run, H. reflexivity. Qed.

Lemma connect_reachable (o : JarvisOrchestrator) :
  reachable (env o) = true ->
  _connect_to_rabbitmq o
  = (Return tt,
     set_env (add_log (INFO, ConnectedToBroker)
                (set_closed false
                   (add_log (INFO, ConnectingToBroker) (env o))))
       (set_connected o)).
Proof. intros H. rewrite connect_to_rabbitmq_run, H. reflexivity. Qed.

(** X15. When the broker cannot be reached, [start] logs the failure of
    the connection, sets [system_status] to [error] and raises the
    connection error to its caller; the registry stays as it was and
    nothing is published. *)
Theorem start_fails_unreachable (o : JarvisOrchestrator) :
  reachable (env o) = false ->
  let o' := exec start_up o in
  result start_up o = Raise AMQPConnectionError
  /\ system_status o' = error
  /\ agents o' = agents o
  /\ exchange o' = exchange o /\ channel o' = channel o
  /\ publishes (env o') = publishes (env o)
  /\ delivered (env o') = delivered (env o)
  /\ logged (env o')
     = (logged (env o)
        ++ [(INFO, SystemStarting); (INFO, ConnectingToBroker);
            (ERROR, BrokerConnectionError AMQPConnectionError);
            (ERROR, SystemStartError AMQPConnectionError)])%list.
Proof.
  intros Hr o'. subst o'.
  assert (Hrun : start_up o
                 = (Raise AMQPConnectionError,
                    set_system_status error
                      (set_env
                         (add_log (ERROR, SystemStartError AMQPConnectionError)
                            (add_log (ERROR, BrokerConnectionError AMQPConnectionError)
                               (add_log (INFO, ConnectingToBroker)
                                  (add_log (INFO, SystemStarting) (env o))))) o))).
  { unfold start_up. unfold bind at 1. unfold log at 1, on_world, modify.
    cbn [fst snd world with_world orchestrator_world].
    unfold try_except.
    assert (Hr' : reachable (env (set_env (add_log (INFO, SystemStarting) (env o)) o))
                  = false) by (destruct o; assumption).
    rewrite (bind_raise _ _ _ _ _ (connect_unreachable _ Hr')).
    unfold bind, log, on_world, modify, raise. destruct o; reflexivity. }
  unfold exec, result. rewrite Hrun. cbn [fst snd].
  destruct o. cbn. rewrite <- !app_assoc. repeat split; reflexivity.
Qed.

Lemma get_roster_registry (names : list (list N)) (d : Dict.dict AgentInfo)
      (n : list N) :
  Dict.get (roster_registry names d) n
  = if existsb (fun k => PyStr.eqb k n) names then Some fresh_agent
    else Dict.get d n.
Proof.
  unfold roster_registry. revert d.
  induction names as [|k names IH]; intros d; [reflexivity|].
  cbn [fold_left existsb]. rewrite IH.
  destruct (existsb (fun k0 => PyStr.eqb k0 n) names);
    [rewrite orb_true_r; reflexivity|].
  rewrite orb_false_r. destruct (PyStr.eqb k n) eqn:E.
  - apply eqb_eq in E. subst. apply get_set_same.
  - apply eqb_neq in E. apply get_set_other. congruence.
Qed.

Definition started_data (o : JarvisOrchestrator) : pyval :=
  PDict [(lit "start_time", PStr (DateTime.isoformat (start_time o)));
         (lit "expected_agents", PList (map PStr (expected_agents o)))].

Lemma valid_started_data (o : JarvisOrchestrator) :
  all_wf (expected_agents o) -> valid (started_data o) = true.
Proof.
  intros Hwf. unfold started_data. cbn [valid forallb fst snd Dict.distinct].
  rewrite isoformat_wf. cbn [andb].
  replace (forallb valid (map PStr (expected_agents o))) with true; [reflexivity|].
  symmetry. apply forallb_forall. intros x Hx. apply in_map_iff in Hx.
  destruct Hx as (n & <- & Hn). unfold all_wf in Hwf.
  rewrite Forall_forall in Hwf. cbn [valid]. apply Hwf. assumption.
Qed.

(** X16. When the broker is reached and takes the first publish, [start]
    gets as far as its main loop without raising: the status is
    [running], the registry holds a record for a name exactly when the
    roster lists it, each such record as [_start_agent_monitoring] makes
    it, and one [system.started] broadcast went out, carrying the start
    time and the roster. *)
Theorem start_builds_registry (o : JarvisOrchestrator) :
  agents o = [] -> reachable (env o) = true ->
  accepts (env o) (publishes (env o)) = true ->
  all_wf (expected_agents o) ->
  let o' := exec start_up o in
  result start_up o = Return tt
  /\ system_status o' = running
  /\ is_closed (env o') = false
  /\ (forall n, Dict.get (agents o') n
                = if existsb (fun k => PyStr.eqb k n) (expected_agents o)
                  then Some fresh_agent else None)
  /\ exists message_body,
       delivered (env o') = (delivered (env o) ++ [broadcast message_body])%list
       /\ Json.decode message_body
          = Return (event_message (lit "system.started") (reading o)
                      (started_data o)).
Proof.
  intros Hag Hr Hacc Hwf o'. subst o'.
  set (w1 := add_log (INFO, SystemStarted)
               (add_log (INFO, MonitoringStarting)
                  (add_log (INFO, ConnectedToBroker)
                     (set_closed false
                        (add_log (INFO, ConnectingToBroker)
                           (add_log (INFO, SystemStarting) (env o))))))).
  set (o1 := set_system_status running
               (set_agents (roster_registry (expected_agents o) (agents o))
                  (set_env w1 (set_connected o)))).
  destruct (decode_encode
              (event_message (lit "system.started") (reading o) (started_data o)))
    as (b & He & Hd).
  { apply valid_event_message; [reflexivity|apply valid_started_data; assumption]. }
  assert (Hrun : start_up o
                 = (Return tt,
                    set_env (add_log (INFO, MainLoopStarting)
                               (attempt (broadcast b) (tick w1))) o1)).
  { unfold start_up. unfold bind at 1. unfold log at 1, on_world, modify.
    cbn [fst snd world with_world orchestrator_world].
    unfold try_except.
    assert (Hr' : reachable (env (set_env (add_log (INFO, SystemStarting) (env o)) o))
                  = true) by (destruct o; assumption).
    rewrite (bind_return _ _ _ _ _ (connect_reachable _ Hr')).
    match goal with
    | |- context [_start_agent_monitoring ;; _] =>
        match goal with
        | |- context [bind _start_agent_monitoring ?k ?s] =>
            assert (Hq : management_queue s = true) by (destruct o; reflexivity);
            rewrite (bind_return _ k s _ _ (start_agent_monitoring_full s Hq))
        end
    end.
    clear Hr' Hq. subst w1 o1.
    destruct o as [ag ss st cn ch ex mq sh ea w].
    unfold reading, started_data in He.
    cbn [env agents expected_agents start_time] in *.
    unfold bind, log, on_world, gets. cbn.
    rewrite publish_system_event_run. cbn.
    unfold published_world. cbn.
    rewrite He, Hacc. reflexivity. }
  unfold exec, result. rewrite Hrun. cbn [fst snd].
  split; [reflexivity|]. split; [reflexivity|]. split; [reflexivity|].
  split.
  - intros n. subst o1. cbn [set_env agents set_system_status set_agents].
    rewrite get_roster_registry, Hag. reflexivity.
  - exists b. split; [|assumption].
    subst o1 w1. destruct o. cbn in *. rewrite Hacc. reflexivity.
Qed.

(** *** The main loop *)

(** X23. One turn of the main loop is a sweep followed by the
    statistics and nothing else: neither of the two raises, whatever
    the registry and the broker, so the loop's own [except] clause is
    never entered and the turn returns. *)
Theorem main_loop_turn_never_fails (o : JarvisOrchestrator) :
  result main_loop_turn o = Return tt
  /\ exec main_loop_turn o
     = exec _publish_system_stats (exec _check_agent_health o)
  /\ result _check_agent_health o = Return tt
  /\ result _publish_system_stats (exec _check_agent_health o) = Return tt.
Proof.
  unfold result, exec, main_loop_turn, try_except, bind.
  rewrite check_agent_health_run. cbn [fst snd].
  rewrite publish_system_stats_world. cbn [fst snd].
  repeat split; reflexivity.
Qed.

(** *** get_system_status *)

Lemma status_counts (d : Dict.dict AgentInfo) :
  (count_status online d + count_status offline d
   + count_status unresponsive d + count_status expected d
   = Z.of_nat (List.length d))%Z.
Proof.
  unfold count_status, Dict.values.
  induction d as [|[k a] d IH]; [reflexivity|].
  cbn [map snd filter List.length].
  destruct (status a); cbn [status_eqb List.length]; lia.
Qed.

(** What [get_system_status] reports under [agents_summary]. *)
Definition summary (v : pyval) (k : list N) : pyval :=
  field (field v (lit "agents_summary")) k.

(** X24. [get_system_status] never raises and changes nothing but the
    clock, which it reads twice.  In its summary the counts of Online,
    Offline, Unresponsive and Expected records add up to the number of
    records of the registry, while [total] is the length of the roster,
    whatever the registry holds. *)
Theorem system_status_summary (o : JarvisOrchestrator) :
  exists v,
    get_system_status o = (Return v, set_env (tick (tick (env o))) o)
    /\ summary v (lit "total") = PInt (Z.of_nat (List.length (expected_agents o)))
    /\ (exists n_online n_offline n_unresponsive n_expected,
          summary v (lit "online") = PInt n_online
          /\ summary v (lit "offline") = PInt n_offline
          /\ summary v (lit "unresponsive") = PInt n_unresponsive
          /\ summary v (lit "expected") = PInt n_expected
          /\ (n_online + n_offline + n_unresponsive + n_expected
              = Z.of_nat (List.length (agents o)))%Z).
Proof.
  eexists. split; [|split].
  - unfold get_system_status, now, bind, gets, on_world, modify, ret.
    cbn [fst snd world with_world orchestrator_world].
    destruct o; reflexivity.
  - reflexivity.
  - exists (count_status online (agents o)), (count_status offline (agents o)),
      (count_status unresponsive (agents o)), (count_status expected (agents o)).
    repeat split; try reflexivity. apply status_counts.
Qed.

End LifecycleFacts.

(** ** The agent runtime from start to stop, and the orchestrator that
    listens to it *)

Module AgentLifecycle.

Import BaseAgent PyStrFacts DictFacts DateTimeFacts CodecFacts AgentFacts.

Local Arguments lit : simpl never.
Local Arguments check_routing_key : simpl never.
Local Arguments DateTime.isoformat : simpl never.
Local Arguments Json.encode : simpl never.
Local Arguments Json.decode : simpl never.

(** The envelope [publish_message] builds. *)
Definition envelope (event_type agent_name : list N) (t : DateTime.datetime)
           (data : pyval) : pyval :=
  PDict [(lit "event_type", PStr event_type);
         (lit "agent_source", PStr agent_name);
         (lit "timestamp", PStr (DateTime.isoformat t));
         (lit "data", data)].

(** The dictionary [send_direct_message] builds. *)
Definition direct_message (sender target : list N) (t : DateTime.datetime)
           (data : pyval) : pyval :=
  PDict [(lit "type", PStr (lit "direct_message"));
         (lit "from", PStr sender);
         (lit "to", PStr target);
         (lit "timestamp", PStr (DateTime.isoformat t));
         (lit "data", data)].

Definition lifecycle_data (agent_name status : list N) : pyval :=
  PDict [(lit "agent_name", PStr agent_name); (lit "status", PStr status)].

Section Runtime.

Context {X : Type}.

Definition clock_reading (a : Agent X) : DateTime.datetime :=
  clock (env a) (ticks (env a)).

Lemma valid_envelope (ev n : list N) (t : DateTime.datetime) (data : pyval) :
  wf ev = true -> wf n = true -> valid data = true ->
  valid (envelope ev n t data) = true.
Proof.
  intros Hev Hn Hd. unfold envelope. cbn [valid forallb fst snd].
  rewrite Hev, Hn, Hd, isoformat_wf. reflexivity.
Qed.

Lemma valid_lifecycle_data (n s : list N) :
  wf n = true -> wf s = true -> valid (lifecycle_data n s) = true.
Proof.
  intros Hn Hs. unfold lifecycle_data. cbn [valid forallb fst snd].
  rewrite Hn, Hs. reflexivity.
Qed.

(** [publish_message] on a set exchange, an open connection and a
    broker that takes the message. *)
Lemma publish_message_taken (event_type : list N) (data : pyval) (a : Agent X) :
  exchange a = true -> is_closed (env a) = false ->
  accepts (env a) (publishes (env a)) = true ->
  valid data = true -> wf event_type = true -> wf (agent_name a) = true ->
  exists b,
    Json.decode b = Return (envelope event_type (agent_name a) (clock_reading a) data)
    /\ publish_message event_type data a
       = (Return tt,
          set_env
            (add_log (DEBUG, MessageData
                        (envelope event_type (agent_name a) (clock_reading a) data))
               (add_log (INFO, MessagePublished event_type)
                  (attempt (OrchestratorFacts.broadcast b) (tick (env a))))) a).
Proof.
  intros Hex Hopen Hacc Hv Hev Hn.
  destruct (decode_encode (envelope event_type (agent_name a) (clock_reading a) data))
    as (b & He & Hd).
  { apply valid_envelope; assumption. }
  exists b. split; [assumption|].
  destruct a as [nm cn ch ex q x inv w].
  unfold clock_reading, envelope in *. cbn [exchange env agent_name] in *. subst ex.
  unfold publish_message, now, publish, log, on_world, modify, gets, lift, ret,
    raise, bind.
  cbn. rewrite He. cbn. rewrite Hopen, Hacc. reflexivity.
Qed.

Lemma agent_connect_run (a : Agent X) :
  connect_to_rabbitmq a
  = if reachable (env a)
    then (Return tt,
          set_env (add_log (INFO, AgentBrokerConnected)
                     (set_closed false (env a)))
            (set_connected a))
    else (Raise ConnectionError,
          set_env (add_log (ERROR, AgentBrokerConnectionError AMQPConnectionError)
                     (env a)) a).
Proof.
  destruct a as [nm cn ch ex q x inv w].
  unfold connect_to_rabbitmq, try_except, connect, log, on_world, modify, gets,
    raise, ret, bind.
  cbn. destruct (reachable w); reflexivity.
Qed.



(** *** What the orchestrator makes of an envelope *)

Lemma sender_envelope (ag : Dict.dict Orchestrator.AgentInfo) (b : list byte)
      (ev n : list N) (t : DateTime.datetime) (data : pyval) :
  Json.decode b = Return (envelope ev n t data) ->
  OrchestratorFacts.sender ag b
  = Return (PStr ev, PStr n, if Dict.mem ag n then Some n else None).
Proof.
  intros Hd. unfold OrchestratorFacts.sender. rewrite Hd. cbn [obind].
  change (Json.get (envelope ev n t data) (lit "event_type") (PStr []))
    with (Return (A := pyval) (PStr ev)).
  cbn [obind].
  change (Json.get (envelope ev n t data) (lit "agent_source") (PStr []))
    with (Return (A := pyval) (PStr n)).
  reflexivity.
Qed.

(** The registry after the orchestrator handled an envelope of type
    [ev] from [n]. *)
Lemma heard_envelope (o : Orchestrator.JarvisOrchestrator) (b : list byte)
      (ev n : list N) (t : DateTime.datetime) (data : pyval) :
  Json.decode b = Return (envelope ev n t data) ->
  Orchestrator.agents (exec (Orchestrator._handle_agent_message b) o)
  = if Dict.mem (Orchestrator.agents o) n
    then Dict.alter (OrchestratorFacts.noted (OrchestratorFacts.reading o) (PStr ev))
           (Orchestrator.agents o) n
    else Orchestrator.agents o.
Proof.
  intros Hd. unfold exec. rewrite OrchestratorFacts.handle_agent_message_run.
  cbn [snd]. rewrite OrchestratorFacts.handled_agents.
  rewrite (sender_envelope _ b ev n t data Hd).
  destruct (Dict.mem (Orchestrator.agents o) n); reflexivity.
Qed.

Lemma status_after (o : Orchestrator.JarvisOrchestrator) (b : list byte)
      (ev n : list N) (t : DateTime.datetime) (data : pyval)
      (s : Orchestrator.Status) :
  Json.decode b = Return (envelope ev n t data) ->
  (forall a, Orchestrator.status
               (OrchestratorFacts.noted (OrchestratorFacts.reading o) (PStr ev) a)
             = s) ->
  let o' := exec (Orchestrator._handle_agent_message b) o in
  if Dict.mem (Orchestrator.agents o) n
  then option_map Orchestrator.status (Dict.get (Orchestrator.agents o') n) = Some s
  else Orchestrator.agents o' = Orchestrator.agents o.
Proof.
  intros Hd Hs o'. subst o'. rewrite (heard_envelope o b ev n t data Hd).
  unfold Dict.mem. destruct (Dict.get (Orchestrator.agents o) n) as [a0|] eqn:G;
    [|reflexivity].
  rewrite get_alter_same, G. cbn [option_map]. rewrite Hs. reflexivity.
Qed.


(** *** stop *)

Lemma agent_stop_run (a : Agent X) :
  exchange a = true -> connection a = true -> wf (agent_name a) = true ->
  is_closed (env a) = false ->
  accepts (env a) (publishes (env a)) = true ->
  exists b,
    Json.decode b
    = Return (envelope (lit "agent.stopped") (agent_name a) (clock_reading a)
                (lifecycle_data (agent_name a) (lit "offline")))
    /\ stop a
       = (Return tt,
          set_env
            (add_log (INFO, AgentStopped (agent_name a))
               (set_closed true
                  (add_log (DEBUG, MessageData
                              (envelope (lit "agent.stopped") (agent_name a)
                                 (clock_reading a)
                                 (lifecycle_data (agent_name a) (lit "offline"))))
                     (add_log (INFO, MessagePublished (lit "agent.stopped"))
                        (attempt (OrchestratorFacts.broadcast b)
                           (tick (add_log (INFO, AgentStopping (agent_name a))
                                    (env a)))))))) a).
Proof.
  intros Hex Hcn Hn Hopen Hacc.
  set (a1 := set_env (add_log (INFO, AgentStopping (agent_name a)) (env a)) a).
  destruct (publish_message_taken (lit "agent.stopped")
              (lifecycle_data (agent_name a) (lit "offline")) a1)
    as (b & Hd & Hp).
  { subst a1. destruct a; assumption. }
  { subst a1. destruct a; assumption. }
  { subst a1. destruct a; assumption. }
  { apply valid_lifecycle_data; [assumption|reflexivity]. }
  { reflexivity. }
  { subst a1. destruct a; assumption. }
  exists b. split.
  - rewrite Hd. subst a1. destruct a; reflexivity.
  - unfold stop. unfold bind at 1. unfold gets at 1.
    unfold bind at 1. unfold log at 1, on_world, modify.
    unfold bind at 1. unfold gets at 1.
    cbn [fst snd world with_world agent_world]. fold a1.
    replace (exchange a1) with true by (subst a1; destruct a; symmetry; assumption).
    unfold lifecycle_data in Hp. unfold bind at 1.
    replace (agent_name a1) with (agent_name a) in Hp
      by (subst a1; destruct a; reflexivity).
    rewrite Hp.
    subst a1. destruct a as [nm cn ch ex q x inv w].
    cbn [exchange env agent_name connection set_env] in *. subst.
    unfold bind, gets, connection_close, log, on_world, modify. cbn.
    rewrite Hopen. reflexivity.
Qed.

(** X18. [stop] on a started agent whose connection is open: it
    publishes one [agent.stopped] from its own name before it closes
    the connection, and the orchestrator's handler sets a record of
    that name Offline on it. *)
Theorem stop_is_heard (a : Agent X) (o : Orchestrator.JarvisOrchestrator) :
  exchange a = true -> connection a = true -> wf (agent_name a) = true ->
  is_closed (env a) = false ->
  accepts (env a) (publishes (env a)) = true ->
  let a' := exec stop a in
  result stop a = Return tt
  /\ is_closed (env a') = true
  /\ exists message_body,
       delivered (env a')
       = (delivered (env a) ++ [OrchestratorFacts.broadcast message_body])%list
       /\ RosterFacts.stopped_from (agent_name a) message_body = true
       /\ let o' := exec (Orchestrator._handle_agent_message message_body) o in
          if Dict.mem (Orchestrator.agents o) (agent_name a)
          then option_map Orchestrator.status
                 (Dict.get (Orchestrator.agents o') (agent_name a))
               = Some Orchestrator.offline
          else Orchestrator.agents o' = Orchestrator.agents o.
Proof.
  intros Hex Hcn Hn Hopen Hacc a'. subst a'.
  destruct (agent_stop_run a Hex Hcn Hn Hopen Hacc) as (b & Hd & Hs).
  unfold exec, result. rewrite Hs. cbn [fst snd].
  split; [reflexivity|]. split; [destruct a; reflexivity|].
  exists b. split; [|split].
  - destruct a. cbn in *. rewrite Hacc. reflexivity.
  - unfold RosterFacts.stopped_from. rewrite Hd.
    change (Subscriber.field (envelope _ _ _ _) (lit "agent_source"))
      with (PStr (agent_name a)).
    cbn [is_str]. rewrite eqb_refl. reflexivity.
  - apply (status_after o b _ _ _ _ Orchestrator.offline Hd).
    intros a0. reflexivity.
Qed.

(** *** Direct messages *)

(** X19. [send_direct_message] on a set channel and an open connection,
    the broker taking the message, the payload one that JSON carries,
    and the name of the target's queue one that the library takes as
    a routing key (255 bytes at most): exactly one message goes to the
    default exchange with the queue of the target as routing key, and
    its body decodes to the dictionary that was built, the payload as
    it was given. *)
Theorem direct_message_arrives (target : list N) (data : pyval) (a : Agent X) :
  channel a = true -> is_closed (env a) = false ->
  accepts (env a) (publishes (env a)) = true ->
  valid data = true -> wf target = true -> wf (agent_name a) = true ->
  check_routing_key (target ++ lit ".queue") = Return tt ->
  let a' := exec (send_direct_message target data) a in
  result (send_direct_message target data) a = Return tt
  /\ exists message_body,
       delivered (env a')
       = (delivered (env a) ++ [DispatchFacts.direct target message_body])%list
       /\ Json.decode message_body
          = Return (direct_message (agent_name a) target (clock_reading a) data)
       /\ logged (env a')
          = (logged (env a) ++ [(INFO, DirectMessageSent target)])%list.
Proof.
  intros Hch Hopen Hacc Hv Ht Hn Hk a'. subst a'.
  destruct (decode_encode (direct_message (agent_name a) target (clock_reading a) data))
    as (b & He & Hd).
  { unfold direct_message. cbn [valid forallb fst snd].
    rewrite Hn, Ht, Hv, isoformat_wf. reflexivity. }
  assert (Hrun : send_direct_message target data a
                 = (Return tt,
                    set_env (add_log (INFO, DirectMessageSent target)
                               (attempt (DispatchFacts.direct target b) (tick (env a)))) a)).
  { destruct a as [nm cn ch ex q x inv w].
    unfold clock_reading, direct_message in *. cbn [channel env agent_name] in *.
    subst ch.
    unfold send_direct_message, now, publish, log, on_world, modify, gets, lift,
      ret, raise, bind.
    cbn. rewrite He. cbn. rewrite Hopen, Hk. cbn. rewrite Hacc. reflexivity. }
  unfold exec, result. rewrite Hrun. cbn [fst snd].
  split; [reflexivity|]. exists b.
  destruct a. cbn in *. rewrite Hacc. repeat split; try reflexivity.
  exact Hd.
Qed.

(** *** A start that fails *)

(** X20. When the broker cannot be reached, [start] raises
    [ConnectionError] (not the error of the library) after logging the
    failure, and leaves the agent unconnected; the [stop] that the
    [finally] of the agent's [main] then runs has nothing to publish
    and nothing to close, and returns. *)
Theorem failed_start_then_stop (a : Agent X) :
  reachable (env a) = false ->
  exchange a = false -> connection a = false ->
  let a1 := exec start a in
  let a2 := exec stop a1 in
  result start a = Raise ConnectionError
  /\ exchange a1 = false /\ connection a1 = false /\ queue a1 = queue a
  /\ logged (env a1)
     = (logged (env a)
        ++ [(INFO, AgentStarting (agent_name a));
            (ERROR, AgentBrokerConnectionError AMQPConnectionError)])%list
  /\ result stop a1 = Return tt
  /\ publishes (env a2) = publishes (env a)
  /\ delivered (env a2) = delivered (env a)
  /\ is_closed (env a2) = is_closed (env a).
Proof.
  intros Hr Hex Hcn a1 a2. subst a2 a1.
  assert (H1 : start a
               = (Raise ConnectionError,
                  set_env
                    (add_log (ERROR, AgentBrokerConnectionError AMQPConnectionError)
                       (add_log (INFO, AgentStarting (agent_name a)) (env a))) a)).
  { unfold start. unfold bind at 1. unfold gets at 1.
    unfold bind at 1. unfold log at 1, on_world, modify.
    cbn [fst snd world with_world agent_world].
    unfold bind at 1. rewrite agent_connect_run.
    replace (reachable (env (set_env (add_log (INFO, AgentStarting (agent_name a))
                                        (env a)) a)))
      with false by (destruct a; symmetry; assumption).
    destruct a; reflexivity. }
  unfold exec, result. rewrite H1. cbn [fst snd].
  destruct a as [nm cn ch ex q x inv w].
  cbn [exchange connection env] in *. subst ex cn.
  unfold stop, bind, gets, log, on_world, modify, ret. cbn.
  rewrite <- !app_assoc. repeat split; reflexivity.
Qed.

End Runtime.

(** *** The test double in the consumer loop *)

(** The messages among [bodies] that decode, in order. *)
Definition decoded (bodies : list (list byte)) : list pyval :=
  flat_map (fun b => match Json.decode b with
                     | Return m => [m]
                     | Raise _ => []
                     end) bodies.

Lemma mock_handle_message (b : list byte) (a : Agent MockAgent.MockAttrs) :
  let a' := exec (_handle_message (impl := MockAgent.mock_agent) b) a in
  MockAgent.processed_messages (attrs a')
  = (MockAgent.processed_messages (attrs a)
     ++ match Json.decode b with Return m => [m] | Raise _ => [] end)%list
  /\ MockAgent.executed_tasks (attrs a') = MockAgent.executed_tasks (attrs a)
  /\ settled (env a') = (settled (env a) ++ [Ack])%list
  /\ delivered (env a') = delivered (env a).
Proof.
  intros a'. subst a'. unfold exec.
  rewrite (handle_message_run (impl := MockAgent.mock_agent)). cbn [snd].
  destruct (Json.decode b) as [m|e].
  - destruct a as [nm cn ch ex q [pm et] inv w]. cbn.
    repeat split; reflexivity.
  - destruct a as [nm cn ch ex q [pm et] inv w]. cbn. rewrite app_nil_r.
    repeat split; reflexivity.
Qed.

(** X21. The consumer loop over any sequence of message bodies, with the
    test double [MockAgent] as the agent: every body is acknowledged,
    the bodies that decode are handed to [process_message] in the order
    they came, the others are skipped, [execute_task] is never called
    and nothing is published. *)
Theorem mock_agent_consumes (bodies : list (list byte))
        (a : Agent MockAgent.MockAttrs) :
  let a' := consume (impl := MockAgent.mock_agent) bodies a in
  MockAgent.processed_messages (attrs a')
  = (MockAgent.processed_messages (attrs a) ++ decoded bodies)%list
  /\ MockAgent.executed_tasks (attrs a') = MockAgent.executed_tasks (attrs a)
  /\ settled (env a') = (settled (env a) ++ repeat Ack (List.length bodies))%list
  /\ delivered (env a') = delivered (env a).
Proof.
  unfold consume. revert a. induction bodies as [|b bodies IH]; intros a.
  - cbn. rewrite !app_nil_r. repeat split; reflexivity.
  - cbn [fold_left].
    specialize (IH (exec (_handle_message (impl := MockAgent.mock_agent) b) a)).
    cbv zeta in IH. destruct IH as (I1 & I2 & I3 & I4).
    destruct (mock_handle_message b a) as (H1 & H2 & H3 & H4).
    cbv zeta. rewrite I1, I2, I3, I4, H1, H2, H3, H4.
    unfold decoded. cbn [flat_map List.length repeat].
    rewrite <- !app_assoc. repeat split; reflexivity.
Qed.

End AgentLifecycle.

(** ** The photo agent behind the runtime *)

Module PhotoAgentFacts.

Import BaseAgent PyStrFacts DictFacts AgentFacts PhotoAgent.

Local Arguments lit : simpl never.
Local Arguments Json.decode : simpl never.

(** The event types [PhotoAgent.process_message] has a handler for. *)
Definition has_handler (event_type : list N) : Prop :=
  event_type = lit "task.photo_organization"
  \/ event_type = lit "task.photo_processing"
  \/ event_type = lit "crm.new_client"
  \/ event_type = lit "calendar.session_scheduled".

Section Library.

Context {library : PhotoLibrary}.

Lemma process_message_bad_data (d : list (list N * pyval)) (ev : list N)
      (data : pyval) (p : Agent PhotoAttrs) :
  Dict.get d (lit "event_type") = Some (PStr ev) -> has_handler ev ->
  Dict.get d (lit "data") = Some data -> (forall x, data <> PDict x) ->
  process_message (Subclass := photo_agent) (PDict d) p
  = (Raise AttributeError,
     set_env (add_log (DEBUG, ProcessingEvent (PStr ev)) (env p)) p).
Proof.
  intros Hev Hh Hdata Hnd.
  assert (Hget : forall k dflt, Json.get data k dflt = Raise AttributeError).
  { intros k dflt. destruct data; try reflexivity. exfalso. eapply Hnd. reflexivity. }
  cbn [process_message photo_agent].
  unfold bind at 1. unfold lift at 1. cbn [Json.get]. rewrite Hev.
  unfold bind at 1. unfold lift at 1. rewrite Hdata.
  unfold bind at 1. unfold log at 1, on_world, modify.
  cbn [fst snd world with_world agent_world].
  destruct Hh as [-> | [-> | [-> | ->]]].
  - change (is_str (PStr (lit "task.photo_organization"))
              (lit "task.photo_organization")) with true.
    cbv iota. unfold _handle_photo_organization_task.
    unfold bind at 1. unfold lift at 1. rewrite Hget. reflexivity.
  - change (is_str (PStr (lit "task.photo_processing"))
              (lit "task.photo_organization")) with false.
    change (is_str (PStr (lit "task.photo_processing"))
              (lit "task.photo_processing")) with true.
    cbv iota. unfold _handle_photo_processing_task.
    unfold bind at 1. unfold lift at 1. rewrite Hget. reflexivity.
  - change (is_str (PStr (lit "crm.new_client"))
              (lit "task.photo_organization")) with false.
    change (is_str (PStr (lit "crm.new_client"))
              (lit "task.photo_processing")) with false.
    change (is_str (PStr (lit "crm.new_client")) (lit "crm.new_client")) with true.
    cbv iota. unfold _handle_new_client_event.
    unfold bind at 1. unfold lift at 1. rewrite Hget. reflexivity.
  - change (is_str (PStr (lit "calendar.session_scheduled"))
              (lit "task.photo_organization")) with false.
    change (is_str (PStr (lit "calendar.session_scheduled"))
              (lit "task.photo_processing")) with false.
    change (is_str (PStr (lit "calendar.session_scheduled"))
              (lit "crm.new_client")) with false.
    change (is_str (PStr (lit "calendar.session_scheduled"))
              (lit "calendar.session_scheduled")) with true.
    cbv iota. unfold _handle_session_scheduled.
    unfold bind at 1. unfold lift at 1. rewrite Hget. reflexivity.
Qed.

(** X22. An event the photo agent has a handler for, whose [data] is
    not a dictionary: the handler fails on its first read of the
    data, before it touches the photo library or the clock; the
    runtime catches the failure, logs it and acknowledges the
    message.  The counters of the agent are as they were and nothing
    is published. *)
Theorem photo_agent_drops_bad_data (message_body : list byte)
        (d : list (list N * pyval)) (event_type : list N) (data : pyval)
        (p : Agent PhotoAttrs) :
  Json.decode message_body = Return (PDict d) ->
  Dict.get d (lit "event_type") = Some (PStr event_type) ->
  has_handler event_type ->
  Dict.get d (lit "data") = Some data -> (forall x, data <> PDict x) ->
  let p' := exec (_handle_message (impl := photo_agent) message_body) p in
  result (_handle_message (impl := photo_agent) message_body) p = Return tt
  /\ attrs p' = attrs p
  /\ ticks (env p') = ticks (env p)
  /\ publishes (env p') = publishes (env p)
  /\ delivered (env p') = delivered (env p)
  /\ settled (env p') = (settled (env p) ++ [Ack])%list
  /\ logged (env p')
     = (logged (env p)
        ++ [(DEBUG, MessageReceived (PDict d));
            (DEBUG, ProcessingEvent (PStr event_type));
            (ERROR, MessageHandlingFailed AttributeError)])%list.
Proof.
  intros Hd Hev Hh Hdata Hnd p'. subst p'. unfold exec, result.
  rewrite (handle_message_run (impl := photo_agent)). cbn [fst snd].
  rewrite Hd.
  rewrite (process_message_bad_data d event_type data _ Hev Hh Hdata Hnd).
  split; [reflexivity|].
  destruct p. cbn. rewrite <- !app_assoc. repeat split; reflexivity.
Qed.

End Library.

End PhotoAgentFacts.

(** ** The further properties at the scenarios *)

Module RosterScenarios.

Import Orchestrator OrchestratorFacts AlarmFacts Subscriber RosterFacts StatsFacts.

Lemma unseen_forallb (d : Dict.dict AgentInfo) :
  forallb (fun kv => match last_seen (snd kv) with
                     | None => true
                     | Some _ => false
                     end) d = true ->
  Forall (fun kv => last_seen (snd kv) = None) d.
Proof.
  intros H. apply Forall_forall. intros kv Hin.
  apply (proj1 (forallb_forall _ d) H) in Hin.
  destruct (last_seen (snd kv)); [discriminate Hin|reflexivity].
Defined.

Lemma wf_forallb (ks : list (list N)) : forallb wf ks = true -> all_wf ks.
Proof.
  intros H. apply Forall_forall. exact (proj1 (forallb_forall wf ks) H).
Defined.

Lemma up_always (w : World) :
  is_closed w = false -> accepts w = Scenario.always -> broker_up w.
Proof. intros H1 H2. split; [exact H1|]. intros n. rewrite H2. reflexivity. Defined.

(** Two messages of photo-agent among those of a busy run. *)
Lemma messages_received_counts_in_busy_run :
  option_map messages_received
    (Dict.get (agents (run Scenario.busy_run
                         (Scenario.orchestrator Scenario.steady Scenario.always)))
       (lit "photo-agent"))
  = Some (messages_received fresh_agent
          + Z.of_nat (heard (lit "photo-agent") Scenario.busy_run))%Z.
Proof.
  apply (messages_received_counts (lit "photo-agent") fresh_agent Scenario.busy_run
           (Scenario.orchestrator Scenario.steady Scenario.always)).
  vm_compute; reflexivity.
Defined.

(** photo-agent, Online, says goodbye. *)
Lemma stopped_sets_offline_at_photo_agent :
  let o := Scenario.silent in
  let message_body := Scenario.stopped (lit "photo-agent") in
  let o' := exec (_handle_agent_message message_body) o in
  result (_handle_agent_message message_body) o = Return tt
  /\ Dict.get (agents o') (lit "photo-agent")
     = option_map
         (fun a => {| status := offline; last_seen := Some (reading o);
                      messages_received := messages_received a + 1;
                      errors := errors a |})
         (Dict.get (agents o) (lit "photo-agent"))
  /\ (forall other, other <> lit "photo-agent" ->
        Dict.get (agents o') other = Dict.get (agents o) other)
  /\ settled (env o') = (settled (env o) ++ [Ack])%list.
Proof.
  apply (stopped_sets_offline (lit "photo-agent")
           (Scenario.stopped (lit "photo-agent")) Scenario.silent);
    vm_compute; reflexivity.
Defined.

(** photo-agent, silent for exactly 300 seconds. *)
Lemma sweep_threshold_at_300_seconds :
  let o := Scenario.quiet in
  let a := {| status := online; last_seen := Some Scenario.noon;
              messages_received := 1; errors := 0 |} in
  let o' := exec _check_agent_health o in
  ((reading o - Scenario.noon <= 300 * 1000000)%Z ->
   Dict.get (agents o') (lit "photo-agent") = Some a
   /\ alarms (lit "photo-agent") (env o') = alarms (lit "photo-agent") (env o))
  /\ ((300 * 1000000 < reading o - Scenario.noon)%Z ->
      Dict.get (agents o') (lit "photo-agent") = Some (set_status unresponsive a)).
Proof.
  apply (sweep_threshold (lit "photo-agent")
           {| status := online; last_seen := Some Scenario.noon;
              messages_received := 1; errors := 0 |}
           Scenario.noon Scenario.quiet).
  - vm_compute; reflexivity.
  - reflexivity.
  - apply wf_forallb. vm_compute; reflexivity.
Defined.

(** The registry after connecting, then a busy run. *)
Lemma never_seen_stays_fresh_in_busy_run :
  let o := exec _connect_to_rabbitmq
             (__init__ (Scenario.world Scenario.jumping Scenario.always)) in
  let o' := run Scenario.busy_run (exec _start_agent_monitoring o) in
  (forall n a, Dict.get (agents o') n = Some a -> last_seen a = None ->
               a = fresh_agent)
  /\ awaiting (env o') = awaiting (env o).
Proof.
  apply (never_seen_stays_fresh
           (exec _connect_to_rabbitmq
              (__init__ (Scenario.world Scenario.jumping Scenario.always)))
           Scenario.busy_run);
    vm_compute; reflexivity.
Defined.

(** The statistics after photo-agent announced itself. *)
Lemma stats_unpublished_once_seen_at_photo_agent :
  let o := Scenario.silent in
  let o' := exec _publish_system_stats o in
  result _publish_system_stats o = Return tt
  /\ agents o' = agents o
  /\ publishes (env o') = publishes (env o)
  /\ delivered (env o') = delivered (env o)
  /\ logged (env o')
     = (logged (env o) ++ [(ERROR, EventPublishError TypeError)])%list.
Proof.
  apply (stats_unpublished_once_seen (lit "photo-agent")
           {| status := online; last_seen := Some Scenario.noon;
              messages_received := 1; errors := 0 |}
           Scenario.noon Scenario.silent);
    vm_compute; reflexivity.
Defined.

(** The statistics of an orchestrator nobody has written to. *)
Lemma stats_published_while_unseen_at_start :
  let o := Scenario.orchestrator Scenario.steady Scenario.always in
  let o' := exec _publish_system_stats o in
  let t := clock (env o) in
  let n := ticks (env o) in
  exists message_body,
    delivered (env o') = (delivered (env o) ++ [broadcast message_body])%list
    /\ Json.decode message_body
       = Return (event_message (lit "system.stats") (t (S (S n)))
                   (stats_data o (t n) (t (S n))))
    /\ logged (env o') = logged (env o)
    /\ agents o' = agents o.
Proof.
  apply (stats_published_while_unseen
           (Scenario.orchestrator Scenario.steady Scenario.always)).
  - apply unseen_forallb. vm_compute; reflexivity.
  - apply wf_forallb. vm_compute; reflexivity.
  - vm_compute; reflexivity.
  - vm_compute; reflexivity.
  - apply up_always; vm_compute; reflexivity.
Defined.

End RosterScenarios.

Module WorkflowScenarios.

Import Orchestrator OrchestratorFacts DispatchFacts Subscriber WorkflowFacts
       LifecycleFacts.

(** The photo workflow on a session folder. *)
Lemma photo_workflow_shares_id_at_session :
  let o := Scenario.orchestrator Scenario.steady Scenario.always in
  let task := Scenario.photo_workflow_task in
  let path := PStr (lit "/app/photos/session_12") in
  let o' := exec (execute_distributed_task (PDict task)) o in
  let wid := (lit "workflow_" ++ DateTime.strftime_compact (reading o))%list in
  result (execute_distributed_task (PDict task)) o
  = Return (Initiated (Some wid) (lit "Workflow de fotos iniciado"))
  /\ exists b1 b2 b3,
       delivered (env o')
       = (delivered (env o)
          ++ [direct (lit "photo-agent") b1; direct (lit "marketing-agent") b2;
              direct (lit "social-media-agent") b3])%list
       /\ is_task_request_for (lit "photo-agent") (direct (lit "photo-agent") b1)
          = true
       /\ is_task_request_for (lit "marketing-agent")
            (direct (lit "marketing-agent") b2) = true
       /\ is_task_request_for (lit "social-media-agent")
            (direct (lit "social-media-agent") b3) = true
       /\ task_of b1
          = PDict [(lit "type", PStr (lit "organize_photos"));
                   (lit "path", path); (lit "workflow_id", PStr wid)]
       /\ task_of b2
          = PDict [(lit "type", PStr (lit "suggest_content"));
                   (lit "context", PDict [(lit "photos_processed", PBool true)]);
                   (lit "workflow_id", PStr wid)]
       /\ task_of b3
          = PDict [(lit "type", PStr (lit "schedule_posts"));
                   (lit "workflow_id", PStr wid)].
Proof.
  apply (photo_workflow_shares_id Scenario.photo_workflow_task
           (PStr (lit "/app/photos/session_12"))
           (Scenario.orchestrator Scenario.steady Scenario.always)).
  - vm_compute; reflexivity.
  - vm_compute; reflexivity.
  - vm_compute; reflexivity.
  - vm_compute; reflexivity.
  - apply RosterScenarios.up_always; vm_compute; reflexivity.
Defined.

(** A campaign with its data. *)
Lemma marketing_campaign_sends_three_at_campaign :
  let o := Scenario.orchestrator Scenario.steady Scenario.always in
  let task := Scenario.campaign_task in
  let campaign_data :=
    PDict [(lit "service_type", PStr (lit "ensaio_casal"));
           (lit "budget", PInt 450)] in
  let o' := exec (execute_distributed_task (PDict task)) o in
  result (execute_distributed_task (PDict task)) o
  = Return (Initiated None (lit "Campanha de marketing iniciada"))
  /\ exists b1 b2 b3,
       delivered (env o')
       = (delivered (env o)
          ++ [direct (lit "marketing-agent") b1;
              direct (lit "social-media-agent") b2;
              direct (lit "crm-agent") b3])%list
       /\ is_task_request_for (lit "marketing-agent")
            (direct (lit "marketing-agent") b1) = true
       /\ is_task_request_for (lit "social-media-agent")
            (direct (lit "social-media-agent") b2) = true
       /\ is_task_request_for (lit "crm-agent") (direct (lit "crm-agent") b3)
          = true
       /\ task_of b1
          = PDict [(lit "type", PStr (lit "create_campaign"));
                   (lit "campaign_data", campaign_data)]
       /\ task_of b2
          = PDict [(lit "type", PStr (lit "prepare_campaign_posts"));
                   (lit "campaign_data", campaign_data)]
       /\ task_of b3
          = PDict [(lit "type", PStr (lit "segment_audience"));
                   (lit "campaign_data", campaign_data)].
Proof.
  apply (marketing_campaign_sends_three Scenario.campaign_task
           (PDict [(lit "service_type", PStr (lit "ensaio_casal"));
                   (lit "budget", PInt 450)])
           (Scenario.orchestrator Scenario.steady Scenario.always)).
  - vm_compute; reflexivity.
  - vm_compute; reflexivity.
  - vm_compute; reflexivity.
  - vm_compute; reflexivity.
  - apply RosterScenarios.up_always; vm_compute; reflexivity.
Defined.

(** A task type the dispatcher has no workflow for. *)
Lemma dispatch_refuses_unknown_at_backup :
  let task_data := PDict [(lit "type", PStr (lit "backup_everything"))] in
  let o := Scenario.orchestrator Scenario.steady Scenario.always in
  let o' := exec (execute_distributed_task task_data) o in
  (exists r, result (execute_distributed_task task_data) o = Return r
             /\ result_status r = lit "error"
             /\ r = UnknownTaskType
                      (match Dict.get [(lit "type", PStr (lit "backup_everything"))]
                               (lit "type") with
                       | Some ty => ty
                       | None => PStr []
                       end))
  /\ publishes (env o') = publishes (env o)
  /\ delivered (env o') = delivered (env o)
  /\ agents o' = agents o.
Proof.
  apply (dispatch_refuses_unknown
           (PDict [(lit "type", PStr (lit "backup_everything"))])
           (Scenario.orchestrator Scenario.steady Scenario.always)).
  vm_compute; reflexivity.
Defined.

(** Onboarding Ana, given by her name alone. *)
Lemma onboarding_bad_client_data_at_name :
  let o := Scenario.orchestrator Scenario.steady Scenario.always in
  let task := Scenario.onboarding_by_name in
  let o' := exec (execute_distributed_task (PDict task)) o in
  result (execute_distributed_task (PDict task)) o = Return (Failed AttributeError)
  /\ result_status (Failed AttributeError) = lit "error"
  /\ exists b,
       delivered (env o') = (delivered (env o) ++ [direct (lit "crm-agent") b])%list
       /\ is_task_request_for (lit "crm-agent") (direct (lit "crm-agent") b) = true
       /\ task_of b
          = PDict [(lit "type", PStr (lit "register_client"));
                   (lit "client_data", PStr (lit "Ana"))]
       /\ logged (env o')
          = (logged (env o)
             ++ [(INFO, DistributedTask (PStr (lit "client_onboarding")));
                 (DEBUG, TaskSent (lit "crm-agent") (PStr (lit "register_client")));
                 (ERROR, DistributedTaskError AttributeError)])%list.
Proof.
  apply (onboarding_bad_client_data Scenario.onboarding_by_name
           (PStr (lit "Ana"))
           (Scenario.orchestrator Scenario.steady Scenario.always)).
  - vm_compute; reflexivity.
  - vm_compute; reflexivity.
  - intros d H. discriminate H.
  - vm_compute; reflexivity.
  - vm_compute; reflexivity.
  - apply RosterScenarios.up_always; vm_compute; reflexivity.
Defined.

(** The photo workflow asked of an orchestrator that never connected. *)
Lemma dispatch_without_channel_at_init :
  let o := __init__ (Scenario.world Scenario.steady Scenario.always) in
  let task := Scenario.photo_workflow_task in
  let o' := exec (execute_distributed_task (PDict task)) o in
  (exists r, result (execute_distributed_task (PDict task)) o = Return r
             /\ result_status r = lit "initiated")
  /\ publishes (env o') = publishes (env o)
  /\ delivered (env o') = delivered (env o)
  /\ logged (env o')
     = (logged (env o)
        ++ [(INFO, DistributedTask (PStr (lit "complete_photo_workflow")))])%list.
Proof.
  apply (dispatch_without_channel Scenario.photo_workflow_task
           (lit "complete_photo_workflow")
           (__init__ (Scenario.world Scenario.steady Scenario.always))).
  - vm_compute; reflexivity.
  - vm_compute; reflexivity.
  - left. reflexivity.
Defined.

(** Stopping the orchestrator of the scenarios, twice. *)
Lemma orchestrator_stop_twice_at_start :
  let o := Scenario.orchestrator Scenario.steady Scenario.always in
  let o1 := exec stop o in
  let o2 := exec stop o1 in
  result stop o = Return tt
  /\ is_closed (env o1) = true /\ system_status o1 = stopped
  /\ result stop o1 = Return tt
  /\ system_status o2 = stopped
  /\ publishes (env o2) = publishes (env o1)
  /\ delivered (env o2) = delivered (env o1)
  /\ logged (env o2)
     = (logged (env o1)
        ++ [(INFO, OrchestratorStopping);
            (ERROR, EventPublishError ChannelInvalidStateError);
            (INFO, OrchestratorStopped)])%list
  /\ agents o2 = agents o.
Proof.
  apply (orchestrator_stop_twice
           (Scenario.orchestrator Scenario.steady Scenario.always));
    vm_compute; reflexivity.
Defined.

(** Starting without a broker. *)
Lemma start_fails_unreachable_at_init :
  let o := __init__ Scenario.unreachable_world in
  let o' := exec start_up o in
  result start_up o = Raise AMQPConnectionError
  /\ system_status o' = error
  /\ agents o' = agents o
  /\ exchange o' = exchange o /\ channel o' = channel o
  /\ publishes (env o') = publishes (env o)
  /\ delivered (env o') = delivered (env o)
  /\ logged (env o')
     = (logged (env o)
        ++ [(INFO, SystemStarting); (INFO, ConnectingToBroker);
            (ERROR, BrokerConnectionError AMQPConnectionError);
            (ERROR, SystemStartError AMQPConnectionError)])%list.
Proof.
  apply (start_fails_unreachable (__init__ Scenario.unreachable_world)).
  vm_compute; reflexivity.
Defined.

(** Starting with the broker there. *)
Lemma start_builds_registry_at_init :
  let o := __init__ (Scenario.world Scenario.steady Scenario.always) in
  let o' := exec start_up o in
  result start_up o = Return tt
  /\ system_status o' = running
  /\ is_closed (env o') = false
  /\ (forall n, Dict.get (agents o') n
                = if existsb (fun k => PyStr.eqb k n) (expected_agents o)
                  then Some fresh_agent else None)
  /\ exists message_body,
       delivered (env o') = (delivered (env o) ++ [broadcast message_body])%list
       /\ Json.decode message_body
          = Return (event_message (lit "system.started") (reading o)
                      (started_data o)).
Proof.
  apply (start_builds_registry
           (__init__ (Scenario.world Scenario.steady Scenario.always))).
  - vm_compute; reflexivity.
  - vm_compute; reflexivity.
  - vm_compute; reflexivity.
  - apply RosterScenarios.wf_forallb. vm_compute; reflexivity.
Defined.

End WorkflowScenarios.

Module AgentLifecycleScenarios.

Import BaseAgent AgentFacts AgentLifecycle PhotoAgentFacts.


(** The started photo agent stops. *)
Lemma stop_is_heard_at_photo_agent :
  let a := Scenario.photo_agent in
  let o := Scenario.silent in
  let a' := exec stop a in
  result stop a = Return tt
  /\ is_closed (env a') = true
  /\ exists message_body,
       delivered (env a')
       = (delivered (env a) ++ [OrchestratorFacts.broadcast message_body])%list
       /\ RosterFacts.stopped_from (agent_name a) message_body = true
       /\ let o' := exec (Orchestrator._handle_agent_message message_body) o in
          if Dict.mem (Orchestrator.agents o) (agent_name a)
          then option_map Orchestrator.status
                 (Dict.get (Orchestrator.agents o') (agent_name a))
               = Some Orchestrator.offline
          else Orchestrator.agents o' = Orchestrator.agents o.
Proof.
  apply (stop_is_heard Scenario.photo_agent Scenario.silent);
    vm_compute; reflexivity.
Defined.

(** The test agent writes to the photo agent. *)
Lemma direct_message_arrives_at_photo_agent :
  let a := Scenario.mock_agent in
  let target := lit "photo-agent" in
  let data := PDict [(lit "type", PStr (lit "request_best_photos"));
                     (lit "session_id", PStr (lit "demo_session_001"));
                     (lit "quantity", PInt 10)] in
  let a' := exec (send_direct_message target data) a in
  result (send_direct_message target data) a = Return tt
  /\ exists message_body,
       delivered (env a')
       = (delivered (env a) ++ [DispatchFacts.direct target message_body])%list
       /\ Json.decode message_body
          = Return (direct_message (agent_name a) target (clock_reading a) data)
       /\ logged (env a')
          = (logged (env a) ++ [(INFO, DirectMessageSent target)])%list.
Proof.
  apply (direct_message_arrives (lit "photo-agent")
           (PDict [(lit "type", PStr (lit "request_best_photos"));
                   (lit "session_id", PStr (lit "demo_session_001"));
                   (lit "quantity", PInt 10)])
           Scenario.mock_agent);
    vm_compute; reflexivity.
Defined.

(** The test agent started without a broker, then stopped. *)
Lemma failed_start_then_stop_at_mock_agent :
  let a := MockAgent.__init__ Scenario.unreachable_world in
  let a1 := exec start a in
  let a2 := exec stop a1 in
  result start a = Raise ConnectionError
  /\ exchange a1 = false /\ connection a1 = false /\ queue a1 = queue a
  /\ logged (env a1)
     = (logged (env a)
        ++ [(INFO, AgentStarting (agent_name a));
            (ERROR, AgentBrokerConnectionError AMQPConnectionError)])%list
  /\ result stop a1 = Return tt
  /\ publishes (env a2) = publishes (env a)
  /\ delivered (env a2) = delivered (env a)
  /\ is_closed (env a2) = is_closed (env a).
Proof.
  apply (failed_start_then_stop (MockAgent.__init__ Scenario.unreachable_world));
    vm_compute; reflexivity.
Defined.

(** [crm.new_client] with a list for data, at the started photo agent. *)
Lemma photo_agent_drops_bad_data_at_new_client :
  let message_body := Scenario.body_of (PDict Scenario.new_client_as_list) in
  let d := Scenario.new_client_as_list in
  let p := Scenario.photo_agent in
  let p' := exec (_handle_message
                    (impl := PhotoAgent.photo_agent (library := Scenario.empty_library))
                    message_body) p in
  result (_handle_message
            (impl := PhotoAgent.photo_agent (library := Scenario.empty_library))
            message_body) p = Return tt
  /\ attrs p' = attrs p
  /\ ticks (env p') = ticks (env p)
  /\ publishes (env p') = publishes (env p)
  /\ delivered (env p') = delivered (env p)
  /\ settled (env p') = (settled (env p) ++ [Ack])%list
  /\ logged (env p')
     = (logged (env p)
        ++ [(DEBUG, MessageReceived (PDict d));
            (DEBUG, ProcessingEvent (PStr (lit "crm.new_client")));
            (ERROR, MessageHandlingFailed AttributeError)])%list.
Proof.
  apply (photo_agent_drops_bad_data (library := Scenario.empty_library)
           (Scenario.body_of (PDict Scenario.new_client_as_list))
           Scenario.new_client_as_list (lit "crm.new_client")
           (PList [PStr (lit "Ana")]) Scenario.photo_agent).
  - vm_compute; reflexivity.
  - vm_compute; reflexivity.
  - right. right. left. reflexivity.
  - vm_compute; reflexivity.
  - intros x H. discriminate H.
Defined.

End AgentLifecycleScenarios.
